(** * Habit tracker: timer session engine, store mutations and calendar walk

    A shallow embedding of the logic-bearing functions of
    [assets/js/app.js] and [assets/js/ui-components.js], the properties
    the specification states about them, and further properties of the
    code.

    Conventions.  JavaScript numbers that the program only uses as integers
    are [Z]; a number that may be [NaN] is an [option Z] with [None] for
    [NaN]; [null] and [undefined] fields are [None]; a plain object used as
    a dictionary is a [gmap]; arrays are lists; a string is the bytes of
    its text in UTF-8.  React state updaters
    ([setStore (prev => ...)]) are functions from the previous state to the
    next one.  A [while (true)] loop is a function of a bound on its
    iterations, and what is proved of it says which bound is enough. *)

From Stdlib Require Import ZArith Lia Ascii String DecimalString.
From Stdlib Require DecimalPos DecimalN.
From stdpp Require Import base option list gmap strings sorting.

#[local] Set Warnings "-clear-no-such-hyp".

(* ================================================================== *)
(** * Part I: definitions                                              *)
(* ================================================================== *)

(** ** The persisted timer record and its restoration
    ([TimerComponent], the initialiser of the [time] state) *)

Module TimerState.
Local Open Scope Z_scope.

(** The object written under the key ['timer-state']:
    [{ time, isRunning, startTime }], where [startTime] is [Date.now()]
    (milliseconds) while running and [null] otherwise. *)
Record t := mk { time : Z; isRunning : bool; startTime : option Z }.

(** What [localStorage.getItem('timer-state')] followed by [JSON.parse]
    can give: no item, an item that does not parse (the [catch] branch),
    or the record. *)
Inductive stored := Absent | Garbled | Parsed (s : t).

(** JavaScript truthiness of a field holding a number or [null]. *)
Definition truthy (v : option Z) : bool :=
  match v with
  | Some n => negb (n =? 0)
  | None => false
  end.

(** The numeric value of such a field in arithmetic ([null] is [0]). *)
Definition to_number (v : option Z) : Z := default 0 v.

(** [x || 0] on a number. *)
Definition or_zero (x : Z) : Z := if x =? 0 then 0 else x.

(** The initial value of [time]; [now] is the reading of [Date.now()].
    [Math.floor (x / 1000)] on an integer [x] is [x / 1000] in [Z]. *)
Definition restoreTime (now : Z) (saved : stored) : Z :=
  match saved with
  | Parsed timerState =>
      if isRunning timerState && truthy (startTime timerState) then
        let elapsed := (now - to_number (startTime timerState)) / 1000 in
        time timerState + elapsed
      else or_zero (time timerState)
  | Absent | Garbled => 0
  end.

(** [saveTimerState(currentTime, running)], the writer of the record;
    [now] is the reading of [Date.now()]. *)
Definition saveTimerState (now currentTime : Z) (running : bool) : t :=
  mk currentTime running (if running then Some now else None).

(** The specification's reading of the restore rule: the persisted
    seconds plus the whole seconds since the anchor when the record is
    running and has an anchor, the persisted seconds otherwise. *)
Definition spec_restore (now : Z) (s : t) : Z :=
  match isRunning s, startTime s with
  | true, Some anchor => time s + (now - anchor) / 1000
  | _, _ => time s
  end.

(** The specification's clock-anomaly rule: a negative elapsed delta is
    clamped to zero. *)
Definition spec_restore_clamped (now : Z) (s : t) : Z :=
  match isRunning s, startTime s with
  | true, Some anchor => time s + Z.max 0 ((now - anchor) / 1000)
  | _, _ => time s
  end.
End TimerState.

(** ** The timer component: its state and the handlers that change it *)

Module Timer.
Local Open Scope Z_scope.

(** One entry of the session history. *)
Record entry := mkEntry {
  id : string; duration : Z; timestamp : string; date : string; note : string
}.

(** The three pieces of React state of [TimerComponent]. *)
Record state := mkState {
  time : Z; isRunning : bool; timerHistory : list entry
}.

(** What [saveTimer] reads from its environment: [uid()],
    [new Date().toISOString()] and [isoDate()]. *)
Record fresh := mkFresh { f_id : string; f_timestamp : string; f_date : string }.

Definition startTimer (st : state) : state :=
  mkState (time st) true (timerHistory st).
Definition pauseTimer (st : state) : state :=
  mkState (time st) false (timerHistory st).
Definition resetTimer (st : state) : state :=
  mkState 0 false (timerHistory st).

(** The interval callback; the interval only exists while [isRunning]. *)
Definition tick (st : state) : state :=
  if isRunning st then mkState (time st + 1) (isRunning st) (timerHistory st)
  else st.

Definition newEntry (f : fresh) (st : state) : entry :=
  mkEntry (f_id f) (time st) (f_timestamp f) (f_date f) "".

(** [[newEntry, ...prev].slice(0, 10)], then [resetTimer()]. *)
Definition saveTimer (f : fresh) (st : state) : state :=
  if 0 <? time st then
    resetTimer
      (mkState (time st) (isRunning st)
               (take 10 (newEntry f st :: timerHistory st)))
  else st.

Definition deleteHistoryEntry (i : string) (st : state) : state :=
  mkState (time st) (isRunning st)
          (filter (λ e, id e ≠ i) (timerHistory st)).

Definition updateEntryNote (i n : string) (st : state) : state :=
  mkState (time st) (isRunning st)
          ((λ e, if decide (id e = i)
                 then mkEntry (id e) (duration e) (timestamp e) (date e) n
                 else e) <$> timerHistory st).

(** The events the component reacts to. *)
Inductive action :=
| Start | Pause | Tick | ResetA
| Save (f : fresh)
| DeleteEntry (i : string)
| UpdateNote (i n : string).

Definition step (st : state) (a : action) : state :=
  match a with
  | Start => startTimer st
  | Pause => pauseTimer st
  | Tick => tick st
  | ResetA => resetTimer st
  | Save f => saveTimer f st
  | DeleteEntry i => deleteHistoryEntry i st
  | UpdateNote i n => updateEntryNote i n st
  end.

Definition run (st : state) (l : list action) : state := foldl step st l.

(** The component as it mounts with nothing persisted. *)
Definition initial : state := mkState 0 false [].

(** Sample data: a running timer with a full history. *)
Definition sampleEntry (n : Z) : entry := mkEntry "e" n "ts" "2024-01-05" "".
Definition fullHistory : state :=
  mkState 25 true (sampleEntry <$> [10; 9; 8; 7; 6; 5; 4; 3; 2; 1]).

End Timer.

(** ** Habits, the store and its mutations
    ([HabitApp]: [toggle], [saveHabit], [deleteHabit], [reorder]; and the
    two callers of [saveHabit] that take a typed name) *)

Module Habits.
Local Open Scope Z_scope.

Record habit := mkHabit {
  id : string; name : string; color : string; icon : string;
  repeatDays : list Z; createdAt : string; order : Z; archived : bool
}.

(** The store [{ habits, completions }]; [completions] maps a date to the
    array of the ids done that day.  The element type is a parameter
    because [reorder] can leave objects in [habits] that are not habits. *)
Record store_of (H : Type) := mkStore {
  habits : list H;
  completions : gmap string (list string)
}.
Arguments mkStore {H} _ _.
Arguments habits {H} _.
Arguments completions {H} _.

Abbreviation store := (store_of habit).

(** The [{ ...h, order: i }] of [reorder]. *)
Definition with_order (h : habit) (i : Z) : habit :=
  mkHabit (id h) (name h) (color h) (icon h) (repeatDays h) (createdAt h)
          i (archived h).

(** What [hs.map((h, i) => ({ ...h, order: i }))] builds: a habit with its
    new order, or, from an [undefined] element, an object whose only
    property is [order]. *)
Inductive obj := Habit (h : habit) | OrderOnly (i : Z).

(** *** Completions *)

(** [new Set(l)]: the distinct elements, in order of first occurrence. *)
Fixpoint new_Set (l : list string) : list string :=
  match l with
  | [] => []
  | x :: r => x :: filter (λ y, y ≠ x) (new_Set r)
  end.

(** The ledger entry of a date, [completions[d] || []]. *)
Definition entry (s : store) (d : string) : list string :=
  default [] (completions s !! d).

Definition hasCompleted (s : store) (date habitId : string) : bool :=
  match completions s !! date with
  | Some l => bool_decide (habitId ∈ l)
  | None => false
  end.

Definition toggle (h : habit) (d : string) (prev : store) : store :=
  let list := new_Set (entry prev d) in
  let list' :=
    if bool_decide (id h ∈ list) then filter (λ y, y ≠ id h) list
    else list ++ [id h] in
  mkStore (habits prev) (<[d := list']> (completions prev)).

(** *** Saving and deleting *)

Definition saveHabit (h : habit) (prev : store) : store :=
  let exists_ := list_find (λ x, id x = id h) (habits prev) in
  let habits' :=
    if exists_ is Some _
    then (λ x, if decide (id x = id h) then h else x) <$> habits prev
    else habits prev ++ [h] in
  mkStore habits' (completions prev).

(** [confirmed] is the answer given to the [confirm] dialog. *)
Definition deleteHabit (confirmed : bool) (i : string) (prev : store) : store :=
  if confirmed
  then mkStore (filter (λ h, id h ≠ i) (habits prev)) (completions prev)
  else prev.

(** *** Names: [trim] and the callers that check it *)

(** White space as [String.prototype.trim] sees it: the WhiteSpace and
    LineTerminator code points of ECMAScript.  A text is the list of the
    bytes of its UTF-8 encoding, so a white space character is one, two or
    three bytes.  One byte: TAB, LF, VT, FF, CR and the space. *)
Definition white_space1 (a : ascii) : bool :=
  let n := nat_of_ascii a in
  ((9 <=? n)%nat && (n <=? 13)%nat) || (n =? 32)%nat.

(** Two bytes: U+00A0, the no-break space (C2 A0). *)
Definition white_space2 (a b : ascii) : bool :=
  (nat_of_ascii a =? 194)%nat && (nat_of_ascii b =? 160)%nat.

(** Three bytes: U+1680 (E1 9A 80); U+2000 to U+200A, U+2028, U+2029 and
    U+202F (E2 80 80 to 8A, A8, A9, AF); U+205F (E2 81 9F); U+3000
    (E3 80 80); U+FEFF (EF BB BF). *)
Definition white_space3 (a b c : ascii) : bool :=
  let x := nat_of_ascii a in
  let y := nat_of_ascii b in
  let z := nat_of_ascii c in
  ((x =? 225) && (y =? 154) && (z =? 128))%nat
  || ((x =? 226) && (y =? 128)
      && (((128 <=? z) && (z <=? 138)) || (z =? 168) || (z =? 169)
          || (z =? 175)))%nat
  || ((x =? 226) && (y =? 129) && (z =? 159))%nat
  || ((x =? 227) && (y =? 128) && (z =? 128))%nat
  || ((x =? 239) && (y =? 187) && (z =? 191))%nat.

(** The text without the white space at its start.  With [backwards] the
    list is a text read from its end, the bytes of each character in
    reverse order, and what is dropped is the white space at the end of
    the text. *)
Fixpoint trimStart_list (backwards : bool) (l : list ascii) : list ascii :=
  match l with
  | a :: r =>
      if white_space1 a then trimStart_list backwards r else
      match r with
      | b :: r2 =>
          if (if backwards then white_space2 b a else white_space2 a b)
          then trimStart_list backwards r2 else
          match r2 with
          | c :: r3 =>
              if (if backwards then white_space3 c b a
                  else white_space3 a b c)
              then trimStart_list backwards r3 else l
          | [] => l
          end
      | [] => l
      end
  | [] => []
  end.

Definition trim (s : string) : string :=
  string_of_list_ascii
    (rev (trimStart_list true
            (rev (trimStart_list false (list_ascii_of_string s))))).

(** A text that is a sequence of white space characters. *)
Fixpoint all_white_space (l : list ascii) : bool :=
  match l with
  | [] => true
  | a :: r =>
      if white_space1 a then all_white_space r else
      match r with
      | b :: r2 =>
          if white_space2 a b then all_white_space r2 else
          match r2 with
          | c :: r3 => white_space3 a b c && all_white_space r3
          | [] => false
          end
      | [] => false
      end
  end.

(** A name that is empty or all white space. *)
Definition blank (s : string) : bool :=
  all_white_space (list_ascii_of_string s).

(** Truthiness of a string. *)
Definition nonempty (s : string) : bool :=
  if s is EmptyString then false else true.

(** The Save button of [EditDialog]: [onClick={() => onSave(draft)}],
    [disabled={!draft.name || !draft.name.trim()}]; a disabled button does
    not fire. *)
Definition editDialogSave (draft : habit) (prev : store) : store :=
  if negb (nonempty (name draft)) || negb (nonempty (trim (name draft)))
  then prev
  else saveHabit draft prev.

(** [handleAddHabit] of [TableView], with [onAddHabit = saveHabit];
    [uid] and [picked] are the results of [uid()] and [pickColor()],
    [shown] is [habits.length] of the rows on display. *)
Definition handleAddHabit (uid picked currentDate : string) (shown : nat)
    (newHabitName : string) (prev : store) : store :=
  if nonempty (trim newHabitName) then
    saveHabit
      (mkHabit uid (trim newHabitName) picked "✅" [0; 1; 2; 3; 4; 5; 6]
               currentDate (Z.of_nat shown) false)
      prev
  else prev.

(** *** Reordering *)

(** [[...l].sort((a, b) => a.order - b.order)]: the sort is stable. *)
Fixpoint insert_sorted (h : habit) (l : list habit) : list habit :=
  match l with
  | [] => [h]
  | x :: r => if order h <=? order x then h :: x :: r
              else x :: insert_sorted h r
  end.

Definition sort_by_order (l : list habit) : list habit :=
  foldr insert_sorted [] l.

(** The position [Array.prototype.splice] starts at, for an array of
    [len] elements: a negative [start] counts from the end, and both ends
    are clamped. *)
Definition splice_start (len : nat) (start : Z) : nat :=
  Z.to_nat (if start <? 0 then Z.max (Z.of_nat len + start) 0
            else Z.min start (Z.of_nat len)).

(** [const [moved] = hs.splice(from, 1)]: the removed element, [None] for
    [undefined] when nothing was removed, and what is left of [hs]. *)
Definition splice_out (from : Z) (hs : list habit) : option habit * list habit :=
  let a := splice_start (length hs) from in
  (hs !! a, delete a hs).

(** [hs.splice(to, 0, moved)]. *)
Definition splice_in {A} (to : Z) (moved : A) (hs : list A) : list A :=
  let b := splice_start (length hs) to in
  take b hs ++ moved :: drop b hs.

Definition reorder (from to : Z) (prev : store) : store_of obj :=
  let hs := sort_by_order (habits prev) in
  let '(moved, hs1) := splice_out from hs in
  let hs2 := splice_in to moved (Some <$> hs1) in
  let withOrder :=
    imap (λ i o, match o with
                 | Some h => Habit (with_order h (Z.of_nat i))
                 | None => OrderOnly (Z.of_nat i)
                 end) hs2 in
  mkStore withOrder (completions prev).

(** The habits of an array that holds habit records only. *)
Fixpoint habits_only (l : list obj) : option (list habit) :=
  match l with
  | [] => Some []
  | Habit h :: r => cons h <$> habits_only r
  | OrderOnly _ :: _ => None
  end.

(** The store [reorder] leaves, when its array holds habit records only. *)
Definition reorder_store (from to : Z) (s : store) : option store :=
  hs ← habits_only (habits (reorder from to s));
  Some (mkStore hs (completions (reorder from to s))).

(** A sequence of [reorder] calls, each on the store the one before left. *)
Fixpoint reorder_seq (calls : list (Z * Z)) (s : store) : option store :=
  match calls with
  | [] => Some s
  | (from, to) :: rest => s' ← reorder_store from to s; reorder_seq rest s'
  end.

(** The orders [0, ..., n-1]. *)
Definition dense_orders (n : nat) : list Z := Z.of_nat <$> seq 0 n.

(** A store whose habits carry dense order values. *)
Definition dense (s : store) : Prop :=
  order <$> habits s ≡ₚ dense_orders (length (habits s)).

(** What the specification asks of [reorder]: the result holds habit
    records only, their orders are [0, ..., N-1] in sequence, they are
    the records of the store (compared with the order field set aside),
    and the ledger is untouched. *)
Definition reorder_keeps_records (s : store) (from to : Z) : Prop :=
  ∃ hs' : list habit,
    habits (reorder from to s) = Habit <$> hs' ∧
    order <$> hs' = dense_orders (length (habits s)) ∧
    (λ h, with_order h 0) <$> hs' ≡ₚ (λ h, with_order h 0) <$> habits s ∧
    completions (reorder from to s) = completions s.

(** *** Sample data *)

(** The no-break space U+00A0 and the ideographic space U+3000, as the
    bytes of their UTF-8 encodings. *)
Definition nbsp : string :=
  String (ascii_of_nat 194) (String (ascii_of_nat 160) "").
Definition ideographic_space : string :=
  String (ascii_of_nat 227)
    (String (ascii_of_nat 128) (String (ascii_of_nat 128) "")).

(** A habit with the empty name. *)
Definition blankHabit : habit :=
  mkHabit "h1" "" "bg-blue-100" "ok" [0; 1; 2; 3; 4; 5; 6] "2024-01-05" 0 false.

Definition oneHabit : habit :=
  mkHabit "a" "Read" "bg-blue-100" "ok" [0; 1; 2; 3; 4; 5; 6] "2024-01-01" 0 false.

(** The same habit, archived. *)
Definition archivedHabit : habit :=
  mkHabit "a" "Read" "bg-blue-100" "ok" [0; 1; 2; 3; 4; 5; 6] "2024-01-01" 0 true.

(** The specification's example: a habit due every day, created on
    2024-01-01, done on 01-05, 01-04 and 01-03 and not on 01-02. *)
Definition exHabit : habit :=
  mkHabit "h" "Run" "bg-blue-100" "ok" [0; 1; 2; 3; 4; 5; 6] "2024-01-01" 0 false.

Definition exStore : store :=
  mkStore [exHabit]
    (<["2024-01-05" := ["h"]]>
       (<["2024-01-04" := ["h"]]> (<["2024-01-03" := ["h"]]> ∅))).

End Habits.

(** ** The platform: numbers, strings, [Date] and [Intl.DateTimeFormat]

    A model of the built-ins the calendar functions call, in the range the
    program uses them: integers and [NaN]; the proleptic Gregorian
    calendar over day numbers counted from 1970-01-01; a time zone with a
    fixed offset from UTC. *)

Module JS.
Local Open Scope Z_scope.

(** A number: an integer, or [None] for [NaN]. *)
Abbreviation number := (option Z).

(** A [Date] object is its time value in milliseconds; [None] is the
    Invalid Date. *)
Abbreviation Date := (option Z).

Inductive exn := RangeError.

(** The result of a call: a value or an exception.  A [while (true)]
    loop is run with a bound [fuel] on its iterations and gives an
    [option (result A)], [None] when the bound is reached first. *)
Inductive result (A : Type) :=
| Ret (a : A)
| Raise (e : exn).
Arguments Ret {A} _.
Arguments Raise {A} _.

#[export] Instance result_ret : MRet result := @Ret.
#[export] Instance result_bind : MBind result := λ A B f m,
  match m with
  | Ret a => f a
  | Raise e => Raise e
  end.

(** *** Numbers and strings *)

Definition is_digit (c : ascii) : bool :=
  let n := nat_of_ascii c in (48 <=? n)%nat && (n <=? 57)%nat.

Fixpoint digits_value (acc : Z) (l : list ascii) : number :=
  match l with
  | [] => Some acc
  | c :: r =>
      if is_digit c
      then digits_value (10 * acc + Z.of_nat (nat_of_ascii c - 48)) r
      else None
  end.

(** [Number(s)] on the strings the model covers: white space around the
    text is dropped, the empty text is 0, a run of decimal digits is its
    value, and any other text is [NaN] (signs, fractions, exponents and
    radix prefixes are outside the model). *)
Definition Number (s : string) : number :=
  digits_value 0 (list_ascii_of_string (Habits.trim s)).

(** The decimal digits of a non-negative integer. *)
Definition decimal (n : Z) : string :=
  NilZero.string_of_uint (N.to_uint (Z.to_N n)).

(** [String(v)] and [`${v}`] for [v] a number or [undefined] (the outer
    [None]). *)
Definition to_String (v : option number) : string :=
  match v with
  | None => "undefined"
  | Some None => "NaN"
  | Some (Some n) => if n <? 0 then "-" +:+ decimal (- n) else decimal n
  end.

(** [ToNumber(v)]: [undefined] becomes [NaN]. *)
Definition to_Number (v : option number) : number := v ≫= id.

(** [s.padStart(2, '0')]. *)
Definition padStart2 (s : string) : string :=
  match String.length s with
  | 0%nat => "00"
  | 1%nat => "0" +:+ s
  | _ => s
  end.

Fixpoint split_go (sep : ascii) (cur : list ascii) (l : list ascii) : list string :=
  match l with
  | [] => [string_of_list_ascii (rev cur)]
  | c :: r =>
      if Ascii.eqb c sep
      then string_of_list_ascii (rev cur) :: split_go sep [] r
      else split_go sep (c :: cur) r
  end.

(** [s.split(sep)] for a one-character separator. *)
Definition split (sep : ascii) (s : string) : list string :=
  split_go sep [] (list_ascii_of_string s).

(** *** Days and dates *)

Definition msPerDay : Z := 86400000.

(** The day number of year [y], month [m] (1 to 12), day [d]. *)
Definition days_from_civil (y m d : Z) : Z :=
  let y' := if m <=? 2 then y - 1 else y in
  let era := y' / 400 in
  let yoe := y' - era * 400 in
  let mp := (m + 9) mod 12 in
  let doy := (153 * mp + 2) / 5 + d - 1 in
  let doe := yoe * 365 + yoe / 4 - yoe / 100 + doy in
  era * 146097 + doe - 719468.

(** Year, month (1 to 12) and day of a day number. *)
Definition civil_from_days (z : Z) : Z * Z * Z :=
  let z := z + 719468 in
  let era := z / 146097 in
  let doe := z - era * 146097 in
  let yoe := (doe - doe / 1460 + doe / 36524 - doe / 146096) / 365 in
  let doy := doe - (365 * yoe + yoe / 4 - yoe / 100) in
  let mp := (5 * doy + 2) / 153 in
  let d := doy - (153 * mp + 2) / 5 + 1 in
  let m := if mp <? 10 then mp + 3 else mp - 9 in
  let y := yoe + era * 400 in
  (if m <=? 2 then y + 1 else y, m, d).

(** [MakeDay(year, month, date)], [month] counted from 0 and free to
    overflow into other years, [date] free to overflow into other months. *)
Definition MakeDay (year month date : Z) : Z :=
  days_from_civil (year + month / 12) (month mod 12 + 1) 1 + date - 1.

(** [TimeClip]: a time value beyond 8.64e15 ms is [NaN]. *)
Definition TimeClip (t : Z) : number :=
  if Z.abs t <=? 8640000000000000 then Some t else None.

(** [Date.UTC(year, month, date)]; a year from 0 to 99 means 1900 + year. *)
Definition Date_UTC (year month date : number) : number :=
  y ← year; m ← month; dt ← date;
  let yr := if (0 <=? y) && (y <=? 99) then 1900 + y else y in
  TimeClip (MakeDay yr m dt * msPerDay).

Definition getUTCDate (d : Date) : number :=
  t ← d; Some (civil_from_days (t / msPerDay)).2.

Definition setUTCDate (d : Date) (v : number) : Date :=
  t ← d; dt ← v;
  let '(y, m, _) := civil_from_days (t / msPerDay) in
  TimeClip (MakeDay y (m - 1) dt * msPerDay + t mod msPerDay).

Definition add (a b : number) : number := x ← a; y ← b; Some (x + y).
Definition sub (a b : number) : number := x ← a; y ← b; Some (x - y).

(** The zone: [tz] is its offset from UTC in minutes, east positive. *)
Definition local_day (tz : Z) (t : Z) : Z := (t + tz * 60000) / msPerDay.

(** [d.getDay()], in local time: 0 is Sunday; day 0 was a Thursday. *)
Definition getDay (tz : Z) (d : Date) : number :=
  t ← d; Some ((local_day tz t + 4) mod 7).

Definition two_digits (a b : ascii) : number :=
  digits_value 0 [a; b].

(** [new Date(s)] for [s] of the form [YYYY-MM-DDT00:00:00], a local time:
    the month must be 01 to 12 and the day 01 to 31 (a day past the end of
    the month runs into the next one, as in V8).  A string of any other
    form is outside the model and read as the Invalid Date. *)
Definition Date_parse (tz : Z) (s : string) : Date :=
  match list_ascii_of_string s with
  | [y1; y2; y3; y4; "-"; m1; m2; "-"; d1; d2;
     "T"; "0"; "0"; ":"; "0"; "0"; ":"; "0"; "0"]%char =>
      y ← digits_value 0 [y1; y2; y3; y4];
      m ← two_digits m1 m2;
      d ← two_digits d1 d2;
      if (1 <=? m) && (m <=? 12) && (1 <=? d) && (d <=? 31)
      then TimeClip (MakeDay y (m - 1) d * msPerDay - tz * 60000)
      else None
  | _ => None
  end.

Inductive part := Year | Month | Day.

(** [new Intl.DateTimeFormat("en-CA", { timeZone: tz, <part> }).format(d)]
    with ["numeric"] for the year and ["2-digit"] for month and day.  An
    Invalid Date raises [RangeError].  A year before 1 is printed as its
    year of the era. *)
Definition format (tz : Z) (p : part) (d : Date) : result string :=
  match d with
  | None => Raise RangeError
  | Some t =>
      let '(y, m, day) := civil_from_days (local_day tz t) in
      Ret match p with
          | Year => decimal (if 0 <? y then y else 1 - y)
          | Month => padStart2 (decimal m)
          | Day => padStart2 (decimal day)
          end
  end.

End JS.

(** ** The calendar utility and the streak
    ([isoDate], [addDays], [monthRange], [isScheduled], [calcStreak]);
    [tz] is the offset in minutes of the zone [tz] resolves to. *)

Module Calendar.
Import JS Habits.
Local Open Scope Z_scope.

Definition isoDate (tz : Z) (d : Date) : result string :=
  y ← format tz Year d;
  m ← format tz Month d;
  day ← format tz Day d;
  Ret (y +:+ "-" +:+ m +:+ "-" +:+ day).

Definition addDays (tz : Z) (dateStr : string) (delta : Z) : result string :=
  let parts := Number <$> split "-" dateStr in
  let y := parts !! 0%nat in
  let m := parts !! 1%nat in
  let d := parts !! 2%nat in
  let dt := Date_UTC (to_Number y) (sub (to_Number m) (Some 1)) (to_Number d) in
  let dt := setUTCDate dt (add (getUTCDate dt) (Some delta)) in
  isoDate tz dt.

(** The body of [while (true)] in [monthRange], run at most [fuel] times;
    [endIso] is the outcome of [isoDate(end)] and [next d] that of
    [addDays(d, 1)]. *)
Fixpoint monthRange_loop (endIso : result string)
    (next : string → result string) (fuel : nat)
    (d : string) (days : list string) : option (result (list string)) :=
  match fuel with
  | O => None
  | S fuel =>
      let days := days ++ [d] in
      match endIso with
      | Raise x => Some (Raise x)
      | Ret e =>
          if String.eqb d e then Some (Ret days) else
          match next d with
          | Raise x => Some (Raise x)
          | Ret d =>
              if (40 <? length days)%nat then Some (Ret days) else
              monthRange_loop endIso next fuel d days
          end
      end
  end.

Definition monthRange (tz : Z) (fuel : nat) (dateStr : string)
  : option (result (list string)) :=
  let parts := Number <$> split "-" dateStr in
  let y := parts !! 0%nat in
  let m := parts !! 1%nat in
  let first := to_String y +:+ "-" +:+ padStart2 (to_String m) +:+ "-01" in
  let start := Date_parse tz (first +:+ "T00:00:00") in
  let end_ := Date_UTC (to_Number y) (to_Number m) (Some 0) in
  match isoDate tz start with
  | Raise x => Some (Raise x)
  | Ret d => monthRange_loop (isoDate tz end_) (λ d, addDays tz d 1) fuel d []
  end.

Definition isScheduled (tz : Z) (h : habit) (date : string) : bool :=
  let dt := Date_parse tz (date +:+ "T00:00:00") in
  let dow := getDay tz dt in
  match dow with
  | Some n => bool_decide (n ∈ repeatDays h)
  | None => false
  end && negb (archived h).

(** The body of [while (true)] in [calcStreak], run at most [fuel] times. *)
Fixpoint calcStreak_loop (tz : Z) (s : store) (h : habit) (fuel : nat)
    (streak : Z) (d : string) : option (result Z) :=
  match fuel with
  | O => None
  | S fuel =>
      let beforeCreated := String.ltb d (createdAt h) in
      let scheduled := isScheduled tz h d in
      let done := hasCompleted s d (id h) in
      let continue (streak : Z) : option (result Z) :=
        if beforeCreated then Some (Ret streak) else
        match addDays tz d (-1) with
        | Raise x => Some (Raise x)
        | Ret prev =>
            if String.eqb prev d then Some (Ret streak) else
            if 3650 <? streak then Some (Ret streak) else
            calcStreak_loop tz s h fuel streak prev
        end in
      if scheduled && done then continue (streak + 1)
      else if scheduled && negb done then Some (Ret streak)
      else continue streak
  end.

Definition calcStreak (tz : Z) (fuel : nat) (s : store) (h : habit)
    (fromDate : string) : option (result Z) :=
  calcStreak_loop tz s h fuel 0 fromDate.

(** *** Dates as day numbers, and the specification's streak walk *)

(** The text [YYYY-MM-DD] of the day number [n], as [isoDate] prints a
    date of a year from 1 on. *)
Definition iso (n : Z) : string :=
  let '(y, m, d) := civil_from_days n in
  decimal y +:+ "-" +:+ padStart2 (decimal m) +:+ "-" +:+ padStart2 (decimal d).

(** The days whose year has four digits: 1000-01-01 to 9999-12-31. *)
Definition first_day : Z := days_from_civil 1000 1 1.
Definition last_day : Z := days_from_civil 9999 12 31.
Definition four_digit_year (n : Z) : Prop := first_day ≤ n ≤ last_day.

(** "Due" on day [n]: its weekday is among [repeatDays] and the habit is
    not archived (§4.2). *)
Definition spec_due (h : habit) (n : Z) : bool :=
  bool_decide ((n + 4) mod 7 ∈ repeatDays h) && negb (archived h).

(** The walk of §4.5, one calendar day at a time from day [n] backwards:
    a due and done day counts, a due day not done ends the walk, a day
    that is not due is passed over; a day before [createdAt] (compared as
    text) ends the walk after its own effect; the walk stops once the
    count exceeds 3650. *)
Fixpoint spec_streak_walk (s : store) (h : habit) (fuel : nat)
    (count n : Z) : option Z :=
  match fuel with
  | O => None
  | S fuel =>
      let due := spec_due h n in
      let done := hasCompleted s (iso n) (id h) in
      if due && negb done then Some count else
      let count := if due && done then count + 1 else count in
      if String.ltb (iso n) (createdAt h) then Some count else
      if 3650 <? count then Some count else
      spec_streak_walk s h fuel count (n - 1)
  end.

Definition spec_streak (fuel : nat) (s : store) (h : habit) (n : Z) : option Z :=
  spec_streak_walk s h fuel 0 n.

(** *** Checks over finite ranges, run once by the proofs *)

(** [f] holds on [z], [z + 1], ..., [z + fuel - 1]. *)
Fixpoint all_from (fuel : nat) (z : Z) (f : Z → bool) : bool :=
  match fuel with
  | O => true
  | S k => f z && all_from k (z + 1) f
  end.

(** Dates in calendar order: by year, then month, then day. *)
Definition date_ltb (a b : Z * Z * Z) : bool :=
  let '(y, m, d) := a in
  let '(y', m', d') := b in
  (y <? y') || ((y =? y') && ((m <? m') || ((m =? m') && (d <? d')))).

(** The steps of [civil_from_days], named: the year of a 400-year era
    (years running from March) that a day [doe] of the era falls in, the
    first day of such a year, and the date of day [doy] of year [yoe] of
    era [era]. *)
Definition yoe_of (doe : Z) : Z :=
  (doe - doe / 1460 + doe / 36524 - doe / 146096) / 365.
Definition year_start (y : Z) : Z := 365 * y + y / 4 - y / 100.
Definition date_of (era yoe doy : Z) : Z * Z * Z :=
  let mp := (5 * doy + 2) / 153 in
  let d := doy - (153 * mp + 2) / 5 + 1 in
  let m := if mp <? 10 then mp + 3 else mp - 9 in
  let y := yoe + era * 400 in
  (if m <=? 2 then y + 1 else y, m, d).

(** A year of four digits prints as four digits that read back as it. *)
Definition year_text_ok (y : Z) : bool :=
  match list_ascii_of_string (decimal y) with
  | [a; b; c; e] =>
      forallb is_digit [a; b; c; e]
      && bool_decide (digits_value 0 [a; b; c; e] = Some y)
  | _ => false
  end.

(** A month or day prints, padded, as two digits that read back as it. *)
Definition two_text_ok (v : Z) : bool :=
  match list_ascii_of_string (padStart2 (decimal v)) with
  | [a; b] =>
      forallb is_digit [a; b] && bool_decide (digits_value 0 [a; b] = Some v)
  | _ => false
  end.

(** What the specification's claim about [monthRange] asks of an
    outcome: a returned array of at most 41 entries. *)
Definition returns_at_most_41 (o : option (result (list string))) : Prop :=
  ∃ days, o = Some (Ret days) ∧ (length days ≤ 41)%nat.

(** What the loop guarantees: it ends within its bound, either by the
    formatter's exception or with 1 to 41 entries. *)
Definition ends_within_cap (o : option (result (list string))) : Prop :=
  o = Some (Raise RangeError) ∨
  ∃ days, o = Some (Ret days) ∧ (1 ≤ length days ≤ 41)%nat.

End Calendar.

(** ** The week strip, the month table and the day window
    ([startOfWeek], [range]; [weekStart] and [weekDays] of [HabitApp];
    [calculateVisibleDays] of [TableView]) *)

Module Week.
Import JS Habits Calendar.
Local Open Scope Z_scope.

(** [a % b]: the remainder has the sign of the dividend; [x % 0] is [NaN]. *)
Definition rem (a b : number) : number :=
  x ← a; y ← b; if y =? 0 then None else Some (Z.rem x y).

(** Unary minus. *)
Definition neg (a : number) : number := Z.opp <$> a.

(** [addDays] called with a [delta] that may be [NaN]. *)
Definition addDays_number (tz : Z) (dateStr : string) (delta : number)
  : result string :=
  let parts := Number <$> split "-" dateStr in
  let y := parts !! 0%nat in
  let m := parts !! 1%nat in
  let d := parts !! 2%nat in
  let dt := Date_UTC (to_Number y) (sub (to_Number m) (Some 1)) (to_Number d) in
  let dt := setUTCDate dt (add (getUTCDate dt) delta) in
  isoDate tz dt.

Definition startOfWeek (tz : Z) (dateStr : string) (weekStartsOn : Z)
  : result string :=
  let date := Date_parse tz (dateStr +:+ "T00:00:00") in
  let day := rem (sub (add (getDay tz date) (Some 7)) (Some weekStartsOn))
                 (Some 7) in
  d ← isoDate tz date;
  addDays_number tz d (neg day).

(** [[...Array(n).keys()]]. *)
Definition range (n : nat) : list Z := Z.of_nat <$> seq 0 n.

(** [l.map(f)] for a callback that can throw: the first exception ends
    the call. *)
Fixpoint map_result {A B} (f : A → result B) (l : list A) : result (list B) :=
  match l with
  | [] => Ret []
  | x :: r => y ← f x; ys ← map_result f r; Ret (y :: ys)
  end.

(** [weekStart] and [weekDays] of [HabitApp], for the selected [date]. *)
Definition weekDays (tz : Z) (date : string) : result (list string) :=
  weekStart ← startOfWeek tz date 1;
  map_result (λ i, addDays tz weekStart i) (range 7).

(** [l.slice(a, b)]; the two positions are clamped as [splice] clamps its
    start. *)
Definition slice {A} (a b : Z) (l : list A) : list A :=
  let k := splice_start (length l) a in
  let e := splice_start (length l) b in
  take (e - k) (drop k l).

(** [days.findIndex(d => d === currentDate)]. *)
Definition findIndex (currentDate : string) (days : list string) : Z :=
  match list_find (λ d, d = currentDate) days with
  | Some (i, _) => Z.of_nat i
  | None => -1
  end.

(** [calculateVisibleDays] of [TableView]: the value it gives to
    [setVisibleDays]; [containerWidth] is [tableRef.current.offsetWidth]. *)
Definition calculateVisibleDays (containerWidth : Z) (days : list string)
    (currentDate : string) : list string :=
  let habitColumnWidth := 224 in
  let dayColumnWidth := 48 in
  let availableWidth := containerWidth - habitColumnWidth - 32 in
  let maxDays := availableWidth / dayColumnWidth in
  let daysToShow := Z.max 7 (Z.min maxDays (Z.of_nat (length days))) in
  let todayIndex := findIndex currentDate days in
  if todayIndex =? -1 then slice 0 daysToShow days
  else
    let halfRange := daysToShow / 2 in
    let startIndex := Z.max 0 (todayIndex - halfRange) in
    let endIndex := Z.min (Z.of_nat (length days)) (startIndex + daysToShow) in
    let startIndex :=
      if endIndex - startIndex <? daysToShow
      then Z.max 0 (endIndex - daysToShow)
      else startIndex in
    slice startIndex endIndex days.

(** The first day of the month of day [n], and the day after its last. *)
Definition month_start (n : Z) : Z := n - (civil_from_days n).2 + 1.
Definition next_month_start (n : Z) : Z :=
  let '(y, m, _) := civil_from_days n in MakeDay y m 1.

End Week.

(** ** The timer on screen and across reloads
    ([TimerComponent]: the initialiser of [isRunning], the effect that
    writes the record, [formatTime]) *)

Module TimerView.
Import JS.
Local Open Scope Z_scope.

(** The initial value of [isRunning], [timerState.isRunning || false]. *)
Definition restoreRunning (saved : TimerState.stored) : bool :=
  match saved with
  | TimerState.Parsed timerState => TimerState.isRunning timerState
  | TimerState.Absent | TimerState.Garbled => false
  end.

(** The component as it mounts at the instant [now] over the persisted
    record [saved] and the persisted history [history]. *)
Definition mount (now : Z) (saved : TimerState.stored)
    (history : list Timer.entry) : Timer.state :=
  Timer.mkState (TimerState.restoreTime now saved) (restoreRunning saved)
                history.

(** The effect on [[time, isRunning]]: [saveTimerState(time, isRunning)],
    run at the instant [now]. *)
Definition persist (now : Z) (st : Timer.state) : TimerState.stored :=
  TimerState.Parsed
    (TimerState.saveTimerState now (Timer.time st) (Timer.isRunning st)).

(** [n.toString()] on an integer. *)
Definition toString (n : Z) : string := to_String (Some (Some n)).

(** [formatTime(seconds)]: [Math.floor] of a quotient of integers is the
    quotient in [Z], [%] is the remainder with the sign of the dividend. *)
Definition formatTime (seconds : Z) : string :=
  let hours := seconds / 3600 in
  let minutes := Z.rem seconds 3600 / 60 in
  let secs := Z.rem seconds 60 in
  padStart2 (toString hours) +:+ ":" +:+ padStart2 (toString minutes)
    +:+ ":" +:+ padStart2 (toString secs).

End TimerView.

(** ** The edit dialog and the list on screen
    ([EditDialog]: [setDay] and the field edits; [repeatLabel];
    [HabitApp]: [startCreate], [clearToday], the [habits] memo,
    [scheduledToday] and [completedToday]) *)

Module Editing.
Import JS Habits Calendar.
Local Open Scope Z_scope.

(** [new Set(l)] on numbers: the distinct elements, in order of first
    occurrence. *)
Fixpoint new_Set_numbers (l : list Z) : list Z :=
  match l with
  | [] => []
  | x :: r => x :: filter (λ y, y ≠ x) (new_Set_numbers r)
  end.

(** [l.sort()] with no comparator: the elements are compared by their
    text, code unit by code unit; the sort is stable. *)
Definition text_le (a b : Z) : bool :=
  String.leb (TimerView.toString a) (TimerView.toString b).

Fixpoint insert_text (x : Z) (l : list Z) : list Z :=
  match l with
  | [] => [x]
  | y :: r => if text_le x y then x :: y :: r else y :: insert_text x r
  end.

Definition sort_default (l : list Z) : list Z := foldr insert_text [] l.

(** The [{ ...h, repeatDays: v }] of [setDay]. *)
Definition with_repeatDays (h : habit) (v : list Z) : habit :=
  mkHabit (id h) (name h) (color h) (icon h) v (createdAt h) (order h)
          (archived h).

Definition setDay (dow : Z) (on : bool) (h : habit) : habit :=
  with_repeatDays h
    (if on then sort_default (new_Set_numbers (repeatDays h ++ [dow]))
     else filter (λ x, x ≠ dow) (repeatDays h)).

(** What the dialog's controls do to the draft: the name, emoji and
    colour inputs, the button of weekday [i]
    ([setDay(i, !draft.repeatDays.includes(i))]) and the archive button. *)
Inductive edit :=
| SetName (v : string)
| SetIcon (v : string)
| SetColor (v : string)
| ClickDay (i : Z)
| ClickArchive.

Definition apply_edit (draft : habit) (e : edit) : habit :=
  match e with
  | SetName v =>
      mkHabit (id draft) v (color draft) (icon draft) (repeatDays draft)
              (createdAt draft) (order draft) (archived draft)
  | SetIcon v =>
      mkHabit (id draft) (name draft) (color draft) v (repeatDays draft)
              (createdAt draft) (order draft) (archived draft)
  | SetColor v =>
      mkHabit (id draft) (name draft) v (icon draft) (repeatDays draft)
              (createdAt draft) (order draft) (archived draft)
  | ClickDay i =>
      setDay i (negb (bool_decide (i ∈ repeatDays draft))) draft
  | ClickArchive =>
      mkHabit (id draft) (name draft) (color draft) (icon draft)
              (repeatDays draft) (createdAt draft) (order draft)
              (negb (archived draft))
  end.

(** The dialog opened on [initial], the controls used in turn, then Save. *)
Definition editDialog (initial : habit) (edits : list edit) (prev : store)
  : store :=
  editDialogSave (foldl apply_edit initial edits) prev.

(** The Archive button of a row of the list view,
    [saveHabit({ ...h, archived: !h.archived })]. *)
Definition onArchive (h : habit) (prev : store) : store :=
  saveHabit (apply_edit h ClickArchive) prev.

(** [startCreate]: the draft the dialog opens on; [uid], [picked] and
    [today] are the results of [uid()], [pickColor()] and [isoDate()]. *)
Definition startCreate (uid picked today : string) (s : store) : habit :=
  mkHabit uid "" picked "✅" [0; 1; 2; 3; 4; 5; 6] today
          (Z.of_nat (length (habits s))) false.

(** [confirmed] is the answer given to the [confirm] dialog. *)
Definition clearToday (confirmed : bool) (date : string) (prev : store)
  : store :=
  if confirmed
  then mkStore (habits prev) (<[date := []]> (completions prev))
  else prev.

(** [l.join(sep)]. *)
Fixpoint join (sep : string) (l : list string) : string :=
  match l with
  | [] => ""
  | [x] => x
  | x :: r => x +:+ sep +:+ join sep r
  end.

Definition names : list string :=
  ["Sun"; "Mon"; "Tue"; "Wed"; "Thu"; "Fri"; "Sat"].

(** [names[d]] as [join] prints it: [undefined] is the empty text. *)
Definition name_of (d : Z) : string :=
  if d <? 0 then "" else default "" (names !! Z.to_nat d).

(** [repeatLabel]; two arrays of integers have the same JSON text exactly
    when they are equal. *)
Definition repeatLabel (days : list Z) : string :=
  if (length days =? 7)%nat then "Daily"
  else if bool_decide (days = [1; 2; 3; 4; 5]) then "Weekdays"
  else if bool_decide (days = [0; 6]) then "Weekends"
  else join ", " (name_of <$> days).

(** The three values of [filter]. *)
Inductive shown := all | active | archived_only.

(** [s.includes(q)]. *)
Fixpoint includes (s q : string) : bool :=
  String.prefix q s ||
  match s with
  | EmptyString => false
  | String _ r => includes r q
  end.

(** [filter === "all" ? true : filter === "active" ? !h.archived
    : !!h.archived]. *)
Definition passes (filter_ : shown) (h : habit) : bool :=
  match filter_ with
  | all => true
  | active => negb (archived h)
  | archived_only => archived h
  end.

Section Memo.
(** [String.prototype.toLowerCase], a parameter of what follows. *)
Variable toLowerCase : string → string.

(** The [habits] memo of [HabitApp]. *)
Definition habits_memo (filter_ : shown) (query : string) (s : store)
  : list habit :=
  sort_by_order
    (filter (λ h, includes (toLowerCase (name h)) (toLowerCase query) = true)
       (filter (λ h, passes filter_ h = true) (habits s))).
End Memo.

Definition scheduledToday (tz : Z) (date : string) (hs : list habit)
  : list habit :=
  filter (λ h, isScheduled tz h date && negb (archived h) = true) hs.

Definition completedToday (tz : Z) (s : store) (date : string)
    (hs : list habit) : list habit :=
  filter (λ h, hasCompleted s date (id h) = true) (scheduledToday tz date hs).

End Editing.

(** ** The persisted store ([loadStore], [saveStore]) *)

Module Storage.
Import Habits.
Local Open Scope Z_scope.

(** A habit as [JSON.parse] gives it back: [order] may be missing or
    [null]. *)
Record parsedHabit := mkParsed {
  p_id : string; p_name : string; p_color : string; p_icon : string;
  p_repeatDays : list Z; p_createdAt : string; p_order : option Z;
  p_archived : bool
}.

(** What [localStorage.getItem(STORAGE_KEY)] followed by [JSON.parse] and
    the read of [parsed.habits] can give: no item or the empty text, an
    item on which one of the two throws, or the parsed store. *)
Inductive item :=
| NoItem
| BadItem
| Item (habits : list parsedHabit) (completions : gmap string (list string)).

(** [{ order: i, ...h, order: h.order ?? i }]. *)
Definition backfill (i : nat) (h : parsedHabit) : habit :=
  mkHabit (p_id h) (p_name h) (p_color h) (p_icon h) (p_repeatDays h)
          (p_createdAt h) (default (Z.of_nat i) (p_order h)) (p_archived h).

(** The store of the [catch] branch; [uid k] is the result of the call
    of [uid()] numbered [k], [today] that of [isoDate()]. *)
Definition seeded (uid : nat → string) (today : string) : store :=
  let daily := [0; 1; 2; 3; 4; 5; 6] in
  mkStore
    [ mkHabit (uid 0%nat) "Work" "bg-blue-100 dark:bg-blue-900/40" "💼"
              daily today 0 false;
      mkHabit (uid 1%nat) "Study" "bg-purple-100 dark:bg-purple-900/40" "📚"
              daily today 1 false;
      mkHabit (uid 2%nat) "Art" "bg-pink-100 dark:bg-pink-900/40" "🎨"
              daily today 2 false;
      mkHabit (uid 3%nat) "Exercises" "bg-green-100 dark:bg-green-900/40" "💪"
              daily today 3 false;
      mkHabit (uid 4%nat) "Meditation" "bg-indigo-100 dark:bg-indigo-900/40"
              "🧘" daily today 4 false;
      mkHabit (uid 5%nat) "Journal" "bg-amber-100 dark:bg-amber-900/40" "📝"
              daily today 5 false;
      mkHabit (uid 6%nat) "Read" "bg-orange-100 dark:bg-orange-900/40" "📖"
              daily today 6 false ]
    ∅.

Definition loadStore (uid : nat → string) (today : string) (raw : item)
  : store :=
  match raw with
  | Item hs c => mkStore (imap backfill hs) c
  | NoItem | BadItem => seeded uid today
  end.

(** The object a habit is written as. *)
Definition written (h : habit) : parsedHabit :=
  mkParsed (id h) (name h) (color h) (icon h) (repeatDays h) (createdAt h)
           (Some (order h)) (archived h).

(** [saveStore]: the item a later [loadStore] reads. *)
Definition saveStore (s : store) : item :=
  Item (written <$> habits s) (completions s).

End Storage.

(* ================================================================== *)
(** * Part II: properties                                              *)
(* ================================================================== *)

Section TimerRestore.
Import TimerState.
Local Open Scope Z_scope.

Lemma or_zero_id x : or_zero x = x.
Proof. unfold or_zero. destruct (Z.eqb_spec x 0); congruence. Qed.

Lemma truthy_anchor (a : Z) : a ≠ 0 → truthy (Some a) = true.
Proof. intros H. simpl. by apply negb_true_iff, Z.eqb_neq. Qed.

(** C1, as stated, fails on a record whose anchor is the number [0]:
    the guard [timerState.isRunning && timerState.startTime] tests the
    anchor for truthiness, so this running record with an anchor is
    restored to 100 where the stated rule gives 130. *)
Lemma restore_zero_anchor_counterexample :
  restoreTime 30000 (Parsed (mk 100 true (Some 0))) = 100 ∧
  restoreTime 30000 (Parsed (mk 100 true (Some 0)))
    ≠ spec_restore 30000 (mk 100 true (Some 0)).
Proof. split; [reflexivity | vm_compute; discriminate]. Qed.

(** The three ways through the initialiser. *)
Lemma restoreTime_running (now anchor : Z) (s : t) :
  isRunning s = true → startTime s = Some anchor → anchor ≠ 0 →
  restoreTime now (Parsed s) = time s + (now - anchor) / 1000.
Proof.
  intros Hrun Hst Hnz. unfold restoreTime.
  by rewrite Hrun, Hst, (truthy_anchor _ Hnz).
Qed.

Lemma restoreTime_not_running (now : Z) (s : t) :
  isRunning s = false → restoreTime now (Parsed s) = time s.
Proof. intros Hrun. unfold restoreTime. rewrite Hrun. apply or_zero_id. Qed.

Lemma restoreTime_falsy_anchor (now : Z) (s : t) :
  truthy (startTime s) = false → restoreTime now (Parsed s) = time s.
Proof.
  intros Hst. unfold restoreTime.
  rewrite Hst, andb_false_r. apply or_zero_id.
Qed.

(** C1 (amended): for every persisted record whose anchor is not the
    number 0, the restored seconds are the persisted seconds plus the
    whole seconds elapsed since the anchor exactly when the record is
    running and has an anchor, and the persisted seconds unmodified
    otherwise. *)
Theorem timer_restore_rule (now : Z) (s : t) :
  startTime s ≠ Some 0 →
  restoreTime now (Parsed s) = spec_restore now s.
Proof.
  intros Hanchor. unfold spec_restore.
  destruct (isRunning s) eqn:Hrun.
  - destruct (startTime s) as [anchor|] eqn:Hst.
    + apply restoreTime_running; congruence.
    + apply restoreTime_falsy_anchor. by rewrite Hst.
  - by apply restoreTime_not_running.
Qed.

(** The specification's example: 100 s persisted while running, restored
    30 s after the anchor, shows 130. *)
Lemma timer_restore_rule_witness :
  startTime (mk 100 true (Some 1700000000000)) ≠ Some 0 ∧
  restoreTime (1700000000000 + 30000)
              (Parsed (mk 100 true (Some 1700000000000))) = 130.
Proof.
  split; [discriminate|].
  exact (eq_trans
           (timer_restore_rule (1700000000000 + 30000)
              (mk 100 true (Some 1700000000000)) ltac:(discriminate))
           eq_refl).
Defined.

(** The example holds for every anchor [T] other than 0. *)
Lemma restore_example_130 (T : Z) :
  T ≠ 0 → restoreTime (T + 30000) (Parsed (mk 100 true (Some T))) = 130.
Proof.
  intros HT. rewrite (restoreTime_running _ T) by done. simpl.
  replace (T + 30000 - T) with (30 * 1000) by lia.
  by rewrite Z.div_mul.
Qed.

(** Every record the component itself writes, at any clock reading other
    than 0, is restored as the rule states. *)
Lemma restore_after_save (wrote now tm : Z) (running : bool) :
  wrote ≠ 0 →
  restoreTime now (Parsed (saveTimerState wrote tm running))
  = spec_restore now (saveTimerState wrote tm running).
Proof.
  intros Hw. destruct running.
  - by rewrite (restoreTime_running now wrote).
  - by rewrite restoreTime_not_running.
Qed.

(** With nothing stored, or an item that does not parse, the timer
    starts from 0. *)
Lemma restore_nothing now :
  restoreTime now Absent = 0 ∧ restoreTime now Garbled = 0.
Proof. done. Qed.

(** C2, as stated, fails: restoring 30 s before the anchor takes the
    counter from 100 down to 70; nothing clamps the negative delta. *)
Lemma restore_backward_counterexample :
  restoreTime 30000 (Parsed (mk 100 true (Some 60000))) = 70 ∧
  restoreTime 30000 (Parsed (mk 100 true (Some 60000)))
    ≠ spec_restore_clamped 30000 (mk 100 true (Some 60000)).
Proof. split; [reflexivity | vm_compute; discriminate]. Qed.

(** C2 (amended): for a running record with a (non-zero) anchor, a
    restore instant earlier than the anchor adds the negative
    whole-second delta [floor ((now - anchor) / 1000)] to the persisted
    seconds, so the restored value is strictly smaller than the persisted
    one. *)
Theorem restore_backward_clock (now anchor : Z) (s : t) :
  isRunning s = true → startTime s = Some anchor → anchor ≠ 0 →
  now < anchor →
  restoreTime now (Parsed s) = time s + (now - anchor) / 1000 ∧
  restoreTime now (Parsed s) < time s.
Proof.
  intros Hrun Hst Hnz Hlt.
  assert (Hr : restoreTime now (Parsed s) = time s + (now - anchor) / 1000).
  { by apply restoreTime_running. }
  split; [exact Hr|]. rewrite Hr.
  assert ((now - anchor) / 1000 < 0) by (apply Z.div_lt_upper_bound; lia).
  lia.
Qed.

Lemma restore_backward_clock_witness :
  restoreTime 59500 (Parsed (mk 100 true (Some 60000))) = 100 + (59500 - 60000) / 1000 ∧
  restoreTime 59500 (Parsed (mk 100 true (Some 60000))) < 100.
Proof.
  exact (restore_backward_clock 59500 60000 (mk 100 true (Some 60000))
           eq_refl eq_refl ltac:(discriminate) eq_refl).
Defined.

End TimerRestore.

Section TimerHistory.
Import Timer.
Local Open Scope Z_scope.

Lemma step_history_cap (st : state) (a : action) :
  (length (timerHistory st) ≤ 10)%nat →
  (length (timerHistory (step st a)) ≤ 10)%nat.
Proof.
  intros Hlen. destruct a; simpl; try done.
  - unfold tick. by destruct (isRunning st).
  - unfold saveTimer. destruct (0 <? time st); [|done].
    simpl. rewrite length_take. lia.
  - etrans; [apply length_filter|done].
  - by rewrite length_fmap.
Qed.

Lemma run_history_cap (acts : list action) (st : state) :
  (length (timerHistory st) ≤ 10)%nat →
  (length (timerHistory (run st acts)) ≤ 10)%nat.
Proof.
  revert st. induction acts as [|a acts IH]; intros st Hlen; [done|].
  simpl. apply IH. by apply step_history_cap.
Qed.

Lemma saveTimer_history (f : fresh) (st : state) :
  0 < time st →
  timerHistory (saveTimer f st) = take 10 (newEntry f st :: timerHistory st).
Proof.
  intros Hpos. unfold saveTimer.
  by destruct (Z.ltb_spec 0 (time st)); [|lia].
Qed.

(** C8: starting from a history of at most 10 entries (the empty one of
    a first mount included), the history never exceeds 10 entries after
    any sequence of timer events; a save with a positive time puts
    exactly one new entry in front and keeps the first 10; against a
    full history it drops the oldest (last) entry and no other. *)
Theorem timer_history_cap (st : state) :
  (length (timerHistory st) ≤ 10)%nat →
  (∀ acts, (length (timerHistory (run st acts)) ≤ 10)%nat) ∧
  (∀ f, 0 < time st →
        timerHistory (saveTimer f st)
          = take 10 (newEntry f st :: timerHistory st) ∧
        head (timerHistory (saveTimer f st)) = Some (newEntry f st)) ∧
  (∀ f older oldest, 0 < time st →
        timerHistory st = older ++ [oldest] → length older = 9%nat →
        timerHistory (saveTimer f st) = newEntry f st :: older).
Proof.
  intros Hlen. split; [|split].
  - intros acts. by apply run_history_cap.
  - intros f Hpos. by rewrite saveTimer_history.
  - intros f older oldest Hpos Hh Hl.
    rewrite saveTimer_history by done. rewrite Hh. simpl. f_equal.
    by rewrite take_app_length'.
Qed.

Lemma timer_history_cap_witness :
  (length (timerHistory fullHistory) ≤ 10)%nat ∧
  timerHistory (saveTimer (mkFresh "n" "ts" "2024-01-06") fullHistory)
    = mkEntry "n" 25 "ts" "2024-01-06" ""
      :: (sampleEntry <$> [10; 9; 8; 7; 6; 5; 4; 3; 2]).
Proof.
  split; [vm_compute; lia|].
  exact (proj2 (proj2 (timer_history_cap fullHistory
                         ltac:(vm_compute; lia)))
           (mkFresh "n" "ts" "2024-01-06")
           (sampleEntry <$> [10; 9; 8; 7; 6; 5; 4; 3; 2]) (sampleEntry 1)
           eq_refl eq_refl eq_refl).
Defined.

(** From a first mount the cap holds with no assumption at all. *)
Lemma history_cap_from_initial (acts : list action) :
  (length (timerHistory (run initial acts)) ≤ 10)%nat.
Proof. apply run_history_cap. simpl. lia. Qed.

End TimerHistory.

Section Completions.
Import Habits.

Lemma elem_of_new_Set (x : string) (l : list string) : x ∈ new_Set l ↔ x ∈ l.
Proof.
  induction l as [|y l IH]; simpl; [done|].
  rewrite !elem_of_cons, list_elem_of_filter, IH.
  destruct (decide (x = y)); naive_solver.
Qed.

Lemma entry_toggle (h : habit) (d : string) (s : store) (x : string) :
  x ∈ entry (toggle h d s) d ↔
  (x ∈ entry s d ∧ x ≠ id h) ∨ (x = id h ∧ id h ∉ entry s d).
Proof.
  unfold toggle, entry at 1; simpl. rewrite lookup_insert_eq; simpl.
  case_bool_decide as Hin; rewrite elem_of_new_Set in Hin.
  - rewrite list_elem_of_filter, elem_of_new_Set. naive_solver.
  - rewrite elem_of_app, elem_of_new_Set, list_elem_of_singleton.
    destruct (decide (x = id h)); naive_solver.
Qed.

Lemma toggle_other_date (h : habit) (d d' : string) (s : store) :
  d' ≠ d → completions (toggle h d s) !! d' = completions s !! d'.
Proof. intros Hne. unfold toggle; simpl. by rewrite lookup_insert_ne. Qed.

(** C7: toggling the same habit on the same date twice gives back the
    ledger entry of that date as a set (an absent entry reads as the empty
    one), leaves every other date's entry as it was, and neither toggle
    changes the habit records. *)
Theorem toggle_twice (h : habit) (d : string) (s : store) :
  (∀ x, x ∈ entry (toggle h d (toggle h d s)) d ↔ x ∈ entry s d) ∧
  (∀ d', d' ≠ d →
         completions (toggle h d (toggle h d s)) !! d' = completions s !! d') ∧
  habits (toggle h d s) = habits s ∧
  habits (toggle h d (toggle h d s)) = habits s.
Proof.
  split; [|split; [|done]].
  - intros x. rewrite !entry_toggle.
    destruct (decide (x = id h)) as [->|Hne]; [|naive_solver].
    destruct (decide (id h ∈ entry s d)); naive_solver.
  - intros d' Hne. by rewrite !toggle_other_date.
Qed.

(** One toggle flips the membership that [hasCompleted] reads. *)
Lemma toggle_flips (h : habit) (d : string) (s : store) :
  hasCompleted (toggle h d s) d (id h) = negb (hasCompleted s d (id h)).
Proof.
  assert (Hent : ∀ s', hasCompleted s' d (id h) = bool_decide (id h ∈ entry s' d)).
  { intros s'. unfold hasCompleted, entry.
    by destruct (completions s' !! d). }
  rewrite !Hent. apply eq_true_iff_eq.
  rewrite negb_true_iff, bool_decide_eq_true, bool_decide_eq_false, entry_toggle.
  naive_solver.
Qed.

End Completions.

Section SaveDelete.
Import Habits.
Local Open Scope Z_scope.

Lemma saveHabit_completions (h : habit) (s : store) :
  completions (saveHabit h s) = completions s.
Proof. done. Qed.

Lemma saveHabit_new (h : habit) (s : store) :
  (∀ x, x ∈ habits s → id x ≠ id h) →
  habits (saveHabit h s) = habits s ++ [h].
Proof.
  intros Hnew. unfold saveHabit; simpl.
  destruct (list_find _ _) as [[i x]|] eqn:Hf; [|done].
  apply list_find_Some in Hf as (Hi & Hx & _).
  exfalso. eapply Hnew; [|exact Hx]. by eapply list_elem_of_lookup_2.
Qed.

Lemma saveHabit_existing (h : habit) (s : store) :
  (∃ x, x ∈ habits s ∧ id x = id h) →
  habits (saveHabit h s)
    = (λ x, if decide (id x = id h) then h else x) <$> habits s.
Proof.
  intros (x & Hin & Hx). unfold saveHabit; simpl.
  destruct (list_find _ _) as [[i y]|] eqn:Hf; [done|].
  apply list_find_None in Hf. rewrite Forall_forall in Hf.
  by destruct (Hf x Hin).
Qed.

Lemma trimStart_blank (l : list ascii) :
  all_white_space l = true → trimStart_list false l = [].
Proof.
  remember (length l) as n eqn:Hn. revert l Hn.
  induction n as [n IH] using lt_wf_ind. intros l Hn Hl.
  destruct l as [|a r]; [done|]. cbn [all_white_space trimStart_list] in *.
  destruct (white_space1 a).
  { apply (IH (length r)); [cbn in Hn; lia|done..]. }
  destruct r as [|b r2]; [done|].
  destruct (white_space2 a b).
  { apply (IH (length r2)); [cbn in Hn; lia|done..]. }
  destruct r2 as [|c r3]; [done|].
  apply andb_true_iff in Hl as [-> Hl].
  apply (IH (length r3)); [cbn in Hn; lia|done..].
Qed.

Lemma trim_blank (n : string) : blank n = true → trim n = "".
Proof.
  unfold blank, trim. intros H. by rewrite (trimStart_blank _ H).
Qed.

(** [trim] on white space of more than one byte, at both ends of a
    text and alone. *)
Lemma trim_unicode_spaces :
  trim (nbsp +:+ " Walk the dog" +:+ ideographic_space +:+ nbsp)
  = "Walk the dog" ∧
  trim (nbsp +:+ ideographic_space) = "" ∧
  blank (nbsp +:+ " " +:+ ideographic_space) = true ∧
  blank (nbsp +:+ "a") = false.
Proof. repeat split; by vm_compute. Qed.

(** C5, as stated, fails: [saveHabit] on a habit with the empty name
    appends the record to the (here empty) store. *)
Lemma saveHabit_blank_counterexample :
  blank (name blankHabit) = true ∧
  habits (saveHabit blankHabit (mkStore [] ∅)) = [blankHabit] ∧
  saveHabit blankHabit (mkStore [] ∅) ≠ mkStore [] ∅.
Proof. split; [done|]. split; [done|]. discriminate. Qed.

(** C5 (amended): a name that is empty or all white space is refused where
    a name is typed, not in [saveHabit]: the edit dialog's Save button and
    the table's quick add leave the store unchanged on such a name, while
    [saveHabit] itself applies no check: it replaces the record of the same
    id in place, or appends the habit when the id is new, and in both
    cases leaves the ledger as it was. *)
Theorem blank_name_refused_by_callers (h : habit) (s : store) :
  blank (name h) = true →
  editDialogSave h s = s ∧
  (∀ uid picked currentDate shown,
     handleAddHabit uid picked currentDate shown (name h) s = s) ∧
  completions (saveHabit h s) = completions s ∧
  ((∀ x, x ∈ habits s → id x ≠ id h) →
     habits (saveHabit h s) = habits s ++ [h]) ∧
  ((∃ x, x ∈ habits s ∧ id x = id h) →
     habits (saveHabit h s)
       = (λ x, if decide (id x = id h) then h else x) <$> habits s).
Proof.
  intros Hb. repeat split.
  - unfold editDialogSave. rewrite (trim_blank _ Hb). simpl.
    by rewrite orb_true_r.
  - intros. unfold handleAddHabit. by rewrite (trim_blank _ Hb).
  - apply saveHabit_new.
  - apply saveHabit_existing.
Qed.

Lemma blank_name_refused_by_callers_witness :
  blank (name (mkHabit "h2" (nbsp +:+ " " +:+ ideographic_space) "c" "ok" []
                       "2024-01-05" 0 false)) = true ∧
  editDialogSave (mkHabit "h2" (nbsp +:+ " " +:+ ideographic_space) "c" "ok"
                          [] "2024-01-05" 0 false)
                 (mkStore [blankHabit] ∅)
    = mkStore [blankHabit] ∅.
Proof.
  split; [reflexivity|].
  exact (proj1 (blank_name_refused_by_callers
                  (mkHabit "h2" (nbsp +:+ " " +:+ ideographic_space) "c" "ok"
                           [] "2024-01-05" 0 false)
                  (mkStore [blankHabit] ∅) eq_refl)).
Defined.

(** C9: a confirmed [deleteHabit] keeps exactly the records whose id
    differs, in their order; with unique ids that is the removal of the
    one record of that id; it changes nothing when no record has the id;
    and the ledger is the same map afterwards, whatever it holds. *)
Theorem deleteHabit_frame (i : string) (s : store) :
  completions (deleteHabit true i s) = completions s ∧
  habits (deleteHabit true i s) = filter (λ h, id h ≠ i) (habits s) ∧
  (∀ h, h ∈ habits (deleteHabit true i s) ↔ h ∈ habits s ∧ id h ≠ i) ∧
  (∀ l1 h l2, habits s = l1 ++ h :: l2 → id h = i →
              (∀ x, x ∈ l1 ++ l2 → id x ≠ i) →
              habits (deleteHabit true i s) = l1 ++ l2) ∧
  ((∀ h, h ∈ habits s → id h ≠ i) →
     habits (deleteHabit true i s) = habits s) ∧
  deleteHabit false i s = s.
Proof.
  assert (Hid : ∀ l : list habit, (∀ x, x ∈ l → id x ≠ i) →
                  filter (λ h, id h ≠ i) l = l).
  { induction l as [|x l IH]; intros Hl; [done|].
    rewrite filter_cons_True by (apply Hl; left).
    f_equal. apply IH. intros y Hy. apply Hl. by right. }
  split; [done|]. split; [done|]. split; [|split; [|split; [|done]]]; simpl.
  - intros h. rewrite list_elem_of_filter. tauto.
  - intros l1 h l2 -> Hh Hrest.
    rewrite filter_app, filter_cons_False by (intros ?; congruence).
    rewrite <- filter_app. by apply Hid.
  - apply Hid.
Qed.

End SaveDelete.

Section Reorder.
Import Habits.
Local Open Scope Z_scope.

Lemma insert_sorted_perm (h : habit) (l : list habit) :
  insert_sorted h l ≡ₚ h :: l.
Proof.
  induction l as [|x l IH]; simpl; [done|].
  destruct (order h <=? order x); [done|].
  rewrite IH. apply Permutation_swap.
Qed.

Lemma sort_by_order_perm (l : list habit) : sort_by_order l ≡ₚ l.
Proof.
  induction l as [|x l IH]; simpl; [done|].
  by rewrite insert_sorted_perm, IH.
Qed.

Lemma splice_start_le (len : nat) (start : Z) :
  (splice_start len start ≤ len)%nat.
Proof. unfold splice_start. destruct (Z.ltb_spec start 0); lia. Qed.

Lemma splice_start_lt (len : nat) (start : Z) :
  (0 < len)%nat → start < Z.of_nat len →
  (splice_start len start < len)%nat.
Proof. intros. unfold splice_start. destruct (Z.ltb_spec start 0); lia. Qed.

Lemma splice_in_perm {A} (to : Z) (x : A) (l : list A) :
  splice_in to x l ≡ₚ x :: l.
Proof.
  unfold splice_in. rewrite <- Permutation_middle.
  by rewrite take_drop.
Qed.

Lemma splice_in_fmap {A B} (f : A → B) (to : Z) (x : A) (l : list A) :
  splice_in to (f x) (f <$> l) = f <$> splice_in to x l.
Proof.
  unfold splice_in. rewrite length_fmap.
  by rewrite fmap_app, fmap_cons, fmap_take, fmap_drop.
Qed.

Lemma order_imap_from (k : nat) (l : list habit) :
  order <$> imap (λ i h, with_order h (Z.of_nat (k + i))) l
  = Z.of_nat <$> seq k (length l).
Proof.
  revert k. induction l as [|x l IH]; intros k; [done|].
  rewrite imap_cons, fmap_cons. cbn [length seq]. rewrite fmap_cons.
  f_equal; [simpl; f_equal; lia|].
  rewrite <- (IH (S k)). f_equal. apply imap_ext.
  intros i y _. simpl. do 2 f_equal. lia.
Qed.

Lemma erase_order_imap (f : nat → Z) (l : list habit) :
  (λ h, with_order h 0) <$> imap (λ i h, with_order h (f i)) l
  = (λ h, with_order h 0) <$> l.
Proof.
  revert f. induction l as [|x l IH]; intros f; [done|].
  rewrite imap_cons. simpl. f_equal. apply (IH (f ∘ S)).
Qed.

(** The shape of a [reorder] whose [from] names a position of the array:
    the element there is taken out of the sorted array, put back at the
    clamped [to], and every element gets its position as order. *)
Lemma habits_only_fmap (hs : list habit) :
  habits_only (Habit <$> hs) = Some hs.
Proof.
  induction hs as [|h hs IH]; [done|].
  rewrite fmap_cons. cbn [habits_only]. by rewrite IH.
Qed.

Lemma reorder_moves_one (s : store) (from to : Z) (m : habit) :
  sort_by_order (habits s) !! splice_start (length (habits s)) from = Some m →
  habits (reorder from to s)
  = Habit <$> imap (λ i h, with_order h (Z.of_nat i))
        (splice_in to m
           (delete (splice_start (length (habits s)) from)
                   (sort_by_order (habits s)))).
Proof.
  intros Hm. unfold reorder, splice_out.
  rewrite (Permutation_length (sort_by_order_perm (habits s))), Hm. simpl.
  rewrite splice_in_fmap, imap_fmap, fmap_imap. by apply imap_ext.
Qed.

(** C3, as stated, fails for a [from] past the end: on a one-habit store
    with dense orders, [reorder(1, 0)] splices nothing out, inserts the
    resulting [undefined], and the map turns it into an object holding
    only [order]: two objects where there was one record. *)
Lemma reorder_out_of_range_counterexample :
  dense (mkStore [oneHabit] ∅) ∧
  habits (reorder 1 0 (mkStore [oneHabit] ∅))
    = [OrderOnly 0; Habit (with_order oneHabit 1)] ∧
  ¬ reorder_keeps_records (mkStore [oneHabit] ∅) 1 0.
Proof.
  split; [unfold dense; simpl; reflexivity|]. split; [done|].
  intros (hs' & Hhs & _). vm_compute in Hhs.
  destruct hs'; discriminate.
Qed.

(** C3 (amended): for every non-empty store of N habits, every
    [reorder (from, to)] whose [from] is below N ([to] may be any integer:
    [splice] clamps it, and counts a negative index from the end) gives a
    store with the same N habit records, orders 0, ..., N-1 in sequence
    and the same ledger; and so does any sequence of such calls. *)
Theorem reorder_in_range (s : store) :
  (0 < length (habits s))%nat →
  (∀ from to, from < Z.of_nat (length (habits s)) →
              reorder_keeps_records s from to) ∧
  (∀ calls, Forall (λ c, c.1 < Z.of_nat (length (habits s))) calls →
     ∃ s', reorder_seq calls s = Some s' ∧
           length (habits s') = length (habits s) ∧
           (calls ≠ [] →
            order <$> habits s' = dense_orders (length (habits s))) ∧
           (λ h, with_order h 0) <$> habits s'
             ≡ₚ (λ h, with_order h 0) <$> habits s ∧
           completions s' = completions s).
Proof.
  assert (Hone : ∀ (s0 : store) from to,
             (0 < length (habits s0))%nat →
             from < Z.of_nat (length (habits s0)) →
             reorder_keeps_records s0 from to).
  { intros s0 from to Hpos Hfrom.
    pose proof (sort_by_order_perm (habits s0)) as Hsort.
    pose proof (Permutation_length Hsort) as Hlen.
    pose proof (splice_start_lt _ _ Hpos Hfrom) as Ha.
    destruct (lookup_lt_is_Some_2 (sort_by_order (habits s0))
                (splice_start (length (habits s0)) from)) as [m Hm]; [lia|].
    pose proof (delete_Permutation _ _ _ Hm) as Hdel.
    eexists. split; [by apply reorder_moves_one|].
    split; [|split; [|done]].
    - rewrite (order_imap_from 0). unfold dense_orders. do 2 f_equal.
      rewrite (Permutation_length (splice_in_perm _ _ _)).
      rewrite <- (Permutation_length Hdel). done.
    - rewrite (erase_order_imap Z.of_nat).
      by rewrite splice_in_perm, <- Hdel, Hsort. }
  intros Hpos. split; [intros; by apply Hone|].
  intros calls. revert s Hpos.
  induction calls as [|[from to] rest IH]; intros s Hpos Hcalls.
  { exists s. by repeat split. }
  apply Forall_cons in Hcalls as [Hfrom Hrest]. simpl in Hfrom.
  destruct (Hone s from to Hpos Hfrom) as (hs' & Hhs & Hord & Hperm & Hcomp).
  assert (Hl : length hs' = length (habits s)).
  { apply (f_equal length) in Hord. unfold dense_orders in Hord.
    by rewrite !length_fmap, length_seq in Hord. }
  destruct (IH (mkStore hs' (completions s)))
    as (s' & Hseq & Hlen' & Hord' & Hperm' & Hcomp');
    cbn [habits completions] in *.
  { lia. }
  { by rewrite Hl. }
  exists s'. split; [|split; [|split; [|split]]].
  - cbn [reorder_seq]. unfold reorder_store.
    rewrite Hhs, habits_only_fmap, Hcomp. exact Hseq.
  - lia.
  - intros _. destruct rest as [|c rest].
    + cbn [reorder_seq] in Hseq. injection Hseq as <-. exact Hord.
    + rewrite Hord' by done. by rewrite Hl.
  - by rewrite Hperm'.
  - done.
Qed.

Lemma reorder_in_range_witness :
  (0 < length (habits (mkStore [oneHabit; with_order oneHabit 1] ∅)))%nat ∧
  reorder_keeps_records (mkStore [oneHabit; with_order oneHabit 1] ∅) 0 99.
Proof.
  split; [simpl; lia|].
  exact (proj1 (reorder_in_range (mkStore [oneHabit; with_order oneHabit 1] ∅)
                  ltac:(simpl; lia)) 0 99 eq_refl).
Defined.

End Reorder.

Section MonthRange.
Import JS Habits Calendar.
Local Open Scope Z_scope.

Lemma monthRange_loop_bounded (endIso : result string)
    (next : string → result string) (fuel : nat) (d : string)
    (days : list string) :
  (length days ≤ 40)%nat → (41 ≤ fuel + length days)%nat →
  match monthRange_loop endIso next fuel d days with
  | Some (Ret r) => (length days < length r ≤ 41)%nat
  | Some (Raise _) => True
  | None => False
  end.
Proof.
  revert d days. induction fuel as [|fuel IH]; intros d days Hlen Hfuel.
  { lia. }
  simpl. destruct endIso as [e|x]; [|done].
  destruct (String.eqb d e).
  { rewrite length_app. simpl. lia. }
  destruct (next d) as [d'|x]; [|done].
  destruct (Nat.ltb_spec 40 (length (days ++ [d]))) as [Hcap|Hcap];
    rewrite length_app in Hcap; simpl in Hcap.
  { rewrite length_app. simpl. lia. }
  specialize (IH d' (days ++ [d])).
  rewrite length_app in IH. simpl in IH.
  destruct (monthRange_loop _ _ _ _ _) as [[r|x]|]; [|done|]; 
    (specialize (IH ltac:(lia) ltac:(lia))); [lia|done].
Qed.

Lemma monthRange_loop_ends (endIso : result string)
    (next : string → result string) (fuel : nat) (d : string) :
  (41 ≤ fuel)%nat →
  ends_within_cap (monthRange_loop endIso next fuel d []).
Proof.
  intros Hfuel.
  pose proof (monthRange_loop_bounded endIso next fuel d [] ltac:(simpl; lia)
                ltac:(simpl; lia)) as H.
  destruct (monthRange_loop _ _ _ _ _) as [[r|[]]|]; [|by left|done].
  right. exists r. simpl in H. split; [done|lia].
Qed.

Lemma monthRange_ends (tz : Z) (fuel : nat) (dateStr : string) :
  (41 ≤ fuel)%nat → ends_within_cap (monthRange tz fuel dateStr).
Proof.
  intros Hfuel. unfold monthRange.
  destruct (isoDate _ _) as [d|[]]; [|by left].
  by apply monthRange_loop_ends.
Qed.

(** Once the end of the month is an Invalid Date, the first pass through
    the loop raises, whatever the first day and the stepping function. *)
Lemma monthRange_loop_invalid_end (next : string → result string)
    (fuel : nat) (d : string) :
  monthRange_loop (Raise RangeError) next (S fuel) d []
  = Some (Raise RangeError).
Proof. reflexivity. Qed.

(** With no month in the text, [Date.UTC(y, undefined, 0)] is [NaN]. *)
Lemma month_end_without_month (tz : Z) (y : number) :
  isoDate tz (Date_UTC y (to_Number None) (Some 0)) = Raise RangeError.
Proof. by destruct y. Qed.

(** C10, as stated, fails on the empty string (what a cleared date input
    hands to [setDate]): the month's end is an Invalid Date and formatting
    it raises [RangeError], so no array is returned. *)
Lemma monthRange_empty_counterexample :
  monthRange 60 41 "" = Some (Raise RangeError) ∧
  ¬ returns_at_most_41 (monthRange 60 41 "").
Proof.
  split; [by vm_compute|].
  intros (days & H & _). vm_compute in H. discriminate.
Qed.

(** C10 (amended): for every zone and every input string, 41 iterations
    are enough for [monthRange] to end: it either raises the formatter's
    [RangeError] or returns between 1 and 41 entries.  The bound is that of
    the loop itself, whatever the end-of-month text and whatever the
    day-stepping function does, so it does not rest on [addDays]. *)
Theorem monthRange_terminates (tz : Z) (fuel : nat) (dateStr : string) :
  (41 ≤ fuel)%nat →
  ends_within_cap (monthRange tz fuel dateStr) ∧
  (∀ endIso next d, ends_within_cap (monthRange_loop endIso next fuel d [])).
Proof.
  intros Hfuel. split; [by apply monthRange_ends|].
  intros. by apply monthRange_loop_ends.
Qed.

Lemma monthRange_terminates_witness :
  (41 ≤ 41)%nat ∧ ends_within_cap (monthRange 60 41 "2024-02-10").
Proof.
  split; [lia|].
  exact (proj1 (monthRange_terminates 60 41 "2024-02-10" ltac:(lia))).
Defined.

(** In a zone east of UTC the loop reaches the end of the month:
    February 2024 has its 29 days. *)
Lemma monthRange_february_2024 :
  monthRange 60 41 "2024-02-10"
  = Some (Ret ((λ d, "2024-02-" +:+ padStart2 (decimal d)) <$> seqZ 1 29)).
Proof. by vm_compute. Qed.

(** In a zone west of UTC [addDays(d, 1)] gives [d] back, the end is never
    reached, and the cap ends the loop with 41 copies of the first day. *)
Lemma monthRange_west_hits_cap :
  addDays (-300) "2024-02-01" 1 = Ret "2024-02-01" ∧
  monthRange (-300) 41 "2024-02-10" = Some (Ret (replicate 41 "2024-02-01")).
Proof. split; by vm_compute. Qed.

End MonthRange.

Section CivilDays.
Import JS Calendar.
Local Open Scope Z_scope.

Lemma all_from_spec (fuel : nat) (z : Z) (f : Z → bool) :
  all_from fuel z f = true →
  ∀ x, z ≤ x < z + Z.of_nat fuel → f x = true.
Proof.
  revert z. induction fuel as [|k IH]; intros z H x Hx; [lia|].
  simpl in H. apply andb_prop in H as [Hz Hk].
  destruct (decide (x = z)) as [->|Hne]; [done|].
  apply (IH (z + 1)); [done|lia].
Qed.

Lemma year_text_ok_all : all_from (Z.to_nat 9000) 1000 year_text_ok = true.
Proof. vm_cast_no_check (eq_refl true). Qed.

Lemma two_text_ok_all : all_from (Z.to_nat 31) 1 two_text_ok = true.
Proof. vm_cast_no_check (eq_refl true). Qed.

(** The two conversions agree: a day number gives a month from 1 to 12,
    a day from 1 to 31, and the date gives the day number back. *)
Lemma civil_from_days_spec (n : Z) :
  ∃ y m d, civil_from_days n = (y, m, d) ∧
           1 ≤ m ≤ 12 ∧ 1 ≤ d ≤ 31 ∧ days_from_civil y m d = n.
Proof.
  unfold civil_from_days, days_from_civil.
  set (z := n + 719468). set (era := z / 146097).
  set (doe := z - era * 146097).
  assert (Hdoe : 0 ≤ doe < 146097).
  { pose proof (Z.mod_pos_bound z 146097 ltac:(lia)) as Hm.
    rewrite Z.mod_eq in Hm by lia. subst doe era. lia. }
  set (yoe := (doe - doe / 1460 + doe / 36524 - doe / 146096) / 365).
  set (doy := doe - (365 * yoe + yoe / 4 - yoe / 100)).
  set (mp := (5 * doy + 2) / 153).
  set (d := doy - (153 * mp + 2) / 5 + 1).
  assert (H : 0 ≤ yoe ≤ 399 ∧ 0 ≤ mp ≤ 11 ∧ 1 ≤ d ≤ 31).
  { subst d mp doy yoe. clearbody doe. Z.div_mod_to_equations. lia. }
  destruct H as (Hyoe & Hmpr & Hd).
  clearbody yoe mp era.
  assert (Hera : (yoe + era * 400) / 400 = era).
  { rewrite Z.div_add by lia. rewrite (Z.div_small yoe 400) by lia. lia. }
  eexists _, _, _. split; [reflexivity|].
  destruct (Z.ltb_spec mp 10).
  - assert (Hmp : (mp + 3 + 9) mod 12 = mp).
    { replace (mp + 3 + 9) with (mp + 1 * 12) by lia.
      rewrite Z.mod_add by lia. apply Z.mod_small. lia. }
    rewrite Hmp. destruct (Z.leb_spec (mp + 3) 2); [lia|].
    rewrite Hera. split; [lia|]. split; [lia|]. subst d doy z doe.
    replace (yoe + era * 400 - era * 400) with yoe by lia. lia.
  - assert (Hmp : (mp - 9 + 9) mod 12 = mp).
    { replace (mp - 9 + 9) with mp by lia. apply Z.mod_small. lia. }
    rewrite Hmp. destruct (Z.leb_spec (mp - 9) 2); [|lia].
    replace (yoe + era * 400 + 1 - 1) with (yoe + era * 400) by lia.
    rewrite Hera. split; [lia|]. split; [lia|]. subst d doy z doe.
    replace (yoe + era * 400 - era * 400) with yoe by lia. lia.
Qed.

Lemma days_from_civil_day (y m d : Z) :
  days_from_civil y m d = days_from_civil y m 1 + d - 1.
Proof. unfold days_from_civil. lia. Qed.

(** Days grow with the year: a date of a year up to [y0 - 1] comes before
    the first day of [y0], and a date of a later year after its last. *)
Lemma days_from_civil_year_bounds (y m d : Z) :
  1 ≤ m ≤ 12 → 1 ≤ d ≤ 31 →
  (y ≤ 999 → days_from_civil y m d < first_day) ∧
  (10000 ≤ y → last_day < days_from_civil y m d) ∧
  (1000 ≤ y ≤ 9999 → -400000 ≤ days_from_civil y m d ≤ 3000000).
Proof.
  intros Hm Hd. unfold first_day, last_day.
  change (days_from_civil 1000 1 1) with (-354285).
  change (days_from_civil 9999 12 31) with 2932896.
  unfold days_from_civil.
  destruct (Z.leb_spec m 2); Z.div_mod_to_equations; lia.
Qed.

End CivilDays.

Section IsoText.
Import JS Habits Calendar.
Local Open Scope Z_scope.

Lemma digit_not_dash (c : ascii) :
  is_digit c = true → Ascii.eqb c "-" = false.
Proof. destruct c as [[] [] [] [] [] [] [] []]; by vm_compute. Qed.

(** A digit is no white space and no byte of a longer white space
    character, so nothing is dropped from a text that starts with one. *)
Lemma digit_not_space (a : ascii) :
  is_digit a = true →
  white_space1 a = false ∧
  (∀ b, white_space2 a b = false ∧ white_space2 b a = false) ∧
  (∀ b c, white_space3 a b c = false ∧ white_space3 c b a = false).
Proof.
  unfold is_digit, white_space1, white_space2, white_space3.
  set (n := nat_of_ascii a). intros [H1 H2]%andb_true_iff.
  apply Nat.leb_le in H1. apply Nat.leb_le in H2.
  assert (He : ∀ k, (k < 48 ∨ 57 < k)%nat → (n =? k)%nat = false)
    by (intros k Hk; apply Nat.eqb_neq; lia).
  assert (Hl : ∀ k, (57 < k)%nat → (k <=? n)%nat = false)
    by (intros k Hk; apply Nat.leb_gt; lia).
  assert (Hg : ∀ k, (k < 48)%nat → (n <=? k)%nat = false)
    by (intros k Hk; apply Nat.leb_gt; lia).
  split; [|split].
  - by rewrite (Hg 13%nat), (He 32%nat), andb_false_r by lia.
  - intros b. by rewrite (He 194%nat), (He 160%nat), andb_false_r by lia.
  - intros b c. split.
    + by rewrite (He 225%nat), (He 226%nat), (He 227%nat), (He 239%nat) by lia.
    + rewrite (He 128%nat), (He 168%nat), (He 169%nat), (He 175%nat),
        (He 159%nat), (He 191%nat), (Hl 128%nat) by lia.
      cbn [andb orb]. by rewrite !andb_false_r.
Qed.

Lemma trimStart_digit (backwards : bool) (a : ascii) (r : list ascii) :
  is_digit a = true → trimStart_list backwards (a :: r) = a :: r.
Proof.
  intros Ha. destruct (digit_not_space a Ha) as (H1 & H2 & H3).
  cbn [trimStart_list]. rewrite H1.
  destruct r as [|b r2]; [done|].
  destruct (H2 b) as [-> ->].
  destruct r2 as [|c r3]; [by destruct backwards|].
  destruct (H3 b c) as [-> ->]. by destruct backwards.
Qed.

Lemma trimStart_digits (backwards : bool) (l : list ascii) :
  forallb is_digit l = true → trimStart_list backwards l = l.
Proof.
  destruct l as [|c l]; [done|].
  intros [Hc _]%andb_true_iff. by apply trimStart_digit.
Qed.

Lemma forallb_rev {A} (f : A → bool) (l : list A) :
  forallb f (rev l) = forallb f l.
Proof.
  induction l as [|x l IH]; simpl; [done|].
  rewrite forallb_app, IH. simpl. rewrite andb_true_r. apply andb_comm.
Qed.

(** [Number] reads a run of digits as its value. *)
Lemma Number_digits (l : list ascii) :
  forallb is_digit l = true →
  Number (string_of_list_ascii l) = digits_value 0 l.
Proof.
  intros Hl. unfold Number, trim.
  rewrite !list_ascii_of_string_of_list_ascii.
  rewrite (trimStart_digits false _ Hl).
  rewrite trimStart_digits by (by rewrite forallb_rev).
  by rewrite rev_involutive.
Qed.

Lemma split_go_digits_end (cur l : list ascii) :
  forallb is_digit l = true →
  split_go "-" cur l = [string_of_list_ascii (rev cur ++ l)].
Proof.
  revert cur. induction l as [|c l IH]; intros cur Hl; simpl.
  { by rewrite app_nil_r. }
  apply andb_true_iff in Hl as [Hc Hl].
  rewrite (digit_not_dash _ Hc), IH by done.
  simpl. by rewrite <- app_assoc.
Qed.

Lemma split_go_digits_dash (cur l rest : list ascii) :
  forallb is_digit l = true →
  split_go "-" cur (l ++ "-"%char :: rest)
  = string_of_list_ascii (rev cur ++ l) :: split_go "-" [] rest.
Proof.
  revert cur. induction l as [|c l IH]; intros cur Hl; simpl.
  { by rewrite app_nil_r. }
  apply andb_true_iff in Hl as [Hc Hl].
  rewrite (digit_not_dash _ Hc), IH by done.
  simpl. by rewrite <- app_assoc.
Qed.

Lemma year_text (y : Z) :
  1000 ≤ y ≤ 9999 →
  ∃ a b c e, decimal y = string_of_list_ascii [a; b; c; e] ∧
             forallb is_digit [a; b; c; e] = true ∧
             digits_value 0 [a; b; c; e] = Some y.
Proof.
  intros Hy.
  pose proof (all_from_spec _ _ _ year_text_ok_all y ltac:(lia)) as H.
  unfold year_text_ok in H.
  destruct (list_ascii_of_string (decimal y))
    as [|a [|b [|c [|e [|]]]]] eqn:Hl; try discriminate.
  apply andb_true_iff in H as [Hd Hv]. apply bool_decide_eq_true in Hv.
  exists a, b, c, e. split; [|done].
  by rewrite <- Hl, string_of_list_ascii_of_string.
Qed.

Lemma two_text (v : Z) :
  1 ≤ v ≤ 31 →
  ∃ a b, padStart2 (decimal v) = string_of_list_ascii [a; b] ∧
         forallb is_digit [a; b] = true ∧
         digits_value 0 [a; b] = Some v.
Proof.
  intros Hv.
  pose proof (all_from_spec _ _ _ two_text_ok_all v ltac:(lia)) as H.
  unfold two_text_ok in H.
  destruct (list_ascii_of_string (padStart2 (decimal v)))
    as [|a [|b [|]]] eqn:Hl; try discriminate.
  apply andb_true_iff in H as [Hd Hx]. apply bool_decide_eq_true in Hx.
  exists a, b. split; [|done].
  by rewrite <- Hl, string_of_list_ascii_of_string.
Qed.

(** A day of a four-digit year: its date, and the ten characters of its
    text. *)
Lemma iso_text (n : Z) :
  four_digit_year n →
  ∃ y m d y1 y2 y3 y4 m1 m2 d1 d2,
    civil_from_days n = (y, m, d) ∧
    1000 ≤ y ≤ 9999 ∧ 1 ≤ m ≤ 12 ∧ 1 ≤ d ≤ 31 ∧
    days_from_civil y m d = n ∧
    iso n = string_of_list_ascii
              [y1; y2; y3; y4; "-"; m1; m2; "-"; d1; d2]%char ∧
    forallb is_digit [y1; y2; y3; y4] = true ∧
    forallb is_digit [m1; m2] = true ∧
    forallb is_digit [d1; d2] = true ∧
    digits_value 0 [y1; y2; y3; y4] = Some y ∧
    digits_value 0 [m1; m2] = Some m ∧
    digits_value 0 [d1; d2] = Some d.
Proof.
  intros [Hlo Hhi].
  destruct (civil_from_days_spec n) as (y & m & d & Hc & Hm & Hd & Hn).
  destruct (days_from_civil_year_bounds y m d Hm Hd) as (Hlow & Hhigh & _).
  assert (Hy : 1000 ≤ y ≤ 9999) by lia.
  destruct (year_text y Hy) as (y1 & y2 & y3 & y4 & Hys & Hyd & Hyv).
  destruct (two_text m ltac:(lia)) as (m1 & m2 & Hms & Hmd & Hmv).
  destruct (two_text d Hd) as (d1 & d2 & Hds & Hdd & Hdv).
  exists y, m, d, y1, y2, y3, y4, m1, m2, d1, d2.
  repeat (split; [done|]). split; [|done].
  unfold iso. by rewrite Hc, Hys, Hms, Hds.
Qed.

(** [dateStr.split("-").map(Number)] on such a text gives the date. *)
Lemma split_iso (n : Z) :
  four_digit_year n →
  ∃ y m d, civil_from_days n = (y, m, d) ∧
           Number <$> split "-" (iso n) = [Some y; Some m; Some d].
Proof.
  intros Hn.
  destruct (iso_text n Hn)
    as (y & m & d & y1 & y2 & y3 & y4 & m1 & m2 & d1 & d2 & Hc & _ & _ & _ & _
        & Hiso & Hyd & Hmd & Hdd & Hyv & Hmv & Hdv).
  exists y, m, d. split; [done|].
  rewrite Hiso. unfold split. rewrite list_ascii_of_string_of_list_ascii.
  change [y1; y2; y3; y4; "-"; m1; m2; "-"; d1; d2]%char
    with ([y1; y2; y3; y4] ++ "-"%char :: ([m1; m2] ++ "-"%char :: [d1; d2])).
  rewrite !split_go_digits_dash, split_go_digits_end by done.
  cbn [fmap list_fmap rev app].
  by rewrite !Number_digits, Hyv, Hmv, Hdv.
Qed.

(** Two days of four-digit years with the same text are the same day. *)
Lemma iso_inj (a b : Z) :
  four_digit_year a → four_digit_year b → iso a = iso b → a = b.
Proof.
  intros Ha Hb Heq.
  destruct (split_iso a Ha) as (y & m & d & Hca & Hsa).
  destruct (split_iso b Hb) as (y' & m' & d' & Hcb & Hsb).
  rewrite Heq, Hsb in Hsa. simplify_eq.
  destruct (civil_from_days_spec a) as (? & ? & ? & Ha' & _ & _ & <-).
  destruct (civil_from_days_spec b) as (? & ? & ? & Hb' & _ & _ & <-).
  congruence.
Qed.

End IsoText.

Section AddDaysExact.
Import JS Habits Calendar.
Local Open Scope Z_scope.

(** A day of a four-digit year has a date with that year, and is far from
    the ends of the time values a [Date] can hold. *)
Lemma four_digit_civil (n : Z) :
  four_digit_year n →
  ∃ y m d, civil_from_days n = (y, m, d) ∧
           1000 ≤ y ≤ 9999 ∧ 1 ≤ m ≤ 12 ∧ 1 ≤ d ≤ 31 ∧
           days_from_civil y m d = n ∧ -400000 ≤ n ≤ 3000000.
Proof.
  intros [Hlo Hhi].
  destruct (civil_from_days_spec n) as (y & m & d & Hc & Hm & Hd & Hn).
  destruct (days_from_civil_year_bounds y m d Hm Hd) as (Hlow & Hhigh & Hb).
  exists y, m, d. repeat (split; [done || lia|]). lia.
Qed.

Lemma TimeClip_day (n : Z) :
  -400000 ≤ n ≤ 3000000 → TimeClip (n * msPerDay) = Some (n * msPerDay).
Proof.
  intros Hn. unfold TimeClip, msPerDay.
  destruct (Z.leb_spec (Z.abs (n * 86400000)) 8640000000000000); [done|lia].
Qed.

Lemma MakeDay_civil (y m d x : Z) :
  1 ≤ m ≤ 12 → MakeDay y (m - 1) x = days_from_civil y m d + (x - d).
Proof.
  intros Hm. unfold MakeDay.
  rewrite (Z.div_small (m - 1) 12), (Z.mod_small (m - 1) 12) by lia.
  rewrite (days_from_civil_day y m d).
  replace (y + 0) with y by lia. replace (m - 1 + 1) with m by lia. lia.
Qed.

Lemma Date_UTC_day (n y m d : Z) :
  civil_from_days n = (y, m, d) → four_digit_year n →
  Date_UTC (Some y) (Some (m - 1)) (Some d) = Some (n * msPerDay).
Proof.
  intros Hc Hn.
  destruct (four_digit_civil n Hn)
    as (y' & m' & d' & Hc' & Hy & Hm & Hd & Hdays & Hb).
  rewrite Hc in Hc'. injection Hc' as <- <- <-.
  unfold Date_UTC. cbn [mbind option_bind].
  destruct (Z.leb_spec y 99); [lia|]. rewrite andb_false_r.
  rewrite (MakeDay_civil y m d d) by done.
  replace (days_from_civil y m d + (d - d)) with n by lia.
  by apply TimeClip_day.
Qed.

Lemma getUTCDate_midnight (n y m d : Z) :
  civil_from_days n = (y, m, d) → getUTCDate (Some (n * msPerDay)) = Some d.
Proof.
  intros Hc. unfold getUTCDate. cbn [mbind option_bind].
  unfold msPerDay. by rewrite Z.div_mul, Hc by lia.
Qed.

Lemma setUTCDate_midnight (n y m d x : Z) :
  civil_from_days n = (y, m, d) → four_digit_year (n + (x - d)) →
  setUTCDate (Some (n * msPerDay)) (Some x) = Some ((n + (x - d)) * msPerDay).
Proof.
  intros Hc Hx.
  destruct (civil_from_days_spec n) as (y' & m' & d' & Hc' & Hm & Hd & Hdays).
  rewrite Hc in Hc'. injection Hc' as <- <- <-.
  destruct (four_digit_civil _ Hx) as (? & ? & ? & _ & _ & _ & _ & _ & Hb).
  unfold setUTCDate. cbn [mbind option_bind].
  replace (n * msPerDay / msPerDay) with n
    by (unfold msPerDay; by rewrite Z.div_mul).
  replace ((n * msPerDay) `mod` msPerDay) with 0
    by (unfold msPerDay; by rewrite Z.mod_mul).
  rewrite Hc, (MakeDay_civil y m d x) by done.
  rewrite Z.add_0_r, Hdays. by apply TimeClip_day.
Qed.

(** The local day of a UTC midnight: the same day from UTC eastwards, the
    day before to the west. *)
Lemma local_day_midnight (tz k : Z) :
  local_day tz (k * msPerDay) = k + tz / 1440.
Proof.
  unfold local_day, msPerDay.
  replace (k * 86400000 + tz * 60000) with (tz * 60000 + k * 86400000) by lia.
  rewrite Z.div_add by lia.
  change 86400000 with (1440 * 60000).
  rewrite Z.div_mul_cancel_r by lia. lia.
Qed.

Lemma isoDate_midnight (tz k : Z) :
  four_digit_year (k + tz / 1440) →
  isoDate tz (Some (k * msPerDay)) = Ret (iso (k + tz / 1440)).
Proof.
  intros Hk.
  destruct (four_digit_civil _ Hk) as (y & m & d & Hc & Hy & _).
  unfold isoDate, format, iso. rewrite local_day_midnight, Hc.
  cbn [mbind result_bind].
  by destruct (Z.ltb_spec 0 y); [|lia].
Qed.

(** What [addDays] computes on a date of a four-digit year, in a zone of
    offset [tz] minutes: the day [delta] days later, moved by the whole
    days [tz / 1440] of the offset (0 from UTC eastwards, -1 to the
    west). *)
Lemma addDays_offset (tz n delta : Z) :
  four_digit_year n → four_digit_year (n + delta) →
  four_digit_year (n + delta + tz / 1440) →
  addDays tz (iso n) delta = Ret (iso (n + delta + tz / 1440)).
Proof.
  intros Hn Hnd Hres.
  destruct (split_iso n Hn) as (y & m & d & Hc & Hs).
  unfold addDays. rewrite Hs.
  cbn [lookup list_lookup to_Number mbind option_bind Datatypes.id sub].
  rewrite (Date_UTC_day n y m d Hc Hn).
  rewrite (getUTCDate_midnight n y m d Hc).
  cbn [add mbind option_bind].
  rewrite (setUTCDate_midnight n y m d (d + delta) Hc)
    by (by replace (n + (d + delta - d)) with (n + delta) by lia).
  replace (n + (d + delta - d)) with (n + delta) by lia.
  by apply isoDate_midnight.
Qed.

End AddDaysExact.

Section StreakWalk.
Import JS Habits Calendar.
Local Open Scope Z_scope.

Lemma Date_parse_text (tz : Z) (y1 y2 y3 y4 m1 m2 d1 d2 : ascii) :
  Date_parse tz
    (string_of_list_ascii [y1; y2; y3; y4; "-"; m1; m2; "-"; d1; d2]%char
     +:+ "T00:00:00")
  = (y ← digits_value 0 [y1; y2; y3; y4];
     m ← two_digits m1 m2;
     d ← two_digits d1 d2;
     if (1 <=? m) && (m <=? 12) && (1 <=? d) && (d <=? 31)
     then TimeClip (MakeDay y (m - 1) d * msPerDay - tz * 60000)
     else None).
Proof. reflexivity. Qed.

(** Local midnight of a day of a four-digit year, as [new Date] reads its
    text. *)
Lemma Date_parse_iso (tz n : Z) :
  -1440 < tz < 1440 → four_digit_year n →
  Date_parse tz (iso n +:+ "T00:00:00") = Some (n * msPerDay - tz * 60000).
Proof.
  intros Htz Hn.
  destruct (iso_text n Hn)
    as (y & m & d & y1 & y2 & y3 & y4 & m1 & m2 & d1 & d2 & Hc & Hy & Hm & Hd
        & Hdays & Hiso & _ & _ & _ & Hyv & Hmv & Hdv).
  destruct (four_digit_civil n Hn) as (? & ? & ? & _ & _ & _ & _ & _ & Hb).
  rewrite Hiso, Date_parse_text. unfold two_digits.
  rewrite Hyv, Hmv, Hdv. cbn [mbind option_bind].
  destruct (Z.leb_spec 1 m); [|lia]. destruct (Z.leb_spec m 12); [|lia].
  destruct (Z.leb_spec 1 d); [|lia]. destruct (Z.leb_spec d 31); [|lia].
  cbn [andb]. rewrite (MakeDay_civil y m d d) by done.
  replace (days_from_civil y m d + (d - d)) with n by lia.
  unfold TimeClip, msPerDay.
  destruct (Z.leb_spec (Z.abs (n * 86400000 - tz * 60000)) 8640000000000000);
    [done|lia].
Qed.

(** [isScheduled] on the text of a day is "due" on that day. *)
Lemma isScheduled_iso (tz n : Z) (h : habit) :
  -1440 < tz < 1440 → four_digit_year n →
  isScheduled tz h (iso n) = spec_due h n.
Proof.
  intros Htz Hn. unfold isScheduled, spec_due.
  rewrite (Date_parse_iso tz n Htz Hn). unfold getDay, local_day.
  cbn [mbind option_bind].
  replace (n * msPerDay - tz * 60000 + tz * 60000) with (n * msPerDay) by lia.
  unfold msPerDay. by rewrite Z.div_mul.
Qed.

Lemma iso_pred_neq (n : Z) :
  four_digit_year (n - 1) → four_digit_year n →
  String.eqb (iso (n - 1)) (iso n) = false.
Proof.
  intros Hp Hn. apply String.eqb_neq. intros Heq.
  pose proof (iso_inj _ _ Hp Hn Heq). lia.
Qed.

End StreakWalk.

Section DateOrder.
Import JS Habits Calendar.
Local Open Scope Z_scope.

Lemma civil_from_days_date_of (n : Z) :
  civil_from_days n
  = date_of ((n + 719468) / 146097)
            (yoe_of ((n + 719468) `mod` 146097))
            ((n + 719468) `mod` 146097
             - year_start (yoe_of ((n + 719468) `mod` 146097))).
Proof.
  unfold civil_from_days, date_of, yoe_of, year_start.
  rewrite Z.mod_eq by lia.
  by replace (n + 719468 - 146097 * ((n + 719468) / 146097))
    with (n + 719468 - (n + 719468) / 146097 * 146097) by lia.
Qed.

(** The year a day of the era falls in starts on or before it, and the
    next year starts after it; the last day of the era is the leap day
    that ends its year 399. *)
Lemma yoe_of_spec (doe : Z) :
  0 ≤ doe < 146097 →
  0 ≤ yoe_of doe ≤ 399 ∧
  year_start (yoe_of doe) ≤ doe ∧
  (doe < year_start (yoe_of doe + 1) ∨ (doe = 146096 ∧ yoe_of doe = 399)).
Proof.
  intros H. unfold yoe_of, year_start. Z.div_mod_to_equations. lia.
Qed.

Lemma year_start_le (a b : Z) : a ≤ b → year_start a ≤ year_start b.
Proof. unfold year_start. intros. Z.div_mod_to_equations. lia. Qed.

Lemma year_start_next (y : Z) :
  year_start y + 365 ≤ year_start (y + 1) ≤ year_start y + 366.
Proof. unfold year_start. Z.div_mod_to_equations. lia. Qed.

(** From one day of the era to the next, the year stays, or the next day
    is the first of the next year. *)
Lemma yoe_of_step (doe : Z) :
  0 ≤ doe < 146096 →
  yoe_of (doe + 1) = yoe_of doe ∨
  (yoe_of (doe + 1) = yoe_of doe + 1 ∧
   doe + 1 = year_start (yoe_of doe + 1)).
Proof.
  intros H.
  pose proof (yoe_of_spec doe ltac:(lia)) as (Hy & Hlo & Hhi).
  pose proof (yoe_of_spec (doe + 1) ltac:(lia)) as (Hy' & Hlo' & Hhi').
  set (y := yoe_of doe) in *. set (y' := yoe_of (doe + 1)) in *.
  clearbody y y'.
  destruct (Z.lt_trichotomy y' y) as [Hlt|[Heq|Hgt]].
  - pose proof (year_start_le (y' + 1) y ltac:(lia)). lia.
  - by left.
  - right.
    pose proof (year_start_le (y + 1) y' ltac:(lia)).
    destruct (decide (y' = y + 1)) as [->|Hne]; [lia|].
    pose proof (year_start_le (y + 2) y' ltac:(lia)).
    pose proof (year_start_next (y + 1)).
    replace (y + 1 + 1) with (y + 2) in * by lia. lia.
Qed.

Lemma date_ltb_spec (y m d y' m' d' : Z) :
  date_ltb (y, m, d) (y', m', d') = true ↔
  y < y' ∨ (y = y' ∧ (m < m' ∨ (m = m' ∧ d < d'))).
Proof.
  unfold date_ltb.
  rewrite !orb_true_iff, !andb_true_iff, !orb_true_iff, !andb_true_iff,
    !Z.ltb_lt, !Z.eqb_eq.
  tauto.
Qed.

Lemma date_of_next_day (era yoe doy : Z) :
  0 ≤ doy < 365 →
  date_ltb (date_of era yoe doy) (date_of era yoe (doy + 1)) = true.
Proof.
  intros H. unfold date_of. apply date_ltb_spec.
  set (mp := (5 * doy + 2) / 153). set (mp' := (5 * (doy + 1) + 2) / 153).
  assert (Hmp : 0 ≤ mp ≤ 11 ∧ mp' ≤ 11 ∧ (mp' = mp ∨ mp' = mp + 1) ∧
                (mp' = mp + 1 → (153 * mp' + 2) / 5 = doy + 1)).
  { subst mp mp'. Z.div_mod_to_equations. lia. }
  destruct Hmp as (Hr & Hr' & [Hsame|Hnext] & Hfirst).
  - rewrite Hsame. lia.
  - rewrite Hfirst by done. rewrite Hnext.
    assert (Hd : 1 ≤ doy - (153 * mp + 2) / 5 + 1).
    { subst mp. Z.div_mod_to_equations. lia. }
    destruct (Z.ltb_spec mp 10), (Z.ltb_spec (mp + 1) 10);
      repeat match goal with
             | |- context [?a <=? 2] => destruct (Z.leb_spec a 2)
             end; lia.
Qed.

Lemma date_of_next_year (era yoe doy : Z) :
  364 ≤ doy ≤ 365 →
  date_ltb (date_of era yoe doy) (date_of era (yoe + 1) 0) = true.
Proof.
  intros H. unfold date_of. apply date_ltb_spec.
  change ((5 * 0 + 2) / 153) with 0. cbn [Z.ltb Z.compare Z.leb].
  change ((153 * 0 + 2) / 5) with 0.
  set (mp := (5 * doy + 2) / 153).
  assert (mp = 11) as -> by (subst mp; Z.div_mod_to_equations; lia).
  change (11 <? 10) with false. cbn iota.
  destruct (Z.leb_spec (11 - 9) 2), (Z.leb_spec (0 + 3) 2); lia.
Qed.

(** The date of a day comes before the date of the next day. *)
Lemma civil_next_day_later (n : Z) :
  date_ltb (civil_from_days n) (civil_from_days (n + 1)) = true.
Proof.
  rewrite !civil_from_days_date_of.
  replace (n + 1 + 719468) with (n + 719468 + 1) by lia.
  set (z := n + 719468).
  pose proof (Z.mod_pos_bound z 146097 ltac:(lia)) as Hdoe.
  destruct (decide (z `mod` 146097 = 146096)) as [Hlast|Hnot].
  - assert (He : (z + 1) / 146097 = z / 146097 + 1 ∧
                 (z + 1) `mod` 146097 = 0).
    { Z.div_mod_to_equations. lia. }
    destruct He as [-> ->]. rewrite Hlast.
    change (yoe_of 146096) with 399. change (yoe_of 0) with 0.
    change (year_start 0) with 0. change (146096 - year_start 399) with 365.
    change (0 - 0) with 0.
    change (date_of (z / 146097) 399 365)
      with (399 + z / 146097 * 400 + 1, 2, 29).
    change (date_of (z / 146097 + 1) 0 0)
      with (0 + (z / 146097 + 1) * 400, 3, 1).
    apply date_ltb_spec. lia.
  - assert (He : (z + 1) / 146097 = z / 146097 ∧
                 (z + 1) `mod` 146097 = z `mod` 146097 + 1).
    { Z.div_mod_to_equations. lia. }
    destruct He as [-> ->].
    set (doe := z `mod` 146097) in *.
    pose proof (yoe_of_spec doe ltac:(lia)) as (Hy & Hlo & Hhi).
    pose proof (year_start_next (yoe_of doe)) as Hnext.
    destruct (yoe_of_step doe ltac:(lia)) as [Hsame|[Hny Hstart]].
    + rewrite Hsame.
      pose proof (yoe_of_spec (doe + 1) ltac:(lia)) as (_ & _ & Hhi').
      rewrite Hsame in Hhi'.
      replace (doe + 1 - year_start (yoe_of doe))
        with (doe - year_start (yoe_of doe) + 1) by lia.
      assert (year_start 399 = 145731) by reflexivity.
      apply date_of_next_day.
      destruct Hhi' as [?|[? Hy399]]; [lia|]. rewrite Hy399 in *. lia.
    + rewrite Hny, Hstart.
      replace (year_start (yoe_of doe + 1) - year_start (yoe_of doe + 1))
        with 0 by lia.
      apply date_of_next_year. lia.
Qed.

(** An earlier day has an earlier date. *)
Lemma civil_from_days_lt (a b : Z) :
  a < b → date_ltb (civil_from_days a) (civil_from_days b) = true.
Proof.
  intros Hab. replace b with (a + 1 + Z.of_nat (Z.to_nat (b - a - 1))) by lia.
  generalize (Z.to_nat (b - a - 1)) as k. clear b Hab.
  induction k as [|k IH].
  { rewrite Z.add_0_r. apply civil_next_day_later. }
  pose proof (civil_next_day_later (a + 1 + Z.of_nat k)) as Hstep.
  replace (a + 1 + Z.of_nat (S k)) with (a + 1 + Z.of_nat k + 1) by lia.
  destruct (civil_from_days a) as [[y m] d].
  destruct (civil_from_days (a + 1 + Z.of_nat k)) as [[y1 m1] d1].
  destruct (civil_from_days (a + 1 + Z.of_nat k + 1)) as [[y2 m2] d2].
  rewrite date_ltb_spec in *. lia.
Qed.

(** The code of a character, and how characters compare. *)
Lemma ascii_compare_code (c c' : ascii) :
  Ascii.compare c c'
  = (Z.of_nat (nat_of_ascii c) ?= Z.of_nat (nat_of_ascii c')).
Proof.
  unfold Ascii.compare, nat_of_ascii.
  by rewrite Nat2Z.inj_compare, N2Nat.inj_compare.
Qed.

Lemma digit_code (c : ascii) :
  is_digit c = true → 48 ≤ Z.of_nat (nat_of_ascii c) ≤ 57.
Proof.
  unfold is_digit. intros [H1 H2]%andb_true_iff.
  apply Nat.leb_le in H1, H2. lia.
Qed.

Lemma digits_value_cons (acc : Z) (c : ascii) (l : list ascii) :
  is_digit c = true →
  digits_value acc (c :: l)
  = digits_value (10 * acc + (Z.of_nat (nat_of_ascii c) - 48)) l.
Proof.
  intros Hc. pose proof (digit_code c Hc). cbn [digits_value].
  rewrite Hc. f_equal. lia.
Qed.

(** Among days of four-digit years, the earlier day has the smaller
    text. *)
Lemma iso_lt (a b : Z) :
  four_digit_year a → four_digit_year b → a < b →
  String.ltb (iso a) (iso b) = true.
Proof.
  intros Ha Hb Hab.
  pose proof (civil_from_days_lt a b Hab) as Hlt.
  destruct (iso_text a Ha)
    as (y & m & d & y1 & y2 & y3 & y4 & m1 & m2 & d1 & d2 & Hc & _ & _ & _ & _
        & Hiso & Hyd & Hmd & Hdd & Hyv & Hmv & Hdv).
  destruct (iso_text b Hb)
    as (y' & m' & d' & z1 & z2 & z3 & z4 & n1 & n2 & e1 & e2 & Hc' & _ & _ & _
        & _ & Hiso' & Hyd' & Hmd' & Hdd' & Hyv' & Hmv' & Hdv').
  rewrite Hc, Hc', date_ltb_spec in Hlt. rewrite Hiso, Hiso'.
  cbn [forallb] in *.
  repeat match goal with
         | H : _ && _ = true |- _ => apply andb_true_iff in H as [? H]
         end.
  rewrite !digits_value_cons in Hyv by done.
  rewrite !digits_value_cons in Hyv' by done.
  rewrite !digits_value_cons in Hmv by done.
  rewrite !digits_value_cons in Hmv' by done.
  rewrite !digits_value_cons in Hdv by done.
  rewrite !digits_value_cons in Hdv' by done.
  cbn [digits_value] in *. simplify_eq.
  repeat match goal with
         | H : is_digit _ = true |- _ => apply digit_code in H
         end.
  unfold String.ltb. cbn [String.compare string_of_list_ascii].
  rewrite !ascii_compare_code.
  repeat match goal with
         | |- context [Z.of_nat (nat_of_ascii ?c) ?= Z.of_nat (nat_of_ascii ?c')] =>
             destruct (Z.compare_spec (Z.of_nat (nat_of_ascii c))
                                      (Z.of_nat (nat_of_ascii c')));
             [ | done | exfalso; lia ]
         end.
  exfalso. lia.
Qed.

End DateOrder.

Section WalkEnds.
Import JS Habits Calendar.
Local Open Scope Z_scope.

(** The walk ends: for a habit created on day [c], a walk from day [n]
    is over after the day before [c] at the latest, and its count never
    goes down. *)
Lemma spec_streak_walk_ends (s : store) (h : habit) (c : Z) (fuel : nat)
    (count n : Z) :
  createdAt h = iso c → four_digit_year c →
  first_day ≤ n - Z.of_nat fuel → n ≤ last_day →
  Z.max 1 (n - c + 2) ≤ Z.of_nat fuel →
  ∃ k, spec_streak_walk s h fuel count n = Some k ∧ count ≤ k.
Proof.
  intros Hcreated Hc. revert count n.
  induction fuel as [|fuel IH]; intros count n Hlo Hhi Hfuel; [lia|].
  assert (Hn : four_digit_year n) by (unfold four_digit_year; lia).
  cbn [spec_streak_walk]. rewrite Hcreated.
  destruct (spec_due h n && negb (hasCompleted s (iso n) (id h)));
    [exists count; split; [done|lia]|].
  set (count' := if spec_due h n && hasCompleted s (iso n) (id h)
                 then count + 1 else count).
  assert (Hcount : count ≤ count') by (subst count'; destruct (_ && _); lia).
  destruct (String.ltb (iso n) (iso c)) eqn:Hbefore;
    [exists count'; split; [done|lia]|].
  destruct (3650 <? count'); [exists count'; split; [done|lia]|].
  assert (Hnc : c ≤ n).
  { destruct (Z.le_gt_cases c n) as [|Hlt]; [done|].
    by rewrite (iso_lt n c Hn Hc) in Hbefore by lia. }
  destruct (IH count' (n - 1)) as (k & Hk & Hle); [lia..|].
  exists k. split; [done|lia].
Qed.

End WalkEnds.

Section AddDays.
Import JS Habits Calendar.
Local Open Scope Z_scope.

(** C6 (the code at the failing input): in a zone five hours west of UTC,
    [addDays] anchors the date at UTC midnight and reads it back in the
    zone, where it is still the evening before: a delta of 0 gives the day
    before, +1 gives the same day and -1 gives two days before. *)
Theorem addDays_west_of_utc :
  addDays (-300) "2024-01-05" 0 = Ret "2024-01-04" ∧
  addDays (-300) "2024-01-05" 1 = Ret "2024-01-05" ∧
  addDays (-300) "2024-01-05" (-1) = Ret "2024-01-03".
Proof. repeat split; by vm_compute. Qed.

(** East of UTC the same calls give the dates asked for. *)
Lemma addDays_east_of_utc :
  addDays 60 "2024-01-05" 0 = Ret "2024-01-05" ∧
  addDays 60 "2024-01-05" 1 = Ret "2024-01-06" ∧
  addDays 60 "2024-01-05" (-1) = Ret "2024-01-04" ∧
  addDays 60 "2024-03-01" (-1) = Ret "2024-02-29".
Proof. repeat split; by vm_compute. Qed.

(** X1: in a zone from UTC eastwards (an offset of 0 up to 24 hours), for
    every date of a four-digit year and every delta that stays among such
    dates, [addDays] returns the date exactly [delta] days later; in
    particular a delta of 0 gives the date back. *)
Theorem addDays_east_exact (tz n delta : Z) :
  0 ≤ tz < 1440 → four_digit_year n → four_digit_year (n + delta) →
  addDays tz (iso n) delta = Ret (iso (n + delta)).
Proof.
  intros Htz Hn Hd.
  rewrite (addDays_offset tz n delta); rewrite ?Z.div_small by lia;
    rewrite ?Z.add_0_r; done.
Qed.

Lemma addDays_east_exact_witness :
  addDays 60 (iso 19727) (-1) = Ret (iso (19727 + -1)) ∧
  iso 19727 = "2024-01-05" ∧ iso (19727 + -1) = "2024-01-04".
Proof.
  split; [|split; reflexivity].
  exact (addDays_east_exact 60 19727 (-1)
           ltac:(lia) ltac:(split; by vm_compute) ltac:(split; by vm_compute)).
Defined.

(** X2: in a zone west of UTC (an offset from -24 hours up to, not
    including, 0), for every date of a four-digit year and every delta,
    [addDays] returns the date one day before the one asked for. *)
Theorem addDays_west_day_before (tz n delta : Z) :
  -1440 ≤ tz < 0 → four_digit_year n → four_digit_year (n + delta) →
  four_digit_year (n + delta - 1) →
  addDays tz (iso n) delta = Ret (iso (n + delta - 1)).
Proof.
  intros Htz Hn Hd Hr.
  assert (Hq : tz / 1440 = -1) by (Z.div_mod_to_equations; lia).
  rewrite (addDays_offset tz n delta); rewrite ?Hq; done.
Qed.

Lemma addDays_west_day_before_witness :
  addDays (-300) (iso 19727) 1 = Ret (iso (19727 + 1 - 1)) ∧
  iso 19727 = "2024-01-05".
Proof.
  split; [|reflexivity].
  exact (addDays_west_day_before (-300) 19727 1
           ltac:(lia) ltac:(split; by vm_compute) ltac:(split; by vm_compute)
           ltac:(split; by vm_compute)).
Defined.

End AddDays.

Section Streak.
Import JS Habits Calendar.
Local Open Scope Z_scope.

(** C4 (the code at the failing input): five hours west of UTC the walk
    steps from 01-05 to 01-03 to 01-01, never looks at 01-04, and stops at
    01-01, which is due and not done: the streak is 2 where the
    day-by-day walk counts 3. *)
Theorem calcStreak_west_of_utc :
  calcStreak (-300) 10 exStore exHabit "2024-01-05" = Some (Ret 2) ∧
  spec_streak 10 exStore exHabit 19727 = Some 3 ∧
  iso 19727 = "2024-01-05".
Proof. repeat split; by vm_compute. Qed.

(** East of UTC the example gives the 3 of the specification. *)
Lemma calcStreak_east_of_utc :
  calcStreak 60 10 exStore exHabit "2024-01-05" = Some (Ret 3).
Proof. by vm_compute. Qed.

(** X3: in a zone from UTC eastwards, for every store and habit and every
    start day whose walk stays among the dates of four-digit years,
    [calcStreak] run for any number of iterations is the specification's
    day-by-day walk run for as many days; and for a habit created on day
    [c] it returns, with a count of 0 or more, as soon as it is given
    [n - c + 2] iterations (one, when that is less). *)
Theorem calcStreak_east_walk (tz : Z) (fuel : nat) (s : store) (h : habit)
    (n : Z) :
  0 ≤ tz < 1440 → first_day ≤ n - Z.of_nat fuel → n ≤ last_day →
  calcStreak tz fuel s h (iso n) = Ret <$> spec_streak fuel s h n ∧
  (∀ c, createdAt h = iso c → four_digit_year c →
        Z.max 1 (n - c + 2) ≤ Z.of_nat fuel →
        ∃ k, calcStreak tz fuel s h (iso n) = Some (Ret k) ∧
             spec_streak fuel s h n = Some k ∧ 0 ≤ k).
Proof.
  intros Htz Hlo0 Hhi0.
  assert (Hwalk : calcStreak tz fuel s h (iso n)
                  = Ret <$> spec_streak fuel s h n);
    [|split; [exact Hwalk|];
      intros c Hcreated Hc Hfuel; rewrite Hwalk;
      destruct (spec_streak_walk_ends s h c fuel 0 n Hcreated Hc Hlo0 Hhi0
                  Hfuel) as (k & Hk & Hle);
      exists k; unfold spec_streak; by rewrite Hk].
  revert Hlo0 Hhi0.
  unfold calcStreak, spec_streak. generalize 0 as streak.
  revert n.
  induction fuel as [|fuel IH]; intros n streak Hlo Hhi; [done|].
  assert (Hn : four_digit_year n) by (unfold four_digit_year; lia).
  assert (Hp : four_digit_year (n - 1)) by (unfold four_digit_year; lia).
  assert (Hstep : addDays tz (iso n) (-1) = Ret (iso (n - 1))).
  { rewrite (addDays_offset tz n (-1)); rewrite ?Z.div_small by lia;
      rewrite ?Z.add_0_r; done. }
  cbn [calcStreak_loop spec_streak_walk].
  rewrite (isScheduled_iso tz n h) by (done || lia).
  rewrite Hstep, (iso_pred_neq n Hp Hn).
  assert (Hrec : ∀ c, calcStreak_loop tz s h fuel c (iso (n - 1))
                      = Ret <$> spec_streak_walk s h fuel c (n - 1)).
  { intros c. apply IH; lia. }
  destruct (spec_due h n), (hasCompleted s (iso n) (id h)); cbn [andb negb];
    try done;
    destruct (String.ltb (iso n) (createdAt h)); try done;
    match goal with
    | |- context [3650 <? ?c] => destruct (3650 <? c); [done|apply Hrec]
    end.
Qed.

Lemma calcStreak_east_walk_witness :
  calcStreak 60 10 exStore exHabit (iso 19727)
    = Ret <$> spec_streak 10 exStore exHabit 19727 ∧
  spec_streak 10 exStore exHabit 19727 = Some 3.
Proof.
  split; [|by vm_compute].
  exact (proj1 (calcStreak_east_walk 60 10 exStore exHabit 19727
                  ltac:(lia) ltac:(by vm_compute) ltac:(by vm_compute))).
Defined.

End Streak.

(** ** Further properties of the code

    The week strip and the month table, the streak in every zone, the
    timer across events and reloads, the edit dialog, the persisted
    store and what the list shows. *)

Section WeekStrip.
Import JS Habits Calendar Week.
Local Open Scope Z_scope.

(** A date made at local midnight prints as its own day, in every zone. *)
Lemma isoDate_local_midnight (tz n : Z) :
  four_digit_year n →
  isoDate tz (Some (n * msPerDay - tz * 60000)) = Ret (iso n).
Proof.
  intros Hn.
  destruct (four_digit_civil _ Hn) as (y & m & d & Hc & Hy & _).
  unfold isoDate, format, iso, local_day.
  replace (n * msPerDay - tz * 60000 + tz * 60000) with (n * msPerDay) by lia.
  unfold msPerDay. rewrite Z.div_mul by lia. rewrite Hc.
  cbn [mbind result_bind].
  by destruct (Z.ltb_spec 0 y); [|lia].
Qed.

Lemma getDay_local_midnight (tz n : Z) :
  getDay tz (Some (n * msPerDay - tz * 60000)) = Some ((n + 4) mod 7).
Proof.
  unfold getDay, local_day. cbn [mbind option_bind].
  replace (n * msPerDay - tz * 60000 + tz * 60000) with (n * msPerDay) by lia.
  unfold msPerDay. by rewrite Z.div_mul by lia.
Qed.

(** What [startOfWeek] computes on a date of a four-digit year: the day
    of weekday [weekStartsOn] on or before it, moved by the whole days
    of the offset. *)
Lemma startOfWeek_offset (tz n w : Z) :
  -1440 < tz < 1440 → 0 ≤ w ≤ 6 →
  four_digit_year n → four_digit_year (n - (n + 4 - w) mod 7) →
  four_digit_year (n - (n + 4 - w) mod 7 + tz / 1440) →
  startOfWeek tz (iso n) w = Ret (iso (n - (n + 4 - w) mod 7 + tz / 1440)).
Proof.
  intros Htz Hw Hn Hk Hr. unfold startOfWeek.
  rewrite (Date_parse_iso tz n Htz Hn), getDay_local_midnight,
    (isoDate_local_midnight tz n Hn).
  cbn [add sub rem neg mbind option_bind result_bind fmap option_fmap option_map].
  change (7 =? 0) with false. cbn match.
  assert (Hrem : Z.rem ((n + 4) mod 7 + 7 - w) 7 = (n + 4 - w) mod 7).
  { rewrite Z.rem_mod_nonneg by (Z.div_mod_to_equations; lia).
    Z.div_mod_to_equations; lia. }
  rewrite Hrem. cbn [fmap option_fmap option_map].
  change (addDays_number tz (iso n) (Some (- ((n + 4 - w) mod 7))))
    with (addDays tz (iso n) (- ((n + 4 - w) mod 7))).
  replace (n - (n + 4 - w) mod 7) with (n + - ((n + 4 - w) mod 7)) in * by lia.
  by rewrite (addDays_offset tz n (- ((n + 4 - w) mod 7))).
Qed.

Lemma map_result_addDays (tz k : Z) (l : list Z) :
  four_digit_year k →
  (∀ i, i ∈ l → four_digit_year (k + i) ∧ four_digit_year (k + i + tz / 1440)) →
  map_result (λ i, addDays tz (iso k) i) l
  = Ret ((λ i, iso (k + i + tz / 1440)) <$> l).
Proof.
  intros Hk. induction l as [|i l IH]; intros Hl; [done|].
  cbn [map_result].
  destruct (Hl i ltac:(left)) as [H1 H2].
  rewrite (addDays_offset tz k i Hk H1 H2), IH
    by (intros j Hj; apply Hl; by right).
  done.
Qed.

(** X4: in a zone from UTC eastwards, for every date of a four-digit
    year (from the seventh day on) and every [weekStartsOn] from 0 to 6,
    [startOfWeek] returns the date of weekday [weekStartsOn] that is the
    given date or one of the six days before it; called on its own
    result it returns it again. *)
Theorem startOfWeek_east (tz n w : Z) :
  0 ≤ tz < 1440 → 0 ≤ w ≤ 6 →
  first_day + 6 ≤ n → n ≤ last_day →
  ∃ k, startOfWeek tz (iso n) w = Ret (iso k) ∧
       n - 6 ≤ k ≤ n ∧ (k + 4) mod 7 = w ∧
       startOfWeek tz (iso k) w = Ret (iso k).
Proof.
  intros Htz Hw Hlo Hhi.
  assert (Hq : tz / 1440 = 0) by (apply Z.div_small; lia).
  assert (Hm : 0 ≤ (n + 4 - w) mod 7 < 7) by (apply Z.mod_pos_bound; lia).
  exists (n - (n + 4 - w) mod 7).
  assert (Hk : (n - (n + 4 - w) mod 7 + 4 - w) mod 7 = 0)
    by (Z.div_mod_to_equations; lia).
  split; [|split; [lia|split; [Z.div_mod_to_equations; lia|]]].
  - rewrite (startOfWeek_offset tz n w); rewrite ?Hq, ?Z.add_0_r;
      unfold four_digit_year; try lia. done.
  - rewrite (startOfWeek_offset tz (n - (n + 4 - w) mod 7) w);
      rewrite ?Hq, ?Hk, ?Z.add_0_r, ?Z.sub_0_r;
      unfold four_digit_year; try lia. done.
Qed.

Lemma startOfWeek_east_witness :
  ∃ k, startOfWeek 60 (iso 19727) 1 = Ret (iso k) ∧
       19727 - 6 ≤ k ≤ 19727 ∧ (k + 4) mod 7 = 1 ∧
       startOfWeek 60 (iso k) 1 = Ret (iso k).
Proof.
  apply (startOfWeek_east 60 19727 1);
    [lia|lia|by vm_compute|by vm_compute].
Defined.

(** X5: in a zone from UTC eastwards, the [weekDays] of [HabitApp] are
    seven consecutive dates that start on a Monday and contain the
    selected date. *)
Theorem weekDays_east (tz n : Z) :
  0 ≤ tz < 1440 → first_day + 6 ≤ n → n + 6 ≤ last_day →
  ∃ k, weekDays tz (iso n)
       = Ret [iso k; iso (k + 1); iso (k + 2); iso (k + 3); iso (k + 4);
              iso (k + 5); iso (k + 6)] ∧
       (k + 4) mod 7 = 1 ∧ k ≤ n ≤ k + 6.
Proof.
  intros Htz Hlo Hhi.
  assert (Hq : tz / 1440 = 0) by (apply Z.div_small; lia).
  assert (Hm : 0 ≤ (n + 4 - 1) mod 7 < 7) by (apply Z.mod_pos_bound; lia).
  exists (n - (n + 4 - 1) mod 7).
  split; [|split; [Z.div_mod_to_equations; lia|lia]].
  unfold weekDays.
  rewrite (startOfWeek_offset tz n 1); rewrite ?Hq, ?Z.add_0_r;
    unfold four_digit_year; try lia.
  cbn [mbind result_bind].
  rewrite map_result_addDays.
  - rewrite Hq. unfold range. cbn [seq fmap list_fmap].
    change (Z.of_nat 0) with 0.
    by rewrite !Z.add_0_r.
  - unfold four_digit_year; lia.
  - intros i Hi. unfold range in Hi. rewrite Hq.
    apply list_elem_of_fmap in Hi as (j & -> & Hj).
    apply elem_of_seq in Hj. unfold four_digit_year. lia.
Qed.

Lemma weekDays_east_witness :
  ∃ k, weekDays 60 (iso 19727)
       = Ret [iso k; iso (k + 1); iso (k + 2); iso (k + 3); iso (k + 4);
              iso (k + 5); iso (k + 6)] ∧
       (k + 4) mod 7 = 1 ∧ k ≤ 19727 ≤ k + 6.
Proof.
  apply (weekDays_east 60 19727); [lia|by vm_compute|by vm_compute].
Defined.

(** X6: in a zone west of UTC, [weekDays] is seven consecutive dates
    that start two days before the Monday of the selected date, that is
    on a Saturday, and end on the Friday; when the selected date is the
    Saturday or the Sunday of its week it is not among them. *)
Theorem weekDays_west (tz n : Z) :
  -1440 < tz < 0 → first_day + 8 ≤ n → n + 5 ≤ last_day →
  ∃ k, weekDays tz (iso n)
       = Ret [iso (k - 2); iso (k - 1); iso k; iso (k + 1); iso (k + 2);
              iso (k + 3); iso (k + 4)] ∧
       (k + 4) mod 7 = 1 ∧ k ≤ n ≤ k + 6 ∧
       (k + 5 ≤ n →
        iso n ∉ [iso (k - 2); iso (k - 1); iso k; iso (k + 1); iso (k + 2);
                 iso (k + 3); iso (k + 4)]).
Proof.
  intros Htz Hlo Hhi.
  assert (Hq : tz / 1440 = -1) by (Z.div_mod_to_equations; lia).
  assert (Hm : 0 ≤ (n + 4 - 1) mod 7 < 7) by (apply Z.mod_pos_bound; lia).
  exists (n - (n + 4 - 1) mod 7).
  set (k := n - (n + 4 - 1) mod 7) in *.
  assert (Hkn : n - 6 ≤ k ≤ n) by (unfold k; lia).
  split; [|split; [subst k; Z.div_mod_to_equations; lia|split; [lia|]]].
  - unfold weekDays.
    rewrite (startOfWeek_offset tz n 1); rewrite ?Hq;
      unfold four_digit_year; try lia.
    cbn [mbind result_bind]. fold k.
    rewrite map_result_addDays.
    + rewrite Hq. unfold range. cbn [seq fmap list_fmap].
      f_equal. change (Z.of_nat 0) with 0.
      repeat (apply (f_equal2 cons); [f_equal; lia|]). done.
    + unfold four_digit_year; lia.
    + intros i Hi. unfold range in Hi. rewrite Hq.
      apply list_elem_of_fmap in Hi as (j & -> & Hj).
      apply elem_of_seq in Hj. unfold four_digit_year. lia.
  - intros Hw Hin.
    assert (Hinj : ∀ j, k - 2 ≤ j ≤ k + 4 → iso n ≠ iso j).
    { intros j Hj Heq. apply iso_inj in Heq; unfold four_digit_year; lia. }
    repeat (apply elem_of_cons in Hin as [Hin|Hin];
            [by apply Hinj in Hin; lia|]).
    by apply elem_of_nil in Hin.
Qed.

Lemma weekDays_west_witness :
  ∃ k, weekDays (-300) (iso 19729)
       = Ret [iso (k - 2); iso (k - 1); iso k; iso (k + 1); iso (k + 2);
              iso (k + 3); iso (k + 4)] ∧
       (k + 4) mod 7 = 1 ∧ k ≤ 19729 ≤ k + 6 ∧
       (k + 5 ≤ 19729 →
        iso 19729 ∉ [iso (k - 2); iso (k - 1); iso k; iso (k + 1);
                     iso (k + 2); iso (k + 3); iso (k + 4)]).
Proof.
  apply (weekDays_west (-300) 19729); [lia|by vm_compute|by vm_compute].
Defined.

End WeekStrip.

Section NeverDue.
Import JS Habits Calendar.
Local Open Scope Z_scope.

(** X7: on a date of a four-digit year and in any zone whose offset is
    less than 24 hours, [isScheduled] holds exactly when the weekday of
    the date (0 for Sunday) is among [repeatDays] and the habit is not
    archived; the answer does not depend on the zone and is the same
    seven days later. *)
Theorem isScheduled_weekday (tz tz' n : Z) (h : habit) :
  -1440 < tz < 1440 → -1440 < tz' < 1440 → four_digit_year n →
  (isScheduled tz h (iso n) = true ↔
   (n + 4) mod 7 ∈ repeatDays h ∧ archived h = false) ∧
  isScheduled tz' h (iso n) = isScheduled tz h (iso n) ∧
  (four_digit_year (n + 7) →
   isScheduled tz h (iso (n + 7)) = isScheduled tz h (iso n)).
Proof.
  intros Htz Htz' Hn.
  rewrite (isScheduled_iso tz n h Htz Hn), (isScheduled_iso tz' n h Htz' Hn).
  split; [|split; [done|]].
  - unfold spec_due.
    rewrite andb_true_iff, bool_decide_eq_true, negb_true_iff. done.
  - intros Hn7. rewrite (isScheduled_iso tz (n + 7) h Htz Hn7).
    unfold spec_due. replace (n + 7 + 4) with (n + 4 + 1 * 7) by lia.
    by rewrite Z.mod_add by lia.
Qed.

Lemma isScheduled_weekday_witness :
  isScheduled 60 exHabit (iso 19727) = true ∧
  isScheduled (-300) exHabit (iso 19727) = isScheduled 60 exHabit (iso 19727).
Proof.
  destruct (isScheduled_weekday 60 (-300) 19727 exHabit
              ltac:(lia) ltac:(lia) ltac:(split; by vm_compute))
    as (Hdue & Hzone & _).
  split; [|exact Hzone].
  apply Hdue. split; [|reflexivity].
  change ((19727 + 4) mod 7) with 5. simpl.
  repeat ((by left) || right).
Defined.

Lemma isScheduled_never (tz : Z) (h : habit) (d : string) :
  archived h = true ∨ repeatDays h = [] → isScheduled tz h d = false.
Proof.
  unfold isScheduled. intros [-> | ->]; [apply andb_false_r|].
  destruct (getDay tz _); [|done].
  rewrite bool_decide_eq_false_2; [done|apply not_elem_of_nil].
Qed.

Lemma calcStreak_loop_never_due (tz : Z) (s : store) (h : habit) (c : Z)
    (fuel : nat) (n : Z) :
  -1440 ≤ tz < 1440 →
  archived h = true ∨ repeatDays h = [] →
  createdAt h = iso c → first_day + 2 ≤ c → c ≤ last_day →
  first_day ≤ n → n ≤ last_day →
  Z.max 1 (n - c + 2) ≤ Z.of_nat fuel →
  calcStreak_loop tz s h fuel 0 (iso n) = Some (Ret 0).
Proof.
  intros Htz Hnever Hcreated Hc1 Hc2. revert n.
  assert (Hq : tz / 1440 = -1 ∨ tz / 1440 = 0)
    by (Z.div_mod_to_equations; lia).
  induction fuel as [|fuel IH]; intros n Hlo Hhi Hfuel; [lia|].
  cbn [calcStreak_loop].
  rewrite (isScheduled_never tz h (iso n) Hnever). cbn [andb].
  destruct (String.ltb (iso n) (createdAt h)) eqn:Hbefore; [done|].
  assert (Hnc : c ≤ n).
  { destruct (Z.le_gt_cases c n) as [|Hlt]; [done|].
    rewrite Hcreated, iso_lt in Hbefore; unfold four_digit_year; (done || lia). }
  rewrite (addDays_offset tz n (-1)) by (unfold four_digit_year; lia).
  assert (Hne : String.eqb (iso (n + -1 + tz / 1440)) (iso n) = false).
  { apply String.eqb_neq. intros Heq.
    apply iso_inj in Heq; unfold four_digit_year; lia. }
  rewrite Hne. change (3650 <? 0) with false. cbn match.
  apply IH; lia.
Qed.

(** X8: for a habit that is archived or has no repeat days, in any
    zone with an offset from -24 hours up to 24 hours, [calcStreak]
    returns 0, within [n - c + 2] iterations from day [n] for a habit
    created on day [c] (one, when that is less), whatever the ledger
    holds. *)
Theorem calcStreak_never_due (tz : Z) (fuel : nat) (s : store) (h : habit)
    (c n : Z) :
  -1440 ≤ tz < 1440 →
  archived h = true ∨ repeatDays h = [] →
  createdAt h = iso c → first_day + 2 ≤ c → c ≤ last_day →
  first_day ≤ n → n ≤ last_day →
  Z.max 1 (n - c + 2) ≤ Z.of_nat fuel →
  calcStreak tz fuel s h (iso n) = Some (Ret 0).
Proof.
  intros. unfold calcStreak. by eapply calcStreak_loop_never_due.
Qed.

Lemma calcStreak_never_due_witness :
  calcStreak (-300) 10
    (mkStore [] (<["2024-01-05" := ["h"]]> ∅))
    (mkHabit "h" "Run" "bg-blue-100" "ok" [] "2024-01-01" 0 false)
    (iso 19727) = Some (Ret 0).
Proof.
  apply (calcStreak_never_due (-300) 10 _ _ 19723 19727);
    [lia|by right|by vm_compute|by vm_compute|by vm_compute
    |by vm_compute|by vm_compute|lia].
Defined.

Lemma calcStreak_loop_bounded (tz : Z) (s : store) (h : habit) (c : Z)
    (fuel : nat) (streak n : Z) :
  -1440 ≤ tz < 1440 →
  createdAt h = iso c → first_day + 2 ≤ c → c ≤ last_day →
  first_day ≤ n → n ≤ last_day →
  Z.max 1 (n - c + 2) ≤ Z.of_nat fuel → 0 ≤ streak ≤ 3650 →
  ∃ k, calcStreak_loop tz s h fuel streak (iso n) = Some (Ret k) ∧
       streak ≤ k ≤ streak + Z.max 1 (n - c + 2) ∧ k ≤ 3651.
Proof.
  intros Htz Hcreated Hc1 Hc2.
  assert (Hq : tz / 1440 = -1 ∨ tz / 1440 = 0)
    by (Z.div_mod_to_equations; lia).
  revert streak n.
  induction fuel as [|fuel IH]; intros streak n Hlo Hhi Hfuel Hs; [lia|].
  assert (Hcont : ∀ st', streak ≤ st' ≤ streak + 1 →
    ∃ k, (if String.ltb (iso n) (createdAt h) then Some (Ret st') else
          match addDays tz (iso n) (-1) with
          | Raise x => Some (Raise x)
          | Ret prev =>
              if String.eqb prev (iso n) then Some (Ret st') else
              if 3650 <? st' then Some (Ret st') else
              calcStreak_loop tz s h fuel st' prev
          end) = Some (Ret k) ∧
         streak ≤ k ≤ streak + Z.max 1 (n - c + 2) ∧ k ≤ 3651).
  { intros st' Hst.
    destruct (String.ltb (iso n) (createdAt h)) eqn:Hbefore;
      [exists st'; split; [done|lia]|].
    assert (Hnc : c ≤ n).
    { destruct (Z.le_gt_cases c n) as [|Hlt]; [done|].
      rewrite Hcreated, iso_lt in Hbefore;
        unfold four_digit_year; (done || lia). }
    rewrite (addDays_offset tz n (-1)) by (unfold four_digit_year; lia).
    assert (Hne : String.eqb (iso (n + -1 + tz / 1440)) (iso n) = false).
    { apply String.eqb_neq. intros Heq.
      apply iso_inj in Heq; unfold four_digit_year; lia. }
    rewrite Hne.
    destruct (Z.ltb_spec 3650 st'); [exists st'; split; [done|lia]|].
    destruct (IH st' (n + -1 + tz / 1440)) as (k & Hk & Hb & Hcap);
      [lia..|].
    exists k. split; [done|lia]. }
  cbn [calcStreak_loop].
  destruct (isScheduled tz h (iso n)), (hasCompleted s (iso n) (id h));
    cbn [andb negb].
  - apply Hcont. lia.
  - exists streak. split; [done|lia].
  - apply Hcont. lia.
  - apply Hcont. lia.
Qed.

(** X9: in any zone with an offset from -24 hours up to 24 hours, for
    every store and habit, [calcStreak] from day [n] for a habit created
    on day [c] returns within [n - c + 2] iterations (one, when that is
    less); the streak it returns is at least 0, at most the number of
    those iterations and at most 3651. *)
Theorem calcStreak_returns_bounded (tz : Z) (fuel : nat) (s : store)
    (h : habit) (c n : Z) :
  -1440 ≤ tz < 1440 →
  createdAt h = iso c → first_day + 2 ≤ c → c ≤ last_day →
  first_day ≤ n → n ≤ last_day →
  Z.max 1 (n - c + 2) ≤ Z.of_nat fuel →
  ∃ k, calcStreak tz fuel s h (iso n) = Some (Ret k) ∧
       0 ≤ k ≤ Z.max 1 (n - c + 2) ∧ k ≤ 3651.
Proof.
  intros Htz Hcreated Hc1 Hc2 Hlo Hhi Hfuel. unfold calcStreak.
  destruct (calcStreak_loop_bounded tz s h c fuel 0 n) as (k & Hk & Hb & Hcap);
    [done..|lia|].
  exists k. split; [done|lia].
Qed.

Lemma calcStreak_returns_bounded_witness :
  ∃ k, calcStreak (-300) 10 exStore exHabit (iso 19727) = Some (Ret k) ∧
       0 ≤ k ≤ Z.max 1 (19727 - 19723 + 2) ∧ k ≤ 3651.
Proof.
  apply (calcStreak_returns_bounded (-300) 10 exStore exHabit 19723 19727);
    [lia|by vm_compute|by vm_compute|by vm_compute|by vm_compute
    |by vm_compute|lia].
Defined.

End NeverDue.

Section WholeMonth.
Import JS Habits Calendar Week.
Local Open Scope Z_scope.

Lemma yoe_of_unique (doe y : Z) :
  0 ≤ doe < 146097 → 0 ≤ y ≤ 399 →
  year_start y ≤ doe < year_start (y + 1) → yoe_of doe = y.
Proof.
  intros Hdoe Hy [Hlo Hhi].
  destruct (yoe_of_spec doe Hdoe) as (Hb & Hle & Hlt).
  destruct (Z.lt_trichotomy (yoe_of doe) y) as [Hc | [Hc | Hc]]; [|done|].
  - pose proof (year_start_le (yoe_of doe + 1) y ltac:(lia)).
    destruct Hlt as [Hlt | [Hd Hy399]]; lia.
  - pose proof (year_start_le (y + 1) (yoe_of doe) ltac:(lia)). lia.
Qed.

(** The day number of the first of a month reads back as that date. *)
Lemma civil_first_of_month (y m : Z) :
  1 ≤ m ≤ 12 → civil_from_days (days_from_civil y m 1) = (y, m, 1).
Proof.
  intros Hm. rewrite civil_from_days_date_of. unfold days_from_civil.
  set (y' := if m <=? 2 then y - 1 else y).
  set (era := y' / 400). set (yoe := y' - era * 400).
  set (mp := (m + 9) mod 12). set (doy := (153 * mp + 2) / 5 + 1 - 1).
  assert (Hyoe : 0 ≤ yoe ≤ 399)
    by (subst yoe era; Z.div_mod_to_equations; lia).
  assert (Hmp : 0 ≤ mp ≤ 11) by (subst mp; Z.div_mod_to_equations; lia).
  assert (Hdoy : 0 ≤ doy ≤ 337) by (subst doy; Z.div_mod_to_equations; lia).
  assert (Hys : yoe * 365 + yoe / 4 - yoe / 100 = year_start yoe)
    by (unfold year_start; lia).
  rewrite Hys.
  pose proof (year_start_next yoe) as Hnext.
  assert (Hys0 : 0 ≤ year_start yoe ≤ 145732)
    by (unfold year_start; Z.div_mod_to_equations; lia).
  replace (era * 146097 + (year_start yoe + doy) - 719468 + 719468)
    with ((year_start yoe + doy) + era * 146097) by lia.
  rewrite Z.div_add, Z.mod_add by lia.
  rewrite (Z.div_small (year_start yoe + doy)),
    (Z.mod_small (year_start yoe + doy)) by lia.
  rewrite (yoe_of_unique (year_start yoe + doy) yoe) by lia.
  replace (year_start yoe + doy - year_start yoe) with doy by lia.
  unfold date_of.
  assert (Hmp' : (5 * doy + 2) / 153 = mp)
    by (subst doy; clearbody mp; Z.div_mod_to_equations; lia).
  rewrite Hmp'.
  assert (Hd : doy - (153 * mp + 2) / 5 + 1 = 1) by (subst doy; lia).
  rewrite Hd. replace (0 + era) with era by lia.
  assert (Hyy : yoe + era * 400 = y') by (subst yoe; lia).
  rewrite Hyy. subst mp y'.
  destruct (Z.leb_spec m 2).
  - assert (Hmm : (m + 9) mod 12 = m + 9) by (apply Z.mod_small; lia).
    rewrite Hmm. destruct (Z.ltb_spec (m + 9) 10); [lia|].
    replace (m + 9 - 9) with m by lia.
    destruct (Z.leb_spec m 2); [|lia]. f_equal. f_equal. lia.
  - assert (Hmm : (m + 9) mod 12 = m - 3)
      by (Z.div_mod_to_equations; lia).
    rewrite Hmm. destruct (Z.ltb_spec (m - 3) 10); [|lia].
    replace (m - 3 + 3) with m by lia.
    destruct (Z.leb_spec m 2); [lia|]. done.
Qed.

Lemma month_length (y m : Z) :
  1 ≤ m ≤ 12 →
  28 ≤ MakeDay y m 1 - days_from_civil y m 1 ≤ 31.
Proof.
  intros Hm. unfold MakeDay.
  destruct (Z.eq_dec m 12) as [-> | Hne].
  - change (12 / 12) with 1. change (12 mod 12 + 1) with 1.
    unfold days_from_civil.
    change (1 <=? 2) with true. change (12 <=? 2) with false. cbn match.
    change ((1 + 9) mod 12) with 10. change ((12 + 9) mod 12) with 9.
    Z.div_mod_to_equations; lia.
  - rewrite (Z.div_small m 12), (Z.mod_small m 12) by lia.
    replace (y + 0) with y by lia.
    unfold days_from_civil.
    destruct (Z.leb_spec (m + 1) 2), (Z.leb_spec m 2); try lia;
      Z.div_mod_to_equations; lia.
Qed.

Lemma MakeDay_last (y m : Z) : MakeDay y m 0 = MakeDay y m 1 - 1.
Proof. unfold MakeDay. lia. Qed.

(** The month of a day: where it starts, where the next one starts, and
    that the day lies between the two. *)
Lemma month_bounds (n y m d : Z) :
  civil_from_days n = (y, m, d) →
  1 ≤ m ≤ 12 ∧ 1 ≤ d ≤ 31 ∧
  month_start n = days_from_civil y m 1 ∧
  next_month_start n = MakeDay y m 1 ∧
  civil_from_days (month_start n) = (y, m, 1) ∧
  month_start n ≤ n < next_month_start n ∧
  28 ≤ next_month_start n - month_start n ≤ 31.
Proof.
  intros Hc.
  destruct (civil_from_days_spec n) as (y' & m' & d' & Hc' & Hm & Hd & Hdays).
  rewrite Hc in Hc'. injection Hc' as <- <- <-.
  assert (Hstart : month_start n = days_from_civil y m 1).
  { unfold month_start. rewrite Hc. cbn [snd].
    rewrite (days_from_civil_day y m d) in Hdays. lia. }
  assert (Hnext : next_month_start n = MakeDay y m 1)
    by (unfold next_month_start; by rewrite Hc).
  pose proof (month_length y m Hm) as Hlen.
  repeat (split; [done|]).
  split; [rewrite Hstart; by apply civil_first_of_month|].
  split; [|lia].
  split; [unfold month_start; rewrite Hc; cbn [snd]; lia|].
  rewrite Hnext. destruct (Z.lt_ge_cases n (MakeDay y m 1)) as [|Hge]; [done|].
  exfalso.
  assert (Hcn : civil_from_days (MakeDay y m 1)
                = (y + m / 12, m mod 12 + 1, 1)).
  { unfold MakeDay. replace (_ + 1 - 1) with
      (days_from_civil (y + m / 12) (m mod 12 + 1) 1) by lia.
    apply civil_first_of_month. Z.div_mod_to_equations; lia. }
  destruct (Z.eq_dec (MakeDay y m 1) n) as [Heq | Hne].
  - rewrite Heq, Hc in Hcn. injection Hcn as Hy Hmm Hdd.
    Z.div_mod_to_equations; lia.
  - pose proof (civil_from_days_lt (MakeDay y m 1) n ltac:(lia)) as Hlt.
    rewrite Hcn, Hc in Hlt. apply date_ltb_spec in Hlt.
    Z.div_mod_to_equations; lia.
Qed.

(** The text [monthRange] builds for the first of the month. *)
Lemma first_of_month_text (n y m d : Z) :
  four_digit_year n → four_digit_year (month_start n) →
  civil_from_days n = (y, m, d) →
  to_String (Some (Some y)) +:+ "-" +:+ padStart2 (to_String (Some (Some m)))
    +:+ "-01"
  = iso (month_start n).
Proof.
  intros Hn Ha Hc.
  destruct (month_bounds n y m d Hc) as (Hm & Hd & _ & _ & Hca & _).
  destruct (four_digit_civil n Hn) as (y' & m' & d' & Hc' & Hy & _).
  rewrite Hc in Hc'. injection Hc' as <- <- <-.
  unfold iso. rewrite Hca. unfold to_String.
  destruct (Z.ltb_spec y 0); [lia|]. destruct (Z.ltb_spec m 0); [lia|].
  done.
Qed.

(** What [monthRange] sets up on a date of a four-digit year: the loop
    starts on the first of the month and runs until the text of the last
    day of the month, moved by the whole days of the offset. *)
Lemma monthRange_setup (tz : Z) (fuel : nat) (n : Z) :
  -1440 < tz < 1440 →
  four_digit_year (n - 31) → four_digit_year (n + 31) →
  monthRange tz fuel (iso n)
  = monthRange_loop (Ret (iso (next_month_start n - 1 + tz / 1440)))
      (λ d, addDays tz d 1) fuel (iso (month_start n)) [].
Proof.
  intros Htz Hlo Hhi.
  assert (Hn : four_digit_year n) by (unfold four_digit_year in *; lia).
  destruct (split_iso n Hn) as (y & m & d & Hc & Hs).
  destruct (month_bounds n y m d Hc)
    as (Hm & Hd & Hstart & Hnext & Hca & Hin & Hlen).
  assert (Ha : four_digit_year (month_start n))
    by (unfold month_start in *; rewrite Hc in *; cbn [snd] in *;
        unfold four_digit_year in *; lia).
  destruct (four_digit_civil n Hn) as (y' & m' & d' & Hc' & Hy & _).
  rewrite Hc in Hc'. injection Hc' as <- <- <-.
  assert (Hq : tz / 1440 = -1 ∨ tz / 1440 = 0)
    by (Z.div_mod_to_equations; lia).
  unfold monthRange. rewrite Hs.
  cbn [lookup list_lookup to_Number mbind option_bind Datatypes.id].
  rewrite (first_of_month_text n y m d Hn Ha Hc).
  rewrite (Date_parse_iso tz _ Htz Ha), (isoDate_local_midnight tz _ Ha).
  unfold Date_UTC. cbn [mbind option_bind].
  destruct (Z.leb_spec y 99); [lia|]. rewrite andb_false_r.
  rewrite MakeDay_last, <- Hnext.
  rewrite TimeClip_day by (unfold four_digit_year, first_day, last_day in *;
    change (days_from_civil 1000 1 1) with (-354285) in *;
    change (days_from_civil 9999 12 31) with 2932896 in *; lia).
  rewrite isoDate_midnight by (unfold four_digit_year in *; lia).
  done.
Qed.

(** East of UTC the loop lists the days up to the last one. *)
Lemma monthRange_loop_consecutive (tz b : Z) (j : nat) :
  tz / 1440 = 0 →
  ∀ (fuel : nat) (days : list string),
    four_digit_year (b - Z.of_nat j) → four_digit_year b →
    (length days + j ≤ 40)%nat → (j < fuel)%nat →
    monthRange_loop (Ret (iso b)) (λ d, addDays tz d 1) fuel
      (iso (b - Z.of_nat j)) days
    = Some (Ret (days ++ (iso <$> seqZ (b - Z.of_nat j) (Z.of_nat j + 1)))).
Proof.
  intros Hq. induction j as [|j IH]; intros fuel days Hk Hb Hlen Hfuel;
    (destruct fuel as [|fuel]; [lia|]); cbn [monthRange_loop].
  - replace (b - Z.of_nat 0) with b by lia.
    rewrite String.eqb_refl. change (Z.of_nat 0 + 1) with 1. done.
  - assert (Hne : String.eqb (iso (b - Z.of_nat (S j))) (iso b) = false).
    { apply String.eqb_neq. intros Heq. apply iso_inj in Heq; [lia|done..]. }
    rewrite Hne.
    assert (Hk1 : four_digit_year (b - Z.of_nat (S j) + 1))
      by (unfold four_digit_year in *; lia).
    rewrite (addDays_offset tz _ 1 Hk Hk1) by (by rewrite Hq, Z.add_0_r).
    rewrite Hq, Z.add_0_r.
    rewrite length_app. cbn [length].
    destruct (Nat.ltb_spec 40 (length days + 1)); [lia|].
    replace (b - Z.of_nat (S j) + 1) with (b - Z.of_nat j) by lia.
    rewrite IH; [|by replace (b - Z.of_nat j) with (b - Z.of_nat (S j) + 1) by lia
                 |done|rewrite length_app; cbn [length]; lia|lia].
    rewrite <- app_assoc. cbn [app].
    assert (Hseq : seqZ (b - Z.of_nat (S j)) (Z.of_nat (S j) + 1)
                   = (b - Z.of_nat (S j))
                       :: seqZ (b - Z.of_nat j) (Z.of_nat j + 1)).
    { rewrite seqZ_cons by lia. f_equal. f_equal; lia. }
    by rewrite Hseq, fmap_cons.
Qed.

(** Where the step gives the same text back and the end is another text,
    the loop stops at the cap, with 41 copies. *)
Lemma monthRange_loop_stuck (e d : string) (next : string → result string)
    (fuel : nat) (days : list string) :
  next d = Ret d → String.eqb d e = false →
  (length days ≤ 40)%nat → (41 - length days ≤ fuel)%nat →
  monthRange_loop (Ret e) next fuel d days
  = Some (Ret (days ++ replicate (41 - length days) d)).
Proof.
  intros Hnext Hne. revert days.
  induction fuel as [|fuel IH]; intros days Hlen Hfuel; [lia|].
  cbn [monthRange_loop]. rewrite Hne, Hnext, length_app. cbn [length].
  destruct (Nat.ltb_spec 40 (length days + 1)).
  - replace (41 - length days)%nat with 1%nat by lia. done.
  - rewrite IH by (rewrite ?length_app; cbn [length]; lia).
    rewrite length_app. cbn [length]. rewrite <- app_assoc. cbn [app].
    replace (41 - length days)%nat with (S (41 - (length days + 1)))%nat by lia.
    done.
Qed.

(** X10: in a zone from UTC eastwards, [monthRange] on a date returns
    the dates of its month and no others: consecutive days from the
    first of the month up to the day before the first of the next one,
    28 to 31 of them, the given date among them; 31 iterations of the
    loop are enough. *)
Theorem monthRange_east_whole_month (tz : Z) (fuel : nat) (n : Z) :
  0 ≤ tz < 1440 →
  four_digit_year (n - 31) → four_digit_year (n + 31) → (31 ≤ fuel)%nat →
  monthRange tz fuel (iso n)
  = Some (Ret (iso <$> seqZ (month_start n)
                         (next_month_start n - month_start n))) ∧
  (civil_from_days (month_start n)).2 = 1 ∧
  (civil_from_days (next_month_start n)).2 = 1 ∧
  month_start n ≤ n < next_month_start n ∧
  28 ≤ next_month_start n - month_start n ≤ 31.
Proof.
  intros Htz Hlo Hhi Hfuel.
  assert (Hq : tz / 1440 = 0) by (apply Z.div_small; lia).
  destruct (civil_from_days n) as [[y m] d] eqn:Hc.
  destruct (month_bounds n y m d Hc)
    as (Hm & Hd & Hstart & Hnext & Hca & Hin & Hlen).
  split; [|split; [by rewrite Hca|split; [|done]]].
  - rewrite (monthRange_setup tz fuel n) by (done || lia).
    rewrite Hq, Z.add_0_r.
    set (b := next_month_start n - 1) in *.
    set (j := Z.to_nat (b - month_start n)).
    assert (Hj : month_start n = b - Z.of_nat j) by (subst j b; lia).
    rewrite Hj at 1.
    rewrite (monthRange_loop_consecutive tz b j Hq);
      [|unfold four_digit_year in *; lia..|cbn [length]; subst j b; lia
       |subst j b; lia].
    cbn [app]. rewrite <- Hj.
    replace (Z.of_nat j + 1) with (next_month_start n - month_start n)
      by (subst j b; lia).
    done.
  - rewrite Hnext. unfold MakeDay.
    replace (_ + 1 - 1) with (days_from_civil (y + m / 12) (m mod 12 + 1) 1)
      by lia.
    rewrite civil_first_of_month by (Z.div_mod_to_equations; lia). done.
Qed.

Lemma monthRange_east_whole_month_witness :
  monthRange 60 41 (iso 19768)
  = Some (Ret (iso <$> seqZ (month_start 19768)
                         (next_month_start 19768 - month_start 19768))) ∧
  iso 19768 = "2024-02-15" ∧
  iso (month_start 19768) = "2024-02-01" ∧
  next_month_start 19768 - month_start 19768 = 29.
Proof.
  split; [|by vm_compute].
  exact (proj1 (monthRange_east_whole_month 60 41 19768
                  ltac:(lia) ltac:(split; by vm_compute)
                  ltac:(split; by vm_compute) ltac:(lia))).
Defined.

(** X11: in a zone west of UTC, [monthRange] on a date returns 41
    copies of the first day of its month: [addDays(d, 1)] gives the same
    date back, the text of the last day is never met, and the loop stops
    at the cap on the length. *)
Theorem monthRange_west_first_day_repeated (tz : Z) (fuel : nat) (n : Z) :
  -1440 < tz < 0 →
  four_digit_year (n - 31) → four_digit_year (n + 31) → (41 ≤ fuel)%nat →
  monthRange tz fuel (iso n)
  = Some (Ret (replicate 41 (iso (month_start n)))) ∧
  (civil_from_days (month_start n)).2 = 1.
Proof.
  intros Htz Hlo Hhi Hfuel.
  assert (Hq : tz / 1440 = -1) by (Z.div_mod_to_equations; lia).
  destruct (civil_from_days n) as [[y m] d] eqn:Hc.
  destruct (month_bounds n y m d Hc)
    as (Hm & Hd & Hstart & Hnext & Hca & Hin & Hlen).
  split; [|by rewrite Hca].
  rewrite (monthRange_setup tz fuel n) by (done || lia).
  rewrite Hq.
  assert (Ha : four_digit_year (month_start n))
    by (unfold four_digit_year in *; lia).
  rewrite (monthRange_loop_stuck _ (iso (month_start n))).
  - done.
  - rewrite (addDays_offset tz _ 1 Ha); rewrite ?Hq;
      [f_equal; f_equal; lia|unfold four_digit_year in *; lia..].
  - apply String.eqb_neq. intros Heq.
    apply iso_inj in Heq; unfold four_digit_year in *; lia.
  - cbn [length]. lia.
  - cbn [length]. lia.
Qed.

Lemma monthRange_west_first_day_repeated_witness :
  monthRange (-300) 41 (iso 19768)
  = Some (Ret (replicate 41 (iso (month_start 19768)))) ∧
  iso 19768 = "2024-02-15" ∧ iso (month_start 19768) = "2024-02-01".
Proof.
  split; [|by vm_compute].
  exact (proj1 (monthRange_west_first_day_repeated (-300) 41 19768
                  ltac:(lia) ltac:(split; by vm_compute)
                  ltac:(split; by vm_compute) ltac:(lia))).
Defined.

End WholeMonth.

Section TimerEvents.
Import Timer.
Local Open Scope Z_scope.

(** What every event keeps: a counter that is not negative and a history
    of sessions that each lasted a positive time. *)
Lemma step_sound (st : state) (a : action) :
  0 ≤ time st ∧ Forall (λ e, 0 < duration e) (timerHistory st) →
  0 ≤ time (step st a) ∧
  Forall (λ e, 0 < duration e) (timerHistory (step st a)).
Proof.
  intros [Ht Hh]. destruct a; cbn [step].
  - done.
  - done.
  - unfold tick. destruct (isRunning st); [|done]. split; cbn; [lia|done].
  - done.
  - unfold saveTimer. destruct (Z.ltb_spec 0 (time st)); [|done].
    split; cbn; [done|]. constructor; [done|by apply Forall_take].
  - split; [done|]. cbn. rewrite Forall_forall in Hh. apply Forall_forall.
    intros e He. apply list_elem_of_filter in He as [_ He]. by apply Hh.
  - split; [done|]. cbn. apply Forall_fmap.
    eapply Forall_impl; [exact Hh|]. intros e He. cbn.
    by destruct (decide (id e = i)).
Qed.

(** X12: whatever the sequence of timer events (start, pause, tick,
    reset, save, delete an entry, edit a note), a counter that is not
    negative stays so, and a history whose entries all have a positive
    duration stays so: no event records a session of zero or negative
    length. *)
Theorem timer_events_keep_sound (st : state) (acts : list action) :
  0 ≤ time st → Forall (λ e, 0 < duration e) (timerHistory st) →
  0 ≤ time (run st acts) ∧
  Forall (λ e, 0 < duration e) (timerHistory (run st acts)).
Proof.
  intros Ht Hh.
  assert (Hs : 0 ≤ time st ∧ Forall (λ e, 0 < duration e) (timerHistory st))
    by done.
  clear Ht Hh.
  revert st Hs. induction acts as [|a acts IH]; intros st Hs; [done|].
  cbn. apply IH. by apply step_sound.
Qed.

Lemma timer_events_keep_sound_witness :
  0 ≤ time (run initial [Start; Tick; Tick; Save (mkFresh "n" "ts" "d"); Tick]) ∧
  Forall (λ e, 0 < duration e)
    (timerHistory
       (run initial [Start; Tick; Tick; Save (mkFresh "n" "ts" "d"); Tick])).
Proof.
  apply (timer_events_keep_sound initial
           [Start; Tick; Tick; Save (mkFresh "n" "ts" "d"); Tick]).
  - simpl. lia.
  - simpl. constructor.
Defined.

Lemma run_app (st : state) (l1 l2 : list action) :
  run st (l1 ++ l2) = run (run st l1) l2.
Proof. unfold run. apply foldl_app. Qed.

Lemma run_ticks_running (n : nat) (st : state) :
  isRunning st = true →
  run st (replicate n Tick)
  = mkState (time st + Z.of_nat n) true (timerHistory st).
Proof.
  revert st. induction n as [|n IH]; intros st Hr.
  - cbn. destruct st as [t r h]. cbn in *. subst. f_equal. lia.
  - cbn [replicate run foldl step]. unfold tick at 1. rewrite Hr.
    change (foldl step ?s ?l) with (run s l).
    rewrite IH by done. cbn. f_equal. lia.
Qed.

Lemma run_ticks_stopped (n : nat) (st : state) :
  isRunning st = false → run st (replicate n Tick) = st.
Proof.
  intros Hr. induction n as [|n IH]; [done|].
  cbn [replicate run foldl step]. unfold tick at 1. by rewrite Hr.
Qed.

(** X13: a session that is started, ticks [n] times and is saved, with
    a positive counter at the end, leaves the counter at 0, not running,
    and one new entry in front of the history (cut to 10) whose duration
    is the counter at the start plus [n]; ticks and a second save after
    that change nothing; and no tick counts after a pause. *)
Theorem session_recorded (st : state) (n : nat) (f : fresh) :
  0 < time st + Z.of_nat n →
  run st (Start :: replicate n Tick ++ [Save f])
  = mkState 0 false
      (take 10 (mkEntry (f_id f) (time st + Z.of_nat n) (f_timestamp f)
                        (f_date f) "" :: timerHistory st)) ∧
  (∀ m f', run (run st (Start :: replicate n Tick ++ [Save f]))
             (replicate m Tick ++ [Save f'])
           = run st (Start :: replicate n Tick ++ [Save f])) ∧
  (∀ m, run st (Pause :: replicate m Tick) = pauseTimer st).
Proof.
  intros Hpos.
  assert (Hrun : run st (Start :: replicate n Tick ++ [Save f])
                 = mkState 0 false
                     (take 10 (mkEntry (f_id f) (time st + Z.of_nat n)
                                 (f_timestamp f) (f_date f) ""
                               :: timerHistory st))).
  { change (run st (Start :: replicate n Tick ++ [Save f]))
      with (run (startTimer st) (replicate n Tick ++ [Save f])).
    rewrite run_app, run_ticks_running by done.
    cbn [run foldl step]. unfold saveTimer, startTimer.
    cbn [time isRunning timerHistory].
    by destruct (Z.ltb_spec 0 (time st + Z.of_nat n)); [|lia]. }
  split; [done|]. split.
  - intros m f'. rewrite Hrun, run_app, run_ticks_stopped by done. done.
  - intros m. change (run st (Pause :: replicate m Tick))
      with (run (pauseTimer st) (replicate m Tick)).
    by apply run_ticks_stopped.
Qed.

Lemma session_recorded_witness :
  run initial (Start :: replicate 3 Tick ++ [Save (mkFresh "n" "ts" "d")])
  = mkState 0 false [mkEntry "n" 3 "ts" "d" ""].
Proof.
  exact (proj1 (session_recorded initial 3 (mkFresh "n" "ts" "d")
                  ltac:(simpl; lia))).
Defined.

End TimerEvents.

Section TimerReload.
Import TimerState TimerView.
Local Open Scope Z_scope.

(** X14: the record written by [saveTimerState] at an instant other
    than 0, read back at mount, restores the running flag, and the
    counter: as it was when paused, plus the whole seconds since the
    write when running.  A running timer reloaded twice, the record
    being rewritten at or after the first reload, never shows more than
    the written counter plus the whole seconds elapsed, and when the
    rewrite is at the instant of the first reload, at most one second
    less. *)
Theorem timer_reload (wrote now : Z) (st : Timer.state) :
  wrote ≠ 0 →
  Timer.isRunning (mount now (persist wrote st) (Timer.timerHistory st))
  = Timer.isRunning st ∧
  Timer.time (mount now (persist wrote st) (Timer.timerHistory st))
  = (if Timer.isRunning st then Timer.time st + (now - wrote) / 1000
     else Timer.time st) ∧
  (Timer.isRunning st = true →
   ∀ rewrote later, rewrote ≠ 0 → now ≤ rewrote →
     let once := mount now (persist wrote st) (Timer.timerHistory st) in
     let twice := mount later (persist rewrote once) (Timer.timerHistory st) in
     Timer.time twice
     = Timer.time st + (now - wrote) / 1000 + (later - rewrote) / 1000 ∧
     Timer.time twice ≤ Timer.time st + (later - wrote) / 1000 ∧
     (rewrote = now →
      Timer.time st + (later - wrote) / 1000 - 1 ≤ Timer.time twice)).
Proof.
  intros Hw.
  assert (Htime : ∀ w n s, w ≠ 0 →
    Timer.time (mount n (persist w s) (Timer.timerHistory st))
    = if Timer.isRunning s then Timer.time s + (n - w) / 1000
      else Timer.time s).
  { intros w n s Hw'. unfold mount, persist, saveTimerState. cbn [Timer.time].
    destruct (Timer.isRunning s).
    - by rewrite (restoreTime_running n w).
    - by rewrite restoreTime_not_running. }
  split; [done|]. split; [by apply Htime|].
  intros Hr rewrote later Hrw Hle once twice. subst twice.
  rewrite Htime by done.
  assert (Hro : Timer.isRunning once = true) by (subst once; by cbn).
  rewrite Hro. subst once. rewrite Htime by done. rewrite Hr.
  split; [done|]. split; [|intros ->]; Z.div_mod_to_equations; lia.
Qed.

Lemma timer_reload_witness :
  Timer.time (mount 31500 (persist 1000 (Timer.mkState 100 true []))
                (Timer.timerHistory (Timer.mkState 100 true [])))
  = 130.
Proof.
  exact (proj1 (proj2 (timer_reload 1000 31500 (Timer.mkState 100 true [])
                         ltac:(lia)))).
Defined.

End TimerReload.

Section TimerText.
Import JS TimerView.
Local Open Scope Z_scope.

Lemma uint_chars_digits (d : Decimal.uint) :
  forallb is_digit (list_ascii_of_string (NilEmpty.string_of_uint d)) = true.
Proof. induction d; cbn [NilEmpty.string_of_uint list_ascii_of_string forallb]; by rewrite ?IHd. Qed.

Lemma uint_chars_value (d d' : Decimal.uint) :
  digits_value (Z.of_N (DecimalPos.Unsigned.of_lu d'))
    (list_ascii_of_string (NilEmpty.string_of_uint d))
  = Some (Z.of_N (DecimalPos.Unsigned.of_lu (Decimal.revapp d d'))).
Proof.
  revert d'. induction d; intros d';
    cbn [NilEmpty.string_of_uint list_ascii_of_string Decimal.revapp];
    [done|..];
    (rewrite digits_value_cons by done; rewrite <- IHd; f_equal;
     cbn [DecimalPos.Unsigned.of_lu];
     match goal with
     | |- context [nat_of_ascii ?c] =>
         let v := eval vm_compute in (nat_of_ascii c) in
         change (nat_of_ascii c) with v
     end; lia).
Qed.

Lemma list_ascii_of_string_app (s1 s2 : string) :
  list_ascii_of_string (s1 +:+ s2)
  = list_ascii_of_string s1 ++ list_ascii_of_string s2.
Proof.
  induction s1 as [|c s1 IH]; [done|].
  change (String c s1 +:+ s2) with (String c (s1 +:+ s2)).
  cbn [list_ascii_of_string app]. by f_equal.
Qed.

(** The decimal text of a number from 0 on: digits, at least one, that
    read back as the number. *)
Lemma decimal_text (n : Z) :
  0 ≤ n →
  ∃ c l, decimal n = string_of_list_ascii (c :: l) ∧
         forallb is_digit (c :: l) = true ∧
         digits_value 0 (c :: l) = Some n.
Proof.
  intros Hn. unfold decimal.
  set (d := N.to_uint (Z.to_N n)).
  assert (Hnil : d ≠ Decimal.Nil).
  { subst d. destruct (Z.to_N n); [done|apply DecimalPos.Unsigned.to_uint_nonnil]. }
  assert (Hs : NilZero.string_of_uint d = NilEmpty.string_of_uint d)
    by (by destruct d).
  assert (Hv : digits_value 0 (list_ascii_of_string (NilEmpty.string_of_uint d))
               = Some n).
  { pose proof (uint_chars_value d Decimal.Nil) as Hv0.
    change (Z.of_N (DecimalPos.Unsigned.of_lu Decimal.Nil)) with 0 in Hv0.
    rewrite Hv0.
    change (Decimal.revapp d Decimal.Nil) with (Decimal.rev d).
    rewrite <- DecimalPos.Unsigned.of_uint_alt.
    change (Pos.of_uint d) with (N.of_uint d). subst d.
    rewrite DecimalN.Unsigned.of_to. f_equal. lia. }
  pose proof (uint_chars_digits d) as Hd.
  rewrite Hs. rewrite <- (string_of_list_ascii_of_string (NilEmpty.string_of_uint d)).
  destruct (list_ascii_of_string (NilEmpty.string_of_uint d)) as [|c l] eqn:Hl.
  - destruct d; done.
  - by exists c, l.
Qed.

(** Padded to two places, it has at least two digits and the same value. *)
Lemma padStart2_text (n : Z) :
  0 ≤ n →
  ∃ l, padStart2 (toString n) = string_of_list_ascii l ∧
       forallb is_digit l = true ∧ digits_value 0 l = Some n.
Proof.
  intros Hn. destruct (decimal_text n Hn) as (c & l & Hs & Hd & Hv).
  unfold toString, to_String. destruct (Z.ltb_spec n 0); [lia|].
  rewrite Hs. destruct l as [|b l].
  - exists ["0"%char; c]. split; [done|]. split; [by cbn in *|].
    rewrite digits_value_cons by done. exact Hv.
  - by exists (c :: b :: l).
Qed.

Lemma split_go_digits_sep (sep : ascii) (cur l rest : list ascii) :
  is_digit sep = false → forallb is_digit l = true →
  split_go sep cur (l ++ sep :: rest)
  = string_of_list_ascii (rev cur ++ l) :: split_go sep [] rest.
Proof.
  intros Hsep. revert cur. induction l as [|c l IH]; intros cur Hl.
  - cbn [app split_go]. by rewrite Ascii.eqb_refl, app_nil_r.
  - apply andb_true_iff in Hl as [Hc Hl]. cbn [app split_go].
    destruct (Ascii.eqb_spec c sep) as [-> | _]; [congruence|].
    rewrite IH by done. cbn [rev]. by rewrite <- app_assoc.
Qed.

Lemma split_go_digits_last (sep : ascii) (cur l : list ascii) :
  is_digit sep = false → forallb is_digit l = true →
  split_go sep cur l = [string_of_list_ascii (rev cur ++ l)].
Proof.
  intros Hsep. revert cur. induction l as [|c l IH]; intros cur Hl.
  - cbn [split_go]. by rewrite app_nil_r.
  - apply andb_true_iff in Hl as [Hc Hl]. cbn [split_go].
    destruct (Ascii.eqb_spec c sep) as [-> | _]; [congruence|].
    rewrite IH by done. cbn [rev]. by rewrite <- app_assoc.
Qed.

Lemma formatTime_split (seconds : Z) :
  0 ≤ seconds →
  Number <$> split ":" (formatTime seconds)
  = [Some (seconds / 3600); Some (seconds mod 3600 / 60);
     Some (seconds mod 60)].
Proof.
  intros Hs. unfold formatTime.
  rewrite !Z.rem_mod_nonneg by lia.
  destruct (padStart2_text (seconds / 3600)
              ltac:(Z.div_mod_to_equations; lia)) as (lh & -> & Hhd & Hhv).
  destruct (padStart2_text (seconds mod 3600 / 60)
              ltac:(Z.div_mod_to_equations; lia)) as (lm & -> & Hmd & Hmv).
  destruct (padStart2_text (seconds mod 60)
              ltac:(Z.div_mod_to_equations; lia)) as (ls & -> & Hsd & Hsv).
  unfold split.
  rewrite !list_ascii_of_string_app, !list_ascii_of_string_of_list_ascii.
  change (list_ascii_of_string ":") with [":"%char]. cbn [app].
  rewrite !split_go_digits_sep, split_go_digits_last by done.
  cbn [fmap list_fmap rev app].
  by rewrite !Number_digits, Hhv, Hmv, Hsv.
Qed.

(** X15: for a number of seconds from 0 on, the text of [formatTime],
    split at the colons and read as numbers, is the hours, minutes and
    seconds: the minutes and seconds are below 60 and the three add up
    to the number formatted; so two different numbers of seconds never
    have the same text. *)
Theorem formatTime_reads_back (seconds other : Z) :
  0 ≤ seconds → 0 ≤ other →
  Number <$> split ":" (formatTime seconds)
  = [Some (seconds / 3600); Some (seconds mod 3600 / 60);
     Some (seconds mod 60)] ∧
  seconds / 3600 * 3600 + seconds mod 3600 / 60 * 60 + seconds mod 60
  = seconds ∧
  0 ≤ seconds mod 3600 / 60 < 60 ∧ 0 ≤ seconds mod 60 < 60 ∧
  (formatTime other = formatTime seconds → other = seconds).
Proof.
  intros Hs Ho.
  split; [by apply formatTime_split|].
  split; [Z.div_mod_to_equations; lia|].
  split; [Z.div_mod_to_equations; lia|].
  split; [Z.div_mod_to_equations; lia|].
  intros Heq.
  pose proof (formatTime_split seconds Hs) as H1.
  pose proof (formatTime_split other Ho) as H2.
  rewrite Heq, H1 in H2. injection H2 as Hh Hm Hsec.
  Z.div_mod_to_equations. lia.
Qed.

Lemma formatTime_reads_back_witness :
  Number <$> split ":" (formatTime 3725) = [Some 1; Some 2; Some 5] ∧
  formatTime 3725 = "01:02:05".
Proof.
  split; [|by vm_compute].
  exact (proj1 (formatTime_reads_back 3725 0 ltac:(lia) ltac:(lia))).
Defined.

End TimerText.

Section HistoryEdits.
Import Timer.
Local Open Scope Z_scope.

(** X16: [updateEntryNote] leaves the counter, the running flag and,
    position by position, the ids, durations, timestamps and dates of
    the history as they are; the entry at each position gets the new
    note when its id is the one given and keeps its note otherwise; of
    two edits of the same id the second one alone counts. *)
Theorem updateEntryNote_frame (i n : string) (st : state) :
  time (updateEntryNote i n st) = time st ∧
  isRunning (updateEntryNote i n st) = isRunning st ∧
  id <$> timerHistory (updateEntryNote i n st) = id <$> timerHistory st ∧
  duration <$> timerHistory (updateEntryNote i n st)
  = duration <$> timerHistory st ∧
  timestamp <$> timerHistory (updateEntryNote i n st)
  = timestamp <$> timerHistory st ∧
  date <$> timerHistory (updateEntryNote i n st) = date <$> timerHistory st ∧
  (∀ k e, timerHistory st !! k = Some e →
          ∃ e', timerHistory (updateEntryNote i n st) !! k = Some e' ∧
                note e' = if decide (id e = i) then n else note e) ∧
  (∀ n', updateEntryNote i n' (updateEntryNote i n st)
         = updateEntryNote i n' st).
Proof.
  unfold updateEntryNote. cbn [time isRunning timerHistory].
  split; [done|]. split; [done|].
  repeat (split; [rewrite <- list_fmap_compose; apply list_fmap_ext;
                  intros k e _; cbn; by destruct (decide (id e = i))|]).
  split.
  - intros k e Hk. rewrite list_lookup_fmap, Hk. cbn.
    eexists; split; [done|]. by destruct (decide (id e = i)).
  - intros n'. f_equal. rewrite <- list_fmap_compose. apply list_fmap_ext.
    intros k e _. cbn. destruct (decide (id e = i)) as [He|He]; cbn.
    + by rewrite decide_True.
    + by rewrite decide_False.
Qed.

(** X17: [deleteHistoryEntry] leaves the counter and the running flag,
    and keeps exactly the entries whose id is not the one given, in
    their order; it changes nothing when no entry has the id; a note
    edited on an entry that is then deleted leaves no trace; with
    unique ids it removes exactly one entry. *)
Theorem deleteHistoryEntry_removes (i : string) (st : state) :
  time (deleteHistoryEntry i st) = time st ∧
  isRunning (deleteHistoryEntry i st) = isRunning st ∧
  (∀ e, e ∈ timerHistory (deleteHistoryEntry i st) ↔
        e ∈ timerHistory st ∧ id e ≠ i) ∧
  timerHistory (deleteHistoryEntry i st) `sublist_of` timerHistory st ∧
  (i ∉ id <$> timerHistory st → deleteHistoryEntry i st = st) ∧
  (∀ n, deleteHistoryEntry i (updateEntryNote i n st)
        = deleteHistoryEntry i st) ∧
  (NoDup (id <$> timerHistory st) → i ∈ id <$> timerHistory st →
   S (length (timerHistory (deleteHistoryEntry i st)))
   = length (timerHistory st)).
Proof.
  unfold deleteHistoryEntry, updateEntryNote. cbn [time isRunning timerHistory].
  split; [done|]. split; [done|].
  split; [intros e; rewrite list_elem_of_filter; naive_solver|].
  split; [apply sublist_filter|].
  split; [|split].
  - intros Hni. destruct st as [t r h]. cbn in *. f_equal.
    induction h as [|e h IH]; [done|].
    rewrite fmap_cons, not_elem_of_cons in Hni. destruct Hni as [Hne Hni].
    rewrite filter_cons_True by done. f_equal. by apply IH.
  - intros n. f_equal. induction (timerHistory st) as [|e h IH]; [done|].
    rewrite fmap_cons. destruct (decide (id e = i)) as [He|He].
    + rewrite !filter_cons_False by (cbn; naive_solver). done.
    + rewrite !filter_cons_True by done. by f_equal.
  - induction (timerHistory st) as [|e h IH]; intros Hnd Hin.
    + by apply elem_of_nil in Hin.
    + rewrite fmap_cons in Hnd, Hin. apply NoDup_cons in Hnd as [Hne Hnd].
      destruct (decide (id e = i)) as [He|He].
      * rewrite filter_cons_False by naive_solver. cbn [length]. f_equal.
        subst i. clear IH Hin Hnd.
        induction h as [|e' h IH]; [done|].
        rewrite fmap_cons, not_elem_of_cons in Hne. destruct Hne as [Hne1 Hne2].
        rewrite filter_cons_True by done. cbn [length]. f_equal. by apply IH.
      * rewrite filter_cons_True by done. cbn [length]. f_equal.
        apply IH; [done|]. apply elem_of_cons in Hin as [Hin|Hin]; [done|done].
Qed.

End HistoryEdits.

Section DayLedger.
Import Habits Editing.
Local Open Scope Z_scope.

(** X18: a confirmed [clearToday] leaves the habits, makes
    [hasCompleted] false for every habit id on that date and leaves the
    ledger entry of every other date as it was; a toggle after it leaves
    exactly that one habit done; a second one changes nothing more; and
    a declined one changes nothing. *)
Theorem clearToday_unchecks (date : string) (s : store) :
  habits (clearToday true date s) = habits s ∧
  (∀ i, hasCompleted (clearToday true date s) date i = false) ∧
  (∀ d, d ≠ date →
        completions (clearToday true date s) !! d = completions s !! d) ∧
  (∀ h, entry (toggle h date (clearToday true date s)) date = [id h]) ∧
  clearToday true date (clearToday true date s) = clearToday true date s ∧
  clearToday false date s = s.
Proof.
  unfold clearToday. cbn [habits completions].
  split; [done|]. split; [|split; [|split; [|split; [|done]]]].
  - intros i. unfold hasCompleted. cbn [completions].
    rewrite lookup_insert_eq. apply bool_decide_eq_false_2, not_elem_of_nil.
  - intros d Hd. by rewrite lookup_insert_ne.
  - intros h. unfold toggle, entry. cbn [completions].
    rewrite !lookup_insert_eq. cbn. done.
  - by rewrite insert_insert_eq.
Qed.

End DayLedger.

Section SaveRoundTrip.
Import Habits Editing.
Local Open Scope Z_scope.

Lemma store_ext (s1 s2 : store) :
  habits s1 = habits s2 → completions s1 = completions s2 → s1 = s2.
Proof. destruct s1, s2. cbn. by intros -> ->. Qed.

Lemma saveHabit_cases (h : habit) (s : store) :
  ((∀ x, x ∈ habits s → id x ≠ id h) ∧
   habits (saveHabit h s) = habits s ++ [h]) ∨
  ((∃ x, x ∈ habits s ∧ id x = id h) ∧
   habits (saveHabit h s)
   = (λ x, if decide (id x = id h) then h else x) <$> habits s).
Proof.
  destruct (decide (Exists (λ x, id x = id h) (habits s))) as [He|Hn].
  - right. apply Exists_exists in He.
    split; [done|]. by apply saveHabit_existing.
  - left. assert (Hnew : ∀ x, x ∈ habits s → id x ≠ id h).
    { intros x Hx Hid. apply Hn, Exists_exists. by exists x. }
    split; [done|]. by apply saveHabit_new.
Qed.

Lemma filter_id_fresh (i : string) (l : list habit) :
  (∀ x, x ∈ l → id x ≠ i) → filter (λ x, id x ≠ i) l = l.
Proof.
  induction l as [|x l IH]; intros Hl; [done|].
  rewrite filter_cons_True by (apply Hl; left).
  f_equal. apply IH. intros y Hy. apply Hl. by right.
Qed.

(** X19: after [saveHabit h] the habit [h] is in the store, and it is
    the only version of its id there; the habits of other ids are the
    same as before; saving [h] a second time changes nothing; deleting
    the id after the save gives what deleting it before the save gives,
    and gives the store back when the id was new. *)
Theorem saveHabit_round_trip (h : habit) (s : store) :
  h ∈ habits (saveHabit h s) ∧
  (∀ x, x ∈ habits (saveHabit h s) → id x = id h → x = h) ∧
  (∀ x, id x ≠ id h → x ∈ habits (saveHabit h s) ↔ x ∈ habits s) ∧
  saveHabit h (saveHabit h s) = saveHabit h s ∧
  deleteHabit true (id h) (saveHabit h s) = deleteHabit true (id h) s ∧
  ((∀ x, x ∈ habits s → id x ≠ id h) →
   deleteHabit true (id h) (saveHabit h s) = s).
Proof.
  assert (Hmem : h ∈ habits (saveHabit h s)).
  { destruct (saveHabit_cases h s) as [[Hnew ->] | [(x & Hx & Hid) ->]].
    - apply elem_of_app. right. by left.
    - apply list_elem_of_fmap. exists x. by rewrite decide_True. }
  assert (Hsame : ∀ x, x ∈ habits (saveHabit h s) → id x = id h → x = h).
  { intros x. destruct (saveHabit_cases h s) as [[Hnew ->] | [_ ->]].
    - rewrite elem_of_app, list_elem_of_singleton. intros [Hx|Hx] Hid; [|done].
      by destruct (Hnew x Hx).
    - intros Hx Hid. apply list_elem_of_fmap in Hx as (y & -> & Hy).
      destruct (decide (id y = id h)); [done|]. by destruct n. }
  split; [done|]. split; [done|].
  split; [|split; [|split]].
  - intros x Hne. destruct (saveHabit_cases h s) as [[Hnew ->] | [_ ->]].
    + rewrite elem_of_app, list_elem_of_singleton. naive_solver.
    + rewrite list_elem_of_fmap. split.
      * intros (y & -> & Hy). destruct (decide (id y = id h)); [done|done].
      * intros Hx. exists x. by rewrite decide_False.
  - apply store_ext; [|done].
    rewrite (saveHabit_existing h (saveHabit h s)) by (by exists h).
    assert (Hl : ∀ l : list habit, (∀ x, x ∈ l → id x = id h → x = h) →
              (λ x, if decide (id x = id h) then h else x) <$> l = l).
    { induction l as [|x l IH]; intros Hall; [done|].
      rewrite fmap_cons. f_equal.
      - destruct (decide (id x = id h)) as [Hid|]; [|done].
        symmetry. apply Hall; [left|done].
      - apply IH. intros y Hy. apply Hall. by right. }
    by apply Hl.
  - apply store_ext; [|done]. unfold deleteHabit. cbn [habits].
    destruct (saveHabit_cases h s) as [[Hnew ->] | [_ ->]].
    + rewrite filter_app, filter_cons_False, filter_nil, app_nil_r by naive_solver.
      done.
    + induction (habits s) as [|x l IH]; [done|].
      rewrite fmap_cons. destruct (decide (id x = id h)) as [Hid|Hid].
      * rewrite !filter_cons_False by naive_solver. done.
      * rewrite !filter_cons_True by done. by f_equal.
  - intros Hnew. apply store_ext; [|done]. unfold deleteHabit. cbn [habits].
    rewrite (saveHabit_new h s) by done.
    rewrite filter_app, filter_cons_False, filter_nil, app_nil_r
      by naive_solver.
    by apply filter_id_fresh.
Qed.

End SaveRoundTrip.

Section Dialog.
Import JS Habits Calendar Editing.
Local Open Scope Z_scope.

(** No control of the dialog touches the id, the order or the creation
    date of the draft. *)
Lemma apply_edit_frame (draft : habit) (e : edit) :
  id (apply_edit draft e) = id draft ∧
  order (apply_edit draft e) = order draft ∧
  createdAt (apply_edit draft e) = createdAt draft.
Proof. by destruct e. Qed.

Lemma edits_frame (edits : list edit) (draft : habit) :
  id (foldl apply_edit draft edits) = id draft ∧
  order (foldl apply_edit draft edits) = order draft ∧
  createdAt (foldl apply_edit draft edits) = createdAt draft.
Proof.
  revert draft. induction edits as [|e edits IH]; intros draft; [done|].
  cbn [foldl]. destruct (IH (apply_edit draft e)) as (-> & -> & ->).
  apply apply_edit_frame.
Qed.

Lemma editDialog_cases (initial : habit) (edits : list edit) (s : store) :
  editDialog initial edits s = s ∨
  editDialog initial edits s = saveHabit (foldl apply_edit initial edits) s.
Proof.
  unfold editDialog, editDialogSave.
  destruct (_ || _); [by left|by right].
Qed.

Lemma dense_snoc (s : store) (h : habit) (c : gmap string (list string)) :
  dense s → order h = Z.of_nat (length (habits s)) →
  dense (mkStore (habits s ++ [h]) c).
Proof.
  unfold dense. cbn [habits]. intros Hd Ho.
  rewrite fmap_app, length_app. cbn [length fmap list_fmap].
  rewrite Hd, Ho. unfold dense_orders.
  replace (length (habits s) + 1)%nat with (S (length (habits s))) by lia.
  rewrite seq_S, fmap_app. done.
Qed.

(** X20: a habit created through [startCreate] and the edit dialog,
    with an id no stored habit has, into a store whose orders are
    0, ..., N-1: whatever the controls used, after Save the orders are
    dense again and the ledger is untouched; either nothing was saved
    (the name was left blank) or one habit was appended, of that id, of
    order N and created today; with no edit at all nothing is saved. *)
Theorem create_keeps_dense (uid picked today : string) (edits : list edit)
    (s : store) :
  dense s → (∀ x, x ∈ habits s → id x ≠ uid) →
  dense (editDialog (startCreate uid picked today s) edits s) ∧
  completions (editDialog (startCreate uid picked today s) edits s)
  = completions s ∧
  (editDialog (startCreate uid picked today s) edits s = s ∨
   ∃ h, habits (editDialog (startCreate uid picked today s) edits s)
        = habits s ++ [h] ∧
        id h = uid ∧ order h = Z.of_nat (length (habits s)) ∧
        createdAt h = today) ∧
  editDialog (startCreate uid picked today s) [] s = s.
Proof.
  intros Hd Hfresh.
  destruct (edits_frame edits (startCreate uid picked today s))
    as (Hid & Hord & Hcr).
  cbn [startCreate id order createdAt] in Hid, Hord, Hcr.
  split; [|split; [|split; [|done]]].
  - destruct (editDialog_cases (startCreate uid picked today s) edits s)
      as [-> | ->]; [done|].
    assert (Hnew : habits (saveHabit (foldl apply_edit
                     (startCreate uid picked today s) edits) s)
                   = habits s ++ [foldl apply_edit
                       (startCreate uid picked today s) edits])
      by (apply saveHabit_new; by rewrite Hid).
    unfold dense. rewrite Hnew. by apply (dense_snoc s _ ∅).
  - by destruct (editDialog_cases (startCreate uid picked today s) edits s)
      as [-> | ->].
  - destruct (editDialog_cases (startCreate uid picked today s) edits s)
      as [-> | ->]; [by left|right].
    eexists. split; [apply saveHabit_new; by rewrite Hid|done].
Qed.

Lemma create_keeps_dense_witness :
  dense (editDialog (startCreate "b" "bg-blue-100" "2024-01-05"
                       (mkStore [oneHabit] ∅))
           [SetName "Walk"; ClickDay 0] (mkStore [oneHabit] ∅)) ∧
  order <$> habits (editDialog (startCreate "b" "bg-blue-100" "2024-01-05"
                       (mkStore [oneHabit] ∅))
           [SetName "Walk"; ClickDay 0] (mkStore [oneHabit] ∅)) = [0; 1].
Proof.
  split; [|by vm_compute].
  apply (create_keeps_dense "b" "bg-blue-100" "2024-01-05"
           [SetName "Walk"; ClickDay 0] (mkStore [oneHabit] ∅)).
  - unfold dense; simpl; reflexivity.
  - intros x Hx. apply list_elem_of_singleton in Hx as ->. discriminate.
Defined.

(** X21: [handleAddHabit] with a name that [trim] does not empty (white
    space being what [String.prototype.trim] drops, the Unicode spaces
    included) and an id no stored habit has appends one habit, with the
    trimmed name and with the number of rows on display as its order; from a store whose
    orders are dense the result is dense exactly when that number is
    the number of stored habits, so a quick add made while some stored
    habit is not on display (archived, or filtered out) gives two
    habits the same order. *)
Theorem quick_add_order (uid picked currentDate : string) (shown : nat)
    (newHabitName : string) (s : store) :
  nonempty (trim newHabitName) = true →
  (∀ x, x ∈ habits s → id x ≠ uid) →
  (∃ h, habits (handleAddHabit uid picked currentDate shown newHabitName s)
        = habits s ++ [h] ∧
        id h = uid ∧ name h = trim newHabitName ∧
        order h = Z.of_nat shown ∧ createdAt h = currentDate) ∧
  (dense s →
   (dense (handleAddHabit uid picked currentDate shown newHabitName s)
    ↔ shown = length (habits s))).
Proof.
  intros Hname Hfresh. unfold handleAddHabit. rewrite Hname.
  set (h := mkHabit uid (trim newHabitName) picked _ _ currentDate
              (Z.of_nat shown) false).
  assert (Hnew : habits (saveHabit h s) = habits s ++ [h])
    by (by apply saveHabit_new).
  split; [by exists h|].
  intros Hd. split.
  - unfold dense. rewrite Hnew, fmap_app, length_app. cbn [length fmap list_fmap].
    intros Hp.
    assert (Hin : Z.of_nat (length (habits s))
                  ∈ (order <$> habits s) ++ [order h]).
    { rewrite Hp. unfold dense_orders. apply list_elem_of_fmap.
      exists (length (habits s)). split; [done|]. apply elem_of_seq. lia. }
    apply elem_of_app in Hin as [Hin|Hin].
    + unfold dense in Hd. rewrite Hd in Hin. unfold dense_orders in Hin.
      apply list_elem_of_fmap in Hin as (k & Hk & Hin).
      apply elem_of_seq in Hin. lia.
    + apply list_elem_of_singleton in Hin. cbn in Hin. lia.
  - intros ->. unfold dense. rewrite Hnew. by apply (dense_snoc s h ∅).
Qed.

Lemma quick_add_order_witness :
  length (filter (λ h, archived h = false)
            (habits (mkStore [archivedHabit] ∅))) = 0%nat ∧
  name <$> habits (handleAddHabit "b" "bg-blue-100" "2024-01-05" 0
                     (nbsp +:+ " Walk" +:+ ideographic_space)
                     (mkStore [archivedHabit] ∅)) = ["Read"; "Walk"] ∧
  ¬ dense (handleAddHabit "b" "bg-blue-100" "2024-01-05" 0
             (nbsp +:+ " Walk" +:+ ideographic_space)
             (mkStore [archivedHabit] ∅)).
Proof.
  split; [reflexivity|]. split; [by vm_compute|].
  intros Hd.
  apply (proj2 (quick_add_order "b" "bg-blue-100" "2024-01-05" 0
                  (nbsp +:+ " Walk" +:+ ideographic_space)
                  (mkStore [archivedHabit] ∅) eq_refl
                  ltac:(intros x Hx;
                        apply list_elem_of_singleton in Hx as ->;
                        discriminate))
           ltac:(unfold dense; simpl; reflexivity)) in Hd.
  discriminate Hd.
Defined.

Lemma nodup_id_eq (l : list habit) (x y : habit) :
  NoDup (id <$> l) → x ∈ l → y ∈ l → id x = id y → x = y.
Proof.
  induction l as [|z l IH]; intros Hnd Hx Hy Hid.
  - by apply elem_of_nil in Hx.
  - rewrite fmap_cons in Hnd. apply NoDup_cons in Hnd as [Hz Hnd].
    apply elem_of_cons in Hx as [-> | Hx];
      apply elem_of_cons in Hy as [-> | Hy]; [done|..].
    + destruct Hz. rewrite Hid. by apply list_elem_of_fmap_2.
    + destruct Hz. rewrite <- Hid. by apply list_elem_of_fmap_2.
    + by apply IH.
Qed.

(** Saving a new version of a stored habit, with its id and order, where
    ids are unique: orders and ids stay as they are, position by
    position, and the version saved takes the place of the habit. *)
Lemma saveHabit_edit (h h' : habit) (s : store) :
  h ∈ habits s → NoDup (id <$> habits s) →
  id h' = id h → order h' = order h →
  order <$> habits (saveHabit h' s) = order <$> habits s ∧
  id <$> habits (saveHabit h' s) = id <$> habits s ∧
  habits (saveHabit h' s)
  = (λ x, if decide (id x = id h) then h' else x) <$> habits s ∧
  (∀ x, x ∈ habits s → id x = id h → x = h).
Proof.
  intros Hin Hnd Hid Hord.
  rewrite (saveHabit_existing h' s) by (exists h; by rewrite Hid).
  assert (Hx : ∀ x, x ∈ habits s → id x = id h → x = h).
  { intros x Hx Hxid. by apply (nodup_id_eq (habits s)). }
  rewrite <- !list_fmap_compose. rewrite Hid.
  split; [|split; [|done]]; apply list_fmap_ext; intros k x Hk; cbn;
    apply list_elem_of_lookup_2 in Hk.
  - destruct (decide (id x = id h)) as [Hxid|]; [|done].
    rewrite (Hx x Hk Hxid). done.
  - destruct (decide (id x = id h)); [congruence|done].
Qed.

(** X22: editing a stored habit through the dialog, in a store whose
    ids are unique: whatever the controls used, after Save the orders
    and the ids are, position by position, what they were; the ledger
    is untouched, dense orders stay dense, and every other habit record
    is still there. *)
Theorem edit_keeps_orders (h : habit) (edits : list edit) (s : store) :
  h ∈ habits s → NoDup (id <$> habits s) →
  order <$> habits (editDialog h edits s) = order <$> habits s ∧
  id <$> habits (editDialog h edits s) = id <$> habits s ∧
  completions (editDialog h edits s) = completions s ∧
  (dense s → dense (editDialog h edits s)) ∧
  (∀ x, x ≠ h → x ∈ habits s → x ∈ habits (editDialog h edits s)).
Proof.
  intros Hin Hnd.
  destruct (edits_frame edits h) as (Hid & Hord & _).
  destruct (editDialog_cases h edits s) as [-> | ->].
  { repeat split; done. }
  destruct (saveHabit_edit h (foldl apply_edit h edits) s Hin Hnd Hid Hord)
    as (Ho & Hi & Hh & Hu).
  split; [done|]. split; [done|]. split; [done|]. split.
  - intros Hd. unfold dense in *. rewrite Ho.
    replace (length (habits (saveHabit (foldl apply_edit h edits) s)))
      with (length (habits s)); [done|].
    by rewrite <- (length_fmap order (habits (saveHabit _ s))), Ho,
      length_fmap.
  - intros x Hne Hx. rewrite Hh. apply list_elem_of_fmap.
    exists x. rewrite decide_False; [done|]. intros Hxid. by apply Hne, Hu.
Qed.

Lemma edit_keeps_orders_witness :
  order <$> habits (editDialog exHabit [SetName "Jog"; ClickDay 3; ClickArchive]
                      exStore)
  = order <$> habits exStore ∧
  name <$> habits (editDialog exHabit [SetName "Jog"; ClickDay 3; ClickArchive]
                     exStore) = ["Jog"].
Proof.
  split; [|by vm_compute].
  apply (edit_keeps_orders exHabit [SetName "Jog"; ClickDay 3; ClickArchive]
           exStore).
  - apply list_elem_of_singleton. reflexivity.
  - simpl. apply NoDup_singleton.
Defined.

(** X23: the Archive button on a stored habit, in a store whose ids are
    unique, puts the version with the flag flipped in the store and
    leaves orders and ledger; pressing it again on that version gives
    the store back; and once archived the habit is not scheduled on any
    date, in any zone. *)
Theorem onArchive_round_trip (h : habit) (s : store) :
  h ∈ habits s → NoDup (id <$> habits s) →
  apply_edit h ClickArchive ∈ habits (onArchive h s) ∧
  order <$> habits (onArchive h s) = order <$> habits s ∧
  completions (onArchive h s) = completions s ∧
  onArchive (apply_edit h ClickArchive) (onArchive h s) = s ∧
  (archived h = false →
   ∀ tz d, isScheduled tz (apply_edit h ClickArchive) d = false).
Proof.
  intros Hin Hnd. unfold onArchive.
  set (h' := apply_edit h ClickArchive).
  assert (Hh'' : apply_edit h' ClickArchive = h)
    by (subst h'; destruct h; cbn; by rewrite negb_involutive).
  destruct (saveHabit_edit h h' s Hin Hnd eq_refl eq_refl)
    as (Ho & Hi & Hh & Hu).
  assert (Hin' : h' ∈ habits (saveHabit h' s)).
  { rewrite Hh. apply list_elem_of_fmap. exists h. by rewrite decide_True. }
  split; [done|]. split; [done|]. split; [done|]. split.
  - rewrite Hh''. apply store_ext; [|done].
    destruct (saveHabit_edit h' h (saveHabit h' s) Hin'
                ltac:(by rewrite Hi) eq_refl eq_refl) as (_ & _ & -> & _).
    rewrite Hh, <- list_fmap_compose.
    rewrite <- (list_fmap_id (habits s)) at 2.
    apply list_fmap_ext. intros k x Hk. cbn.
    apply list_elem_of_lookup_2 in Hk.
    destruct (decide (id x = id h)) as [Hxid|Hne].
    + rewrite decide_True by done. symmetry. by apply Hu.
    + by rewrite decide_False.
  - intros Ha tz d. unfold isScheduled. subst h'. cbn [apply_edit archived].
    rewrite Ha. apply andb_false_r.
Qed.

Lemma onArchive_round_trip_witness :
  onArchive (apply_edit exHabit ClickArchive) (onArchive exHabit exStore)
  = exStore.
Proof.
  apply (onArchive_round_trip exHabit exStore).
  - apply list_elem_of_singleton. reflexivity.
  - simpl. apply NoDup_singleton.
Defined.

(** With unique ids, a confirmed [deleteHabit] takes the one record of
    that id out: the orders before are its order and the orders left. *)
Lemma deleteHabit_orders (h : habit) (s : store) :
  NoDup (id <$> habits s) → h ∈ habits s →
  order <$> habits s
  ≡ₚ order h :: (order <$> habits (deleteHabit true (id h) s)) ∧
  S (length (habits (deleteHabit true (id h) s))) = length (habits s).
Proof.
  intros Hnd Hin. unfold deleteHabit. cbn [habits].
  apply list_elem_of_split in Hin as (l1 & l2 & Hs). rewrite Hs in *.
  rewrite fmap_app, fmap_cons in Hnd.
  apply NoDup_app in Hnd as (_ & Hdis & Hnd2).
  apply NoDup_cons in Hnd2 as [Hni2 _].
  rewrite filter_app, filter_cons_False by naive_solver.
  rewrite (filter_id_fresh (id h) l1), (filter_id_fresh (id h) l2).
  - rewrite !fmap_app, fmap_cons, !length_app. cbn [length].
    split; [|lia]. by rewrite Permutation_middle.
  - intros x Hx Hid. apply Hni2. rewrite <- Hid. by apply list_elem_of_fmap_2.
  - intros x Hx Hid. apply (Hdis (id x)); [by apply list_elem_of_fmap_2|].
    rewrite Hid. by left.
Qed.

(** X30: [deleteHabit] does not renumber.  From a store of unique ids
    and dense orders, a confirmed delete of a habit other than the one
    of highest order leaves orders that are not dense; and a habit then
    created through [startCreate] and the dialog, if it is saved, gets
    an order that a stored habit already has. *)
Theorem delete_then_create_collides (h : habit) (uid picked today : string)
    (edits : list edit) (s : store) :
  dense s → NoDup (id <$> habits s) → h ∈ habits s →
  order h ≠ Z.of_nat (length (habits s)) - 1 →
  (∀ x, x ∈ habits s → id x ≠ uid) →
  ¬ dense (deleteHabit true (id h) s) ∧
  (editDialog (startCreate uid picked today (deleteHabit true (id h) s))
     edits (deleteHabit true (id h) s)
   = deleteHabit true (id h) s ∨
   ¬ NoDup (order <$>
            habits (editDialog
                      (startCreate uid picked today
                         (deleteHabit true (id h) s))
                      edits (deleteHabit true (id h) s)))).
Proof.
  intros Hd Hnd Hin Hlast Hfresh.
  destruct (deleteHabit_orders h s Hnd Hin) as [Hperm Hlen].
  set (s1 := deleteHabit true (id h) s) in *.
  assert (Htop : Z.of_nat (length (habits s1)) ∈ order <$> habits s1).
  { assert (Hmem : Z.of_nat (length (habits s1)) ∈ order <$> habits s).
    { unfold dense in Hd. rewrite Hd. unfold dense_orders. apply list_elem_of_fmap.
      exists (length (habits s1)). split; [done|]. apply elem_of_seq. lia. }
    rewrite Hperm in Hmem. apply elem_of_cons in Hmem as [Hmem|Hmem]; [|done].
    lia. }
  split.
  - intros Hd1. unfold dense in Hd1. rewrite Hd1 in Htop. unfold dense_orders in Htop.
    apply list_elem_of_fmap in Htop as (k & Hk & Hseq).
    apply elem_of_seq in Hseq. lia.
  - destruct (edits_frame edits (startCreate uid picked today s1))
      as (Hid & Hord & _).
    cbn [startCreate id order] in Hid, Hord.
    destruct (editDialog_cases (startCreate uid picked today s1) edits s1)
      as [-> | ->]; [by left|right].
    rewrite saveHabit_new.
    + rewrite fmap_app. cbn [fmap list_fmap]. rewrite Hord.
      intros Hdup. apply NoDup_app in Hdup as (_ & Hdis & _).
      apply (Hdis _ Htop). by left.
    + intros x Hx. rewrite Hid. apply Hfresh.
      subst s1. unfold deleteHabit in Hx. cbn [habits] in Hx.
      by apply list_elem_of_filter in Hx as [_ Hx].
Qed.

Lemma delete_then_create_collides_witness :
  ¬ dense (deleteHabit true "a"
             (mkStore [oneHabit; with_order exHabit 1] ∅)).
Proof.
  apply (delete_then_create_collides oneHabit "n" "c" "2024-01-05" []
           (mkStore [oneHabit; with_order exHabit 1] ∅)).
  - unfold dense; simpl; reflexivity.
  - simpl. apply NoDup_cons. split.
    + intros Hin. apply list_elem_of_singleton in Hin. discriminate.
    + apply NoDup_singleton.
  - by left.
  - simpl. lia.
  - intros x Hx Hid.
    apply elem_of_cons in Hx as [-> | Hx]; [discriminate|].
    apply list_elem_of_singleton in Hx as ->. discriminate.
Defined.

End Dialog.

Section RepeatDays.
Import JS Habits Calendar Editing.
Local Open Scope Z_scope.

Lemma elem_of_new_Set_numbers (x : Z) (l : list Z) :
  x ∈ new_Set_numbers l ↔ x ∈ l.
Proof.
  induction l as [|y l IH]; cbn [new_Set_numbers]; [done|].
  rewrite !elem_of_cons, list_elem_of_filter, IH.
  destruct (decide (x = y)); naive_solver.
Qed.

Lemma NoDup_new_Set_numbers (l : list Z) : NoDup (new_Set_numbers l).
Proof.
  induction l as [|y l IH]; cbn [new_Set_numbers]; [constructor|].
  apply NoDup_cons. split.
  - rewrite list_elem_of_filter. naive_solver.
  - by apply NoDup_filter.
Qed.

Lemma insert_text_perm (x : Z) (l : list Z) : insert_text x l ≡ₚ x :: l.
Proof.
  induction l as [|y l IH]; cbn [insert_text]; [done|].
  destruct (text_le x y); [done|]. rewrite IH. apply Permutation_swap.
Qed.

Lemma sort_default_perm (l : list Z) : sort_default l ≡ₚ l.
Proof.
  induction l as [|x l IH]; [done|]. cbn [sort_default foldr].
  rewrite insert_text_perm. by f_equiv.
Qed.

(** On the days 0 to 6 the order of the texts is the order of the
    numbers. *)
Lemma text_le_days (a b : Z) :
  0 ≤ a ≤ 6 → 0 ≤ b ≤ 6 → text_le a b = (a <=? b).
Proof.
  intros Ha Hb.
  assert (Hac : a = 0 ∨ a = 1 ∨ a = 2 ∨ a = 3 ∨ a = 4 ∨ a = 5 ∨ a = 6) by lia.
  assert (Hbc : b = 0 ∨ b = 1 ∨ b = 2 ∨ b = 3 ∨ b = 4 ∨ b = 5 ∨ b = 6) by lia.
  destruct Hac as [-> | [-> | [-> | [-> | [-> | [-> | ->]]]]]];
    destruct Hbc as [-> | [-> | [-> | [-> | [-> | [-> | ->]]]]]];
    reflexivity.
Qed.

Lemma insert_text_sorted (x : Z) (l : list Z) :
  0 ≤ x ≤ 6 → Forall (λ d, 0 ≤ d ≤ 6) l → x ∉ l →
  StronglySorted Z.lt l → StronglySorted Z.lt (insert_text x l).
Proof.
  intros Hx. induction l as [|y l IH]; intros Hl Hni Hs; cbn [insert_text].
  - repeat constructor.
  - apply Forall_cons in Hl as [Hy Hl].
    apply not_elem_of_cons in Hni as [Hne Hni].
    apply StronglySorted_inv in Hs as [Hs Hall].
    rewrite (text_le_days x y Hx Hy).
    destruct (Z.leb_spec x y).
    + constructor; [by constructor|]. constructor; [lia|].
      eapply Forall_impl; [exact Hall|]. intros z Hz. cbn in *. lia.
    + constructor; [by apply IH|].
      rewrite (insert_text_perm x l). constructor; [lia|done].
Qed.

Lemma sort_default_sorted (l : list Z) :
  Forall (λ d, 0 ≤ d ≤ 6) l → NoDup l → StronglySorted Z.lt (sort_default l).
Proof.
  induction l as [|x l IH]; intros Hl Hnd; [constructor|].
  apply Forall_cons in Hl as [Hx Hl]. apply NoDup_cons in Hnd as [Hni Hnd].
  cbn [sort_default foldr]. apply insert_text_sorted; [done|..].
  - by rewrite (sort_default_perm l).
  - by rewrite (sort_default_perm l).
  - by apply IH.
Qed.

Lemma StronglySorted_lt_NoDup (l : list Z) : StronglySorted Z.lt l → NoDup l.
Proof.
  induction 1 as [|x l Hs IH Hall]; [constructor|].
  apply NoDup_cons. split; [|done]. intros Hin.
  rewrite Forall_forall in Hall. specialize (Hall x Hin). lia.
Qed.

Lemma StronglySorted_lt_filter (P : Z → Prop) `{∀ x, Decision (P x)}
    (l : list Z) :
  StronglySorted Z.lt l → StronglySorted Z.lt (filter P l).
Proof.
  induction 1 as [|x l Hs IH Hall]; [constructor|].
  destruct (decide (P x)).
  - rewrite filter_cons_True by done. constructor; [done|].
    rewrite Forall_forall in Hall. apply Forall_forall.
    intros y Hy. apply list_elem_of_filter in Hy as [_ Hy]. by apply Hall.
  - by rewrite filter_cons_False.
Qed.

Lemma StronglySorted_lt_unique (l1 l2 : list Z) :
  StronglySorted Z.lt l1 → StronglySorted Z.lt l2 →
  (∀ x, x ∈ l1 ↔ x ∈ l2) → l1 = l2.
Proof.
  intros H1 H2 Hm.
  apply (StronglySorted_unique_strong Z.lt); [intros; lia|done..|].
  apply NoDup_Permutation; [by apply StronglySorted_lt_NoDup..|done].
Qed.

(** X24: in the edit dialog, the button of weekday [i] (0 to 6) on a
    draft whose repeat days are all from 0 to 6 flips the membership of
    [i] and of no other day, and keeps the days within 0 to 6; adding a
    day leaves the days in increasing order without repetition; and on
    a draft whose days are in increasing order, the order is kept and a
    second click gives back the list of days as it was. *)
Theorem clickDay_toggles (i : Z) (draft : habit) :
  0 ≤ i ≤ 6 → Forall (λ d, 0 ≤ d ≤ 6) (repeatDays draft) →
  (∀ d, d ∈ repeatDays (apply_edit draft (ClickDay i)) ↔
        if decide (d = i) then i ∉ repeatDays draft
        else d ∈ repeatDays draft) ∧
  Forall (λ d, 0 ≤ d ≤ 6) (repeatDays (apply_edit draft (ClickDay i))) ∧
  (i ∉ repeatDays draft →
   StronglySorted Z.lt (repeatDays (apply_edit draft (ClickDay i)))) ∧
  (StronglySorted Z.lt (repeatDays draft) →
   StronglySorted Z.lt (repeatDays (apply_edit draft (ClickDay i))) ∧
   repeatDays (apply_edit (apply_edit draft (ClickDay i)) (ClickDay i))
   = repeatDays draft).
Proof.
  intros Hi Hl.
  assert (Hmem : ∀ h d, d ∈ repeatDays (apply_edit h (ClickDay i)) ↔
            if decide (d = i) then i ∉ repeatDays h else d ∈ repeatDays h).
  { intros h d. cbn [apply_edit]. unfold setDay.
    cbn [with_repeatDays repeatDays].
    case_bool_decide as Hin; cbn [negb].
    - rewrite list_elem_of_filter. destruct (decide (d = i)); naive_solver.
    - rewrite sort_default_perm, elem_of_new_Set_numbers, elem_of_app,
        list_elem_of_singleton.
      destruct (decide (d = i)); naive_solver. }
  assert (Hrange : Forall (λ d, 0 ≤ d ≤ 6)
                     (repeatDays (apply_edit draft (ClickDay i)))).
  { apply Forall_forall. intros d Hd. apply Hmem in Hd.
    rewrite Forall_forall in Hl.
    destruct (decide (d = i)) as [->|]; [done|by apply Hl]. }
  assert (Hon : ∀ h, Forall (λ d, 0 ≤ d ≤ 6) (repeatDays h) →
            i ∉ repeatDays h →
            StronglySorted Z.lt (repeatDays (apply_edit h (ClickDay i)))).
  { intros h Hh Hni. cbn [apply_edit]. unfold setDay.
    cbn [with_repeatDays repeatDays].
    rewrite bool_decide_eq_false_2 by done. cbn [negb].
    apply sort_default_sorted; [|apply NoDup_new_Set_numbers].
    apply Forall_forall. intros d Hd.
    apply elem_of_new_Set_numbers, elem_of_app in Hd as [Hd|Hd].
    - rewrite Forall_forall in Hh. by apply Hh.
    - by apply list_elem_of_singleton in Hd as ->. }
  assert (Hoff : ∀ h, i ∈ repeatDays h →
            repeatDays (apply_edit h (ClickDay i))
            = filter (λ x, x ≠ i) (repeatDays h)).
  { intros h Hin. cbn [apply_edit]. unfold setDay.
    cbn [with_repeatDays repeatDays].
    by rewrite bool_decide_eq_true_2 by done. }
  assert (Hsorted : StronglySorted Z.lt (repeatDays draft) →
            StronglySorted Z.lt (repeatDays (apply_edit draft (ClickDay i)))).
  { intros Hs. destruct (decide (i ∈ repeatDays draft)) as [Hin|Hni];
      [|by apply Hon].
    rewrite Hoff by done. by apply StronglySorted_lt_filter. }
  split; [by apply Hmem|]. split; [done|]. split; [by apply Hon|].
  intros Hs. split; [by apply Hsorted|].
  apply StronglySorted_lt_unique; [|done|].
  - destruct (decide (i ∈ repeatDays draft)) as [Hin|Hni].
    + apply Hon; [done|]. rewrite Hmem, decide_True by done. naive_solver.
    + assert (Hin' : i ∈ repeatDays (apply_edit draft (ClickDay i)))
        by (by rewrite Hmem, decide_True).
      rewrite Hoff by done. apply StronglySorted_lt_filter. by apply Hon.
  - intros d. rewrite (Hmem (apply_edit draft (ClickDay i)) d).
    destruct (decide (d = i)) as [->|Hne].
    + rewrite (Hmem draft i), decide_True by done.
      destruct (decide (i ∈ repeatDays draft)); naive_solver.
    + by rewrite (Hmem draft d), decide_False by done.
Qed.

Lemma clickDay_toggles_witness :
  repeatDays (apply_edit (apply_edit exHabit (ClickDay 3)) (ClickDay 3))
  = repeatDays exHabit ∧
  repeatDays (apply_edit exHabit (ClickDay 3)) = [0; 1; 2; 4; 5; 6].
Proof.
  split; [|by vm_compute].
  apply (clickDay_toggles 3 exHabit ltac:(lia)).
  - simpl. repeat (constructor; [lia|]). constructor.
  - simpl. repeat (constructor; [|repeat (constructor; [lia|]); constructor]).
    constructor.
Defined.

Lemma name_of_cases (d : Z) :
  name_of d ∈ [""; "Sun"; "Mon"; "Tue"; "Wed"; "Thu"; "Fri"; "Sat"].
Proof.
  unfold name_of. destruct (Z.ltb_spec d 0); [by left|].
  destruct (Z.to_nat d) as [|[|[|[|[|[|[|k]]]]]]]; cbn;
    repeat ((by left) || right).
Qed.

(** A list of day names joined by commas is none of the three words. *)
Lemma join_names_not_word (days : list Z) :
  join ", " (name_of <$> days) ≠ "Daily" ∧
  join ", " (name_of <$> days) ≠ "Weekdays" ∧
  join ", " (name_of <$> days) ≠ "Weekends".
Proof.
  destruct days as [|d days]; [done|].
  rewrite fmap_cons. pose proof (name_of_cases d) as Hd.
  destruct (name_of <$> days) as [|x r]; cbn [join];
    repeat (apply elem_of_cons in Hd as [-> | Hd]; [done|]);
    by apply elem_of_nil in Hd.
Qed.

Lemma sorted_days_all (l : list Z) :
  StronglySorted Z.lt l → Forall (λ d, 0 ≤ d ≤ 6) l →
  (length l = 7%nat ↔ l = [0; 1; 2; 3; 4; 5; 6]).
Proof.
  intros Hs Hl. split; [|by intros ->].
  intros Hlen.
  destruct l as [|a [|b [|c [|d [|e [|f [|g [|]]]]]]]]; try done.
  repeat match goal with
         | H : StronglySorted _ (_ :: _) |- _ =>
             apply StronglySorted_inv in H as [? ?]
         | H : Forall _ (_ :: _) |- _ => apply Forall_cons in H as [? ?]
         end.
  repeat f_equal; lia.
Qed.

(** X25: [repeatLabel] is "Daily" exactly for an array of seven
    entries, "Weekdays" exactly for [1, 2, 3, 4, 5] and "Weekends"
    exactly for [0, 6] (a list of day names is never one of these
    words); so for repeat days in increasing order and within 0 to 6,
    as the dialog keeps them, it is "Daily" exactly when every weekday
    is selected. *)
Theorem repeatLabel_words (days : list Z) :
  (repeatLabel days = "Daily" ↔ length days = 7%nat) ∧
  (repeatLabel days = "Weekdays" ↔ days = [1; 2; 3; 4; 5]) ∧
  (repeatLabel days = "Weekends" ↔ days = [0; 6]) ∧
  (StronglySorted Z.lt days → Forall (λ d, 0 ≤ d ≤ 6) days →
   (repeatLabel days = "Daily" ↔ ∀ d, 0 ≤ d ≤ 6 → d ∈ days)).
Proof.
  destruct (join_names_not_word days) as (Hj1 & Hj2 & Hj3).
  assert (H1 : repeatLabel days = "Daily" ↔ length days = 7%nat).
  { unfold repeatLabel. destruct (Nat.eqb_spec (length days) 7); [done|].
    repeat case_bool_decide; split; try done; intros; congruence. }
  split; [done|]. split; [|split].
  - unfold repeatLabel. destruct (Nat.eqb_spec (length days) 7) as [Hl|Hl].
    + split; [done|]. by intros ->.
    + repeat case_bool_decide; split; try done; intros; congruence.
  - unfold repeatLabel. destruct (Nat.eqb_spec (length days) 7) as [Hl|Hl].
    + split; [done|]. by intros ->.
    + repeat case_bool_decide; split; try done; intros; congruence.
  - intros Hs Hr. rewrite H1, (sorted_days_all days Hs Hr). split.
    + intros -> d Hd.
      assert (Hc : d = 0 ∨ d = 1 ∨ d = 2 ∨ d = 3 ∨ d = 4 ∨ d = 5 ∨ d = 6)
        by lia.
      repeat (destruct Hc as [-> | Hc]; [repeat ((by left) || right)|]).
      subst. repeat ((by left) || right).
    + intros Hall. apply StronglySorted_lt_unique; [done|..].
      * repeat (constructor; [|repeat (constructor; [lia|]); constructor]).
        constructor.
      * intros d. split.
        -- intros Hd. rewrite Forall_forall in Hr. specialize (Hr d Hd).
           assert (Hc : d = 0 ∨ d = 1 ∨ d = 2 ∨ d = 3 ∨ d = 4 ∨ d = 5 ∨ d = 6)
             by lia.
           repeat (destruct Hc as [-> | Hc]; [repeat ((by left) || right)|]).
           subst. repeat ((by left) || right).
        -- intros Hd. apply Hall.
           repeat (apply elem_of_cons in Hd as [-> | Hd]; [lia|]).
           by apply elem_of_nil in Hd.
Qed.

End RepeatDays.

Section DayWindow.
Import JS Habits Calendar Week.
Local Open Scope Z_scope.

Lemma slice_nonneg {A} (a b : Z) (l : list A) :
  0 ≤ a →  0 ≤ b →
  slice a b l
  = take (Z.to_nat (Z.min b (Z.of_nat (length l)))
          - Z.to_nat (Z.min a (Z.of_nat (length l))))
         (drop (Z.to_nat (Z.min a (Z.of_nat (length l)))) l).
Proof.
  intros Ha Hb. unfold slice, splice_start.
  destruct (Z.ltb_spec a 0); [lia|]. destruct (Z.ltb_spec b 0); [lia|]. done.
Qed.

Lemma findIndex_spec (d : string) (days : list string) :
  (findIndex d days = -1 ∧ d ∉ days) ∨
  (∃ i, findIndex d days = Z.of_nat i ∧ days !! i = Some d).
Proof.
  unfold findIndex. destruct (list_find _ days) as [[i x]|] eqn:Hf.
  - right. apply list_find_Some in Hf as (Hi & -> & _). by exists i.
  - left. split; [done|]. apply list_find_None in Hf.
    rewrite Forall_forall in Hf. intros Hin. by apply (Hf d).
Qed.

(** X26: the days [calculateVisibleDays] puts on display are a run of
    consecutive entries of [days]; their number is the smaller of
    [days.length] and [max(7, min(maxDays, days.length))], whatever the
    width measured; and the current date is on display whenever it is
    in [days]. *)
Theorem visible_days_window (containerWidth : Z) (days : list string)
    (currentDate : string) :
  (∃ k, calculateVisibleDays containerWidth days currentDate
        = take (length (calculateVisibleDays containerWidth days currentDate))
               (drop k days)) ∧
  Z.of_nat (length (calculateVisibleDays containerWidth days currentDate))
  = Z.min (Z.max 7 (Z.min ((containerWidth - 224 - 32) / 48)
                          (Z.of_nat (length days))))
          (Z.of_nat (length days)) ∧
  (currentDate ∈ days →
   currentDate ∈ calculateVisibleDays containerWidth days currentDate).
Proof.
  unfold calculateVisibleDays.
  set (len := Z.of_nat (length days)).
  set (want := Z.max 7 (Z.min ((containerWidth - 224 - 32) / 48) len)).
  assert (Hlen : 0 ≤ len) by (subst len; lia).
  assert (Hwant : 7 ≤ want) by (subst want; lia).
  destruct (findIndex_spec currentDate days) as [[-> Hni] | (i & -> & Hi)].
  - change (-1 =? -1) with true. cbn match.
    rewrite slice_nonneg by lia. fold len.
    split; [|split; [|done]].
    + eexists. rewrite length_take, length_drop.
      rewrite Nat.min_l at 1 by lia. done.
    + rewrite length_take, length_drop. lia.
  - destruct (Z.eqb_spec (Z.of_nat i) (-1)); [lia|].
    apply lookup_lt_Some in Hi as Hilt.
    set (start0 := Z.max 0 (Z.of_nat i - want / 2)).
    set (end_ := Z.min len (start0 + want)).
    set (start := if end_ - start0 <? want then Z.max 0 (end_ - want)
                  else start0).
    assert (Hhalf : 0 ≤ want / 2 ∧ want / 2 < want)
      by (Z.div_mod_to_equations; lia).
    assert (Hs0 : 0 ≤ start0 ≤ Z.of_nat i) by (subst start0; lia).
    assert (He : Z.of_nat i < end_ ≤ len) by (subst end_ start0 len; lia).
    assert (Hs : 0 ≤ start ≤ Z.of_nat i ∧
                 end_ - start = Z.min want len).
    { subst start. destruct (Z.ltb_spec (end_ - start0) want);
        subst end_ start0; lia. }
    rewrite slice_nonneg by lia. fold len.
    replace (Z.min end_ len) with end_ by lia.
    replace (Z.min start len) with start by lia.
    split; [|split].
    + eexists. rewrite length_take, length_drop.
      rewrite Nat.min_l at 1 by lia. done.
    + rewrite length_take, length_drop. subst len. lia.
    + intros _. apply list_elem_of_lookup. exists (i - Z.to_nat start)%nat.
      rewrite lookup_take_lt by lia. rewrite lookup_drop.
      replace (Z.to_nat start + (i - Z.to_nat start))%nat with i by lia.
      done.
Qed.

End DayWindow.

Section Persisted.
Import Habits Storage.
Local Open Scope Z_scope.

(** X27: [loadStore] on what [saveStore] wrote gives the store back,
    habit for habit, with the orders as written (an order of 0
    included); on parsed habits it keeps length and ledger, keeps an
    order that is present and gives a habit without one its index, so
    habits stored without orders come back with the orders
    0, ..., N-1; with no item, or one that does not parse, it gives the
    seven seeded habits, of orders 0 to 6, and an empty ledger. *)
Theorem loadStore_round_trip (uid : nat → string) (today : string) :
  (∀ s, loadStore uid today (saveStore s) = s) ∧
  (∀ hs c k p,
     hs !! k = Some p →
     order <$> habits (loadStore uid today (Item hs c)) !! k
     = Some (default (Z.of_nat k) (p_order p))) ∧
  (∀ hs c, Forall (λ p, p_order p = None) hs →
           order <$> habits (loadStore uid today (Item hs c))
           = dense_orders (length hs)) ∧
  (∀ hs c, length (habits (loadStore uid today (Item hs c))) = length hs ∧
           completions (loadStore uid today (Item hs c)) = c) ∧
  loadStore uid today NoItem = seeded uid today ∧
  loadStore uid today BadItem = seeded uid today ∧
  order <$> habits (seeded uid today) = dense_orders 7 ∧
  completions (seeded uid today) = ∅.
Proof.
  split; [|split; [|split; [|split; [|done]]]].
  - intros [hs c]. unfold saveStore, loadStore. cbn [habits completions].
    f_equal. apply list_eq. intros k.
    rewrite list_lookup_imap, list_lookup_fmap.
    destruct (hs !! k) as [h|]; [|done]. cbn. by destruct h.
  - intros hs c k p Hk. cbn [loadStore habits].
    by rewrite list_lookup_imap, Hk.
  - intros hs c Hall. cbn [loadStore habits]. apply list_eq. intros k.
    unfold dense_orders.
    rewrite list_lookup_fmap, list_lookup_imap, list_lookup_fmap.
    destruct (hs !! k) as [p|] eqn:Hk.
    + rewrite Forall_forall in Hall.
      rewrite lookup_seq_lt by (by eapply lookup_lt_Some).
      cbn. by rewrite (Hall p) by (by eapply list_elem_of_lookup_2).
    + rewrite lookup_seq_ge by (by apply lookup_ge_None). done.
  - intros hs c. cbn [loadStore habits completions].
    by rewrite length_imap.
Qed.

End Persisted.

Section OnScreen.
Import JS Habits Calendar Editing.
Local Open Scope Z_scope.

Lemma insert_sorted_sorted (h : habit) (l : list habit) :
  StronglySorted (λ a b, order a ≤ order b) l →
  StronglySorted (λ a b, order a ≤ order b) (insert_sorted h l).
Proof.
  induction 1 as [|x l Hs IH Hall]; cbn [insert_sorted].
  - repeat constructor.
  - destruct (Z.leb_spec (order h) (order x)).
    + constructor; [by constructor|]. constructor; [done|].
      eapply Forall_impl; [exact Hall|]. intros y Hy. cbn in *. lia.
    + constructor; [done|]. rewrite (insert_sorted_perm h l).
      constructor; [lia|done].
Qed.

Lemma sort_by_order_sorted (l : list habit) :
  StronglySorted (λ a b, order a ≤ order b) (sort_by_order l).
Proof.
  induction l as [|x l IH]; [constructor|].
  cbn [sort_by_order foldr]. by apply insert_sorted_sorted.
Qed.

(** A list in order already is left as it is: the sort is stable. *)
Lemma sort_by_order_id (l : list habit) :
  StronglySorted (λ a b, order a ≤ order b) l → sort_by_order l = l.
Proof.
  induction 1 as [|x l Hs IH Hall]; [done|].
  cbn [sort_by_order foldr]. fold (sort_by_order l). rewrite IH.
  destruct l as [|y l]; [done|]. cbn [insert_sorted].
  apply Forall_cons in Hall as [Hxy _].
  by destruct (Z.leb_spec (order x) (order y)); [|lia].
Qed.

Lemma sorted_filter (P : habit → Prop) `{∀ x, Decision (P x)}
    (l : list habit) :
  StronglySorted (λ a b, order a ≤ order b) l →
  StronglySorted (λ a b, order a ≤ order b) (filter P l).
Proof.
  induction 1 as [|x l Hs IH Hall]; [constructor|].
  destruct (decide (P x)).
  - rewrite filter_cons_True by done. constructor; [done|].
    rewrite Forall_forall in Hall. apply Forall_forall.
    intros y Hy. apply list_elem_of_filter in Hy as [_ Hy]. by apply Hall.
  - by rewrite filter_cons_False.
Qed.

Lemma includes_empty (s : string) : includes s "" = true.
Proof. by destruct s. Qed.

(** X28: the [habits] memo is in increasing order of [order]; it holds
    exactly the stored habits that pass the filter and whose lower-cased
    name includes the lower-cased query; with the filter "all" and a
    query whose lower case is empty it holds them all; and when the
    stored habits are in order already it keeps their stored order. *)
Theorem habits_memo_sorted (toLowerCase : string → string)
    (filter_ : shown) (query : string) (s : store) :
  StronglySorted (λ a b, order a ≤ order b)
    (habits_memo toLowerCase filter_ query s) ∧
  (∀ h, h ∈ habits_memo toLowerCase filter_ query s ↔
        h ∈ habits s ∧ passes filter_ h = true ∧
        includes (toLowerCase (name h)) (toLowerCase query) = true) ∧
  (toLowerCase query = "" →
   habits_memo toLowerCase all query s ≡ₚ habits s) ∧
  (StronglySorted (λ a b, order a ≤ order b) (habits s) →
   habits_memo toLowerCase filter_ query s
   = filter (λ h, includes (toLowerCase (name h)) (toLowerCase query) = true)
       (filter (λ h, passes filter_ h = true) (habits s))).
Proof.
  unfold habits_memo. split; [apply sort_by_order_sorted|].
  split; [|split].
  - intros h. rewrite sort_by_order_perm, !list_elem_of_filter. naive_solver.
  - intros Hq. rewrite sort_by_order_perm, Hq.
    assert (Hall : ∀ l : list habit,
              filter (λ h, includes (toLowerCase (name h)) "" = true)
                (filter (λ h, passes all h = true) l) = l).
    { induction l as [|x l IH]; [done|].
      rewrite filter_cons_True by done.
      rewrite filter_cons_True by apply includes_empty. by f_equal. }
    by rewrite Hall.
  - intros Hs. apply sort_by_order_id. by do 2 apply sorted_filter.
Qed.

Lemma count_flip (P Q : habit → Prop) `{∀ x, Decision (P x)}
    `{∀ x, Decision (Q x)} (h : habit) (l : list habit) :
  NoDup (id <$> l) → h ∈ l →
  (∀ x, x ∈ l → id x ≠ id h → (Q x ↔ P x)) → (Q h ↔ ¬ P h) →
  (P h → S (length (filter Q l)) = length (filter P l)) ∧
  (¬ P h → length (filter Q l) = S (length (filter P l))).
Proof.
  intros Hnd Hin Hother Hflip.
  apply list_elem_of_split in Hin as (l1 & l2 & ->).
  rewrite fmap_app, fmap_cons in Hnd.
  apply NoDup_app in Hnd as (_ & Hdis & Hnd2).
  apply NoDup_cons in Hnd2 as [Hni2 _].
  assert (Hsame : ∀ l' : list habit,
            (∀ x, x ∈ l' → x ∈ l1 ++ h :: l2 ∧ id x ≠ id h) →
            length (filter Q l') = length (filter P l')).
  { induction l' as [|x l' IH]; intros Hl'; [done|].
    destruct (Hl' x ltac:(left)) as [Hx Hne].
    pose proof (Hother x Hx Hne) as Hqp.
    assert (Hrest : length (filter Q l') = length (filter P l'))
      by (apply IH; intros y Hy; apply Hl'; by right).
    destruct (decide (P x)) as [Hp|Hp].
    - rewrite !filter_cons_True by tauto. cbn [length]. by f_equal.
    - rewrite !filter_cons_False by tauto. done. }
  assert (H1 : length (filter Q l1) = length (filter P l1)).
  { apply Hsame. intros x Hx. split; [apply elem_of_app; by left|].
    intros Hid. apply (Hdis (id x)); [by apply list_elem_of_fmap_2|].
    rewrite Hid. by left. }
  assert (H2 : length (filter Q l2) = length (filter P l2)).
  { apply Hsame. intros x Hx.
    split; [apply elem_of_app; right; by right|].
    intros Hid. apply Hni2. rewrite <- Hid. by apply list_elem_of_fmap_2. }
  rewrite !filter_app, !length_app.
  split; intros Hp.
  - rewrite (filter_cons_True P) by done.
    rewrite (filter_cons_False Q) by tauto. cbn [length]. lia.
  - rewrite (filter_cons_False P) by done.
    rewrite (filter_cons_True Q) by tauto. cbn [length]. lia.
Qed.

Lemma hasCompleted_entry (s : store) (d i : string) :
  hasCompleted s d i = bool_decide (i ∈ entry s d).
Proof. unfold hasCompleted, entry. by destruct (completions s !! d). Qed.

Lemma scheduledToday_NoDup (tz : Z) (d : string) (hs : list habit) :
  NoDup (id <$> hs) → NoDup (id <$> scheduledToday tz d hs).
Proof.
  unfold scheduledToday. induction hs as [|x hs IH]; [done|].
  rewrite fmap_cons. intros Hnd. apply NoDup_cons in Hnd as [Hx Hnd].
  destruct (decide (isScheduled tz x d && negb (archived x) = true)).
  - rewrite filter_cons_True by done. rewrite fmap_cons.
    apply NoDup_cons. split; [|by apply IH].
    intros Hin. apply Hx. apply list_elem_of_fmap in Hin as (y & Hy & Hin).
    apply list_elem_of_filter in Hin as [_ Hin].
    rewrite Hy. by apply list_elem_of_fmap_2.
  - rewrite filter_cons_False by done. by apply IH.
Qed.

(** X29: among habits of unique ids, toggling a habit that is
    scheduled on a date changes the number of habits completed that
    date by exactly one: one more if it was not done, one less if it
    was; the number completed never exceeds the number scheduled; and
    the habits completed on any other date are the same. *)
Theorem toggle_moves_done_count (tz : Z) (h : habit) (d : string)
    (s : store) (hs : list habit) :
  NoDup (id <$> hs) → h ∈ scheduledToday tz d hs →
  (hasCompleted s d (id h) = false →
   length (completedToday tz (toggle h d s) d hs)
   = S (length (completedToday tz s d hs))) ∧
  (hasCompleted s d (id h) = true →
   S (length (completedToday tz (toggle h d s) d hs))
   = length (completedToday tz s d hs)) ∧
  (length (completedToday tz s d hs) ≤ length (scheduledToday tz d hs))%nat ∧
  (∀ d', d' ≠ d →
         completedToday tz (toggle h d s) d' hs = completedToday tz s d' hs).
Proof.
  intros Hnd Hin. unfold completedToday.
  destruct (count_flip (λ x, hasCompleted s d (id x) = true)
              (λ x, hasCompleted (toggle h d s) d (id x) = true)
              h (scheduledToday tz d hs)
              (scheduledToday_NoDup tz d hs Hnd) Hin) as [Hdone Hundone].
  - intros x _ Hne. rewrite !hasCompleted_entry, !bool_decide_eq_true.
    rewrite entry_toggle. naive_solver.
  - rewrite toggle_flips, negb_true_iff. by destruct (hasCompleted s d (id h)).
  - split; [|split; [|split]].
    + intros Hf. apply Hundone. by rewrite Hf.
    + intros Ht. by apply Hdone.
    + apply length_filter.
    + intros d' Hne. apply list_filter_iff. intros x.
      unfold hasCompleted. by rewrite toggle_other_date.
Qed.

Lemma toggle_moves_done_count_witness :
  length (completedToday 60 (toggle exHabit "2024-01-02" exStore)
            "2024-01-02" [exHabit])
  = S (length (completedToday 60 exStore "2024-01-02" [exHabit])).
Proof.
  apply (toggle_moves_done_count 60 exHabit "2024-01-02" exStore [exHabit]).
  - simpl. apply NoDup_singleton.
  - vm_compute. by left.
  - reflexivity.
Defined.

End OnScreen.
